(** * Juptidu (0xZ9/bt): the rebalancing decision engine, embedded and verified

    The development follows the layout of the repository:

    - [Utils]      : utils/strategy_utils.py
    - [Base]       : strategies/brokkr_strategy.py (fee charging, the shared
                     open / close / rebalance primitives, range checks)
    - [Ladder]     : strategies/brokkr_strategy_B.py and brokkr_strategy_C.py
    - [Partial]    : strategies/brokkr_strategy_partial_rebalance.py

    Conventions of the embedding.

    - A [Decimal] is its value, a rational [Q]; values are compared with [==].
      Fee charging ([Base.substract_gas_fee] and the functions under it), the
      symmetric range of [Utils] and the thresholds, fractions and withdrawn
      amounts of [Partial] use the arithmetic of Python's [decimal] module
      under its default context (module [Decimal]: 28 significant digits,
      round-half-even, the context's exponent range and its traps).
    - Elsewhere the arithmetic is exact, and a division is [pdiv], which
      raises [ZeroDivisionError] on a zero divisor as the Python operator
      does: the price changes and their averages, the amount swapped by a
      symmetrical rebalance, the initial holdings, the accumulated costs, and
      the range checks [Base.is_position_out_of_range],
      [Base.get_rebalance_direction] and
      [Base.position_range_threshold_reached] (which the code evaluates on
      binary floats).  The range recorded in [current_range_low] and
      [current_range_high] is the pair of bounds before the code converts
      them to [float].
    - Code that can raise returns a [result]; [Raise] propagates through
      the monadic bind exactly as an uncaught Python exception unwinds its callers.
    - A pandas [Timestamp] is the number of seconds since the epoch.
    - The pool simulator (demeter's [UniLpMarket]) is outside the repository:
      it is the interface [Market], and every theorem holds for all of its
      implementations. *)

From Stdlib Require Import ZArith QArith Qabs Qround Qpower Lia Lqa Bool List.
From stdpp Require Import base option list gmap strings.
Import ListNotations.

#[local] Open Scope Z_scope.
#[local] Open Scope Q_scope.

(** ** Exceptions and the error monad *)

Inductive exception : Type :=
| ZeroDivisionError        (* Decimal / float division by zero *)
| ValueError               (* max() / min() of an empty sequence *)
| IndexError               (* list index out of range *)
| KeyError                 (* missing dict key *)
| StopIteration            (* next() on an exhausted generator *)
| InsufficientFunds        (* Exception("Ran out of funds to pay gas fees!") *)
| AttributeError           (* attribute access on None *)
| ChainNotSet              (* Exception("Please set the chain before using a strategy!") *)
| ThresholdOutOfBounds     (* Exception("out of range threshold must be between 0 and 100") *)
| Overflow                 (* decimal.Overflow *)
| InvalidOperation.        (* decimal.InvalidOperation *)

Inductive result (A : Type) : Type :=
| Ok (a : A)
| Raise (e : exception).
Arguments Ok {A} a.
Arguments Raise {A} e.

#[global] Instance result_ret : MRet result := fun A a => Ok a.
#[global] Instance result_bind : MBind result := fun A B k m =>
  match m with
  | Ok a => k a
  | Raise e => Raise e
  end.

#[global] Instance result_fmap : FMap result := fun A B f m =>
  match m with
  | Ok a => Ok (f a)
  | Raise e => Raise e
  end.

(** The Python operator [x / y], where the quotient is kept exact. *)
Definition pdiv (x y : Q) : result Q :=
  if Qeq_bool y 0 then Raise ZeroDivisionError else Ok (x / y).

(** Boolean comparisons on [Q], named after the Python operators. *)
Definition Qge_bool (x y : Q) : bool := Qle_bool y x.
Definition Qlt_bool (x y : Q) : bool := negb (Qle_bool y x).
Definition Qgt_bool (x y : Q) : bool := negb (Qle_bool x y).

(** ** Python's decimal arithmetic

    The default context of the [decimal] module, under which the code runs:
    [prec = 28], [rounding = ROUND_HALF_EVEN], [Emax = 999999],
    [Emin = -999999], traps on [InvalidOperation], [DivisionByZero] and
    [Overflow].  An operation computes the exact result and rounds it once to
    the precision of the context; constructors and comparisons are exact. *)

Module Decimal.

Definition prec : Z := 28.
Definition Emax : Z := 999999.
Definition Emin : Z := -999999.

(** The smallest exponent of a (subnormal) result, [Context.Etiny()]. *)
Definition Etiny : Z := Emin - (prec - 1).

Definition pow10 (e : Z) : Q := 10 ^ e.

(** The number of decimal digits of a positive integer. *)
Fixpoint digits_upto (fuel : nat) (n : Z) : Z :=
  match fuel with
  | O => 1
  | S fuel => if (n <? 10)%Z then 1%Z else (1 + digits_upto fuel (n / 10))%Z
  end.

Definition digits (n : Z) : Z := digits_upto (Z.to_nat (Z.log2 n)) n.

(** [Decimal.adjusted()] of a positive value: the exponent of its leading
    digit, [floor(log10 x)]. *)
Definition adjusted (x : Q) : Z :=
  let k := (digits (Qnum x) - digits (Zpos (Qden x)))%Z in
  if Qle_bool (pow10 k) x then k else (k - 1)%Z.

(** Rounding to an integer, ties to the even neighbour. *)
Definition round_half_even (x : Q) : Z :=
  let n := Qfloor x in
  match Qcompare (x - inject_Z n) (1 # 2) with
  | Lt => n
  | Gt => (n + 1)%Z
  | Eq => if Z.even n then n else (n + 1)%Z
  end.

(** The exponent of the last digit kept: [prec] digits from the leading one,
    but never below [Etiny]. *)
Definition quantum (x : Q) : Z := Z.max (adjusted (Qabs x) - (prec - 1)) Etiny.

(** The exact value [x] rounded to the context. *)
Definition quantize (x : Q) : Q :=
  if Qeq_bool x 0 then 0
  else inject_Z (round_half_even (x / pow10 (quantum x))) * pow10 (quantum x).

(** The end of every operation ([Decimal._fix]): round, and signal
    [Overflow] when the rounded result exceeds the exponent range. *)
Definition finish (x : Q) : result Q :=
  let q := quantize x in
  if Qeq_bool q 0 then Ok q
  else if (Emax <? adjusted (Qabs q))%Z then Raise Overflow else Ok q.

(** [x + y], [x - y], [x * y] and [x / y] on decimals. *)
Definition add (x y : Q) : result Q := finish (x + y).
Definition sub (x y : Q) : result Q := finish (x - y).
Definition mul (x y : Q) : result Q := finish (x * y).
Definition div (x y : Q) : result Q :=
  if Qeq_bool y 0 then
    if Qeq_bool x 0 then Raise InvalidOperation else Raise ZeroDivisionError
  else finish (x / y).

(** Half a unit in the last of 28 digits, relative to the leading one: the
    largest relative error of one rounding. *)
Definition half_ulp : Q := 5 # 10000000000000000000000000000.

(** The magnitudes an operation can return ([in_range]), and those it rounds
    with the full precision of the context ([normal]: no underflow either). *)
Definition in_range (x : Q) : Prop := Qabs x <= pow10 Emax.
Definition normal (x : Q) : Prop := pow10 Emin <= Qabs x /\ Qabs x <= pow10 Emax.

(** A positive value between [10^-k] and [10^k]. *)
Definition within (k : Z) (x : Q) : Prop := pow10 (- k) <= x /\ x <= pow10 k.

End Decimal.

Arguments Decimal.quantize : simpl never.
Arguments Decimal.pow10 : simpl never.

(** ** constants.py *)

(** Modelled from the spec: constants.py is not among the sources; the spec
    gives [r = range_percent/100], so [PERCENT_TO_DECIMAL] is one hundredth
    and [ONE] is the decimal one. *)
Definition ONE : Q := 1.
Definition PERCENT_TO_DECIMAL : Q := 1 # 100.

(** ** utils/strategy_utils.py *)

Module Utils.

(** The calendar of a [Timestamp]: [timestamp.year] and
    [timestamp.dayofyear] (1-based) of the proleptic Gregorian calendar.
    [year_of_days] is the usual era-based conversion of a day number
    (days since 1970-01-01) to its civil year. *)
Definition days_since_epoch (t : Z) : Z := (t / 86400)%Z.

Definition year_of_days (d : Z) : Z :=
  (let z := d + 719468 in
   let era := z / 146097 in
   let doe := z - era * 146097 in
   let yoe := (doe - doe / 1460 + doe / 36524 - doe / 146096) / 365 in
   let doy := doe - (365 * yoe + yoe / 4 - yoe / 100) in
   let mp := (5 * doy + 2) / 153 in
   let m := if mp <? 10 then mp + 3 else mp - 9 in
   yoe + era * 400 + (if m <=? 2 then 1 else 0))%Z.

(** Day number of the first of January of year [y]. *)
Definition days_before_year (y : Z) : Z :=
  (365 * (y - 1970) + ((y - 1) / 4 - (y - 1) / 100 + (y - 1) / 400) - 477)%Z.

Definition year (t : Z) : Z := year_of_days (days_since_epoch t).
Definition dayofyear (t : Z) : Z :=
  (days_since_epoch t - days_before_year (year t) + 1)%Z.

(** [timestamp_to_key(timestamp)]: the string [f"{year}-{dayofyear}"] is
    kept as the pair it prints. *)
Definition timestamp_to_key (timestamp : Z) : Z * Z :=
  (year timestamp, dayofyear timestamp).

(** [is_one_day_or_older(historical_timestamp, current_timestamp)] *)
Definition is_one_day_or_older (historical_timestamp current_timestamp : Z) : bool :=
  let one_day := 86400%Z in
  let time_difference := (current_timestamp - historical_timestamp)%Z in
  (one_day <=? time_difference)%Z.

(** [get_price_change_in_percentage(price_before, price_now)] *)
Definition get_price_change_in_percentage (price_before price_now : Q) : result Q :=
  if Qeq_bool price_before 0 || Qeq_bool price_now 0 then Ok 0
  else
    let price_change := price_now - price_before in
    q ← pdiv price_change price_before;
    Ok (q * 100).

(** [get_lower_upper_price_for_symmetric_range(range_in_percentage, price)]:
    the two conversions [Decimal(range_in_percentage)] and [Decimal(price)]
    are exact, and [ONE + range] is evaluated once for each bound. *)
Definition get_lower_upper_price_for_symmetric_range
    (range_in_percentage price : Q) : result (Q * Q) :=
  range ← Decimal.mul PERCENT_TO_DECIMAL range_in_percentage;
  factor ← Decimal.add ONE range;
  lower_quote_price ← Decimal.div price factor;
  factor ← Decimal.add ONE range;
  upper_quote_price ← Decimal.mul price factor;
  Ok (lower_quote_price, upper_quote_price).

End Utils.


(** ** Shared data model *)

(** The two [TokenInfo]s of the pool. *)
Inductive Token : Type := BaseToken | QuoteToken.

#[global] Instance Token_eq_dec : EqDecision Token.
Proof. solve_decision. Defined.

(** [broker.assets[token].balance] for the two tokens of the pool. *)
Record Broker : Type := mkBroker {
  base_balance : Q;
  quote_balance : Q
}.

Definition balance (b : Broker) (t : Token) : Q :=
  match t with BaseToken => base_balance b | QuoteToken => quote_balance b end.

Definition set_balance (b : Broker) (t : Token) (v : Q) : Broker :=
  match t with
  | BaseToken => mkBroker v (quote_balance b)
  | QuoteToken => mkBroker (base_balance b) v
  end.

(** config/fees.py *)
Record Fee : Type := mkFee {
  swap_in : Q;
  liquidity_providing : Q;
  removing_liquidity : Q
}.

(** models/fees_configuration.py; [fee_rates] is the dict year -> Fee. *)
Record FeesConfiguration : Type := mkFeesConfiguration {
  token : Token;
  fee_rates : gmap Z Fee
}.

(** models/operations_stats.py *)
Record OperationsStats : Type := mkStats {
  rebalances_count : Z;
  providing_lp_count : Z;
  withdrawing_lp_count : Z;
  rebalances_cost : Q;
  providing_lp_cost : Q;
  withdrawing_lp_cost : Q
}.

Definition OperationsStats_init : OperationsStats := mkStats 0 0 0 0 0 0.

(** demeter's [PositionInfo(lower_tick, upper_tick)], the key of
    [market.positions]. *)
Definition PositionInfo : Type := (Z * Z)%type.

(** Modelled from the spec: models/rebalance_direction.py is not among the
    sources; its uses ([RebalanceDirection.UP], [RebalanceDirection.DOWN])
    show a two-valued enumeration. *)
Inductive RebalanceDirection : Type := UP | DOWN.

(** One entry of [self.account_status]: its timestamp and the position
    holdings that [is_out_of_range] reads. *)
Record AccountStatus : Type := mkAccountStatus {
  as_timestamp : Z;
  base_in_position : Q;
  quote_in_position : Q
}.

(** ** The pool simulator, as the strategies use it *)

Class Market (M : Type) : Type := {
  (* market.market_status.price and .timestamp *)
  market_price : M -> Q;
  market_timestamp : M -> Z;
  (* list(market.positions): the keys, in dict order *)
  market_positions : M -> list PositionInfo;
  (* market.positions[p].liquidity *)
  market_liquidity : M -> PositionInfo -> Z;
  market_tick_to_price : M -> Z -> Q;
  (* market.even_rebalance(price), market.buy(amount), market.sell(amount) *)
  market_even_rebalance : Q -> M * Broker -> M * Broker;
  market_buy : Q -> M * Broker -> M * Broker;
  market_sell : Q -> M * Broker -> M * Broker;
  (* market.add_liquidity(lower, upper, base_max_amount, quote_max_amount) *)
  market_add_liquidity :
    Q -> Q -> option Q -> option Q -> M * Broker ->
    (PositionInfo * Q * Q * Z) * (M * Broker);
  (* market.remove_liquidity(position, liquidity) *)
  market_remove_liquidity :
    PositionInfo -> option Z -> M * Broker -> (Q * Q) * (M * Broker);
  (* market.positions[p].range = range *)
  market_set_range : PositionInfo -> Q -> M -> M
}.

(** ** config/fees.py *)

Module Fees.

(** demeter's [ChainType], as far as the fee tables tell its members
    apart: the two chains with an entry, and any other member. *)
Inductive ChainType : Type := Ethereum | Arbitrum | OtherChain.

Definition ethereum_fees_native : gmap Z Fee :=
  list_to_map
    [(2015%Z, mkFee (627367 # 100000000) (1886801 # 100000000) (1072989 # 100000000));
     (2016%Z, mkFee (469774 # 100000000) (1412843 # 100000000) (803458 # 100000000));
     (2017%Z, mkFee (336409 # 100000000) (1011747 # 100000000) (575361 # 100000000));
     (2018%Z, mkFee (285333 # 100000000) (858136 # 100000000) (488006 # 100000000));
     (2019%Z, mkFee (223397 # 100000000) (671864 # 100000000) (382077 # 100000000));
     (2020%Z, mkFee (835881 # 100000000) (2513907 # 100000000) (1429612 # 100000000));
     (2021%Z, mkFee (1450546 # 100000000) (4362507 # 100000000) (2480876 # 100000000));
     (2022%Z, mkFee (670571 # 100000000) (2016738 # 100000000) (1146881 # 100000000));
     (2023%Z, mkFee (512012 # 100000000) (1539873 # 100000000) (875697 # 100000000))].

Definition ethereum_fees_usdc : gmap Z Fee :=
  list_to_map
    [(2015%Z, mkFee (1148 # 100) (3453 # 100) (1964 # 100));
     (2016%Z, mkFee (860 # 100) (2586 # 100) (1470 # 100));
     (2017%Z, mkFee (616 # 100) (1851 # 100) (1053 # 100));
     (2018%Z, mkFee (522 # 100) (1570 # 100) (893 # 100));
     (2019%Z, mkFee (409 # 100) (1230 # 100) (699 # 100));
     (2020%Z, mkFee (1530 # 100) (4600 # 100) (2616 # 100));
     (2021%Z, mkFee (2654 # 100) (7983 # 100) (4540 # 100));
     (2022%Z, mkFee (1227 # 100) (3691 # 100) (2099 # 100));
     (2023%Z, mkFee (937 # 100) (2818 # 100) (1603 # 100))].

Definition arbitrum_fees_native : gmap Z Fee :=
  list_to_map
    [(2015%Z, mkFee (7979 # 100000000) (13726 # 100000000) (11422 # 100000000))].

Definition arbitrum_fees_usdc : gmap Z Fee :=
  list_to_map
    [(2015%Z, mkFee (15 # 100) (25 # 100) (21 # 100))].

(** [chain_to_fees_dict[chain]]: the listed token-name sets with their
    tables, native tokens first; [None] for a chain without an entry. *)
Definition chain_to_fees_dict (chain : ChainType)
    : option (list (list string * gmap Z Fee)) :=
  match chain with
  | Ethereum =>
    Some [(["eth"; "weth"], ethereum_fees_native); (["usd"; "usdc"], ethereum_fees_usdc)]
  | Arbitrum =>
    Some [(["arb"], arbitrum_fees_native); (["usd"; "usdc"], arbitrum_fees_usdc)]
  | OtherChain => None
  end.

End Fees.

(** ** strategies/brokkr_strategy.py *)

Module Base.

(** The fields of a [BrokkrStrategy] instance that the decision logic
    reads or writes.  [custom] holds the fields a subclass adds. *)
Record Strategy (M S : Type) : Type := mkStrategy {
  stats : OperationsStats;
  broker : Broker;
  market : M;
  fees_configuration : option FeesConfiguration;
  current_range_low : Q;
  current_range_high : Q;
  initial_base_holdings : Q;
  initial_quote_holdings : Q;
  custom : S
}.
Arguments mkStrategy {M S}.
Arguments stats {M S}.
Arguments broker {M S}.
Arguments market {M S}.
Arguments fees_configuration {M S}.
Arguments current_range_low {M S}.
Arguments current_range_high {M S}.
Arguments initial_base_holdings {M S}.
Arguments initial_quote_holdings {M S}.
Arguments custom {M S}.

Section Primitives.
Context {M : Type} `{Market M} {S : Type}.

(** The hook [on_successful_position_opened] as a subclass extends it:
    what it does to the subclass's own fields. *)
Variable opened_hook : Z -> Q -> Q -> option RebalanceDirection -> S -> S.

Abbreviation State := (Strategy M S).

Definition set_stats (st : State) (s : OperationsStats) : State :=
  mkStrategy s (broker st) (market st) (fees_configuration st)
    (current_range_low st) (current_range_high st)
    (initial_base_holdings st) (initial_quote_holdings st) (custom st).

Definition set_broker (st : State) (b : Broker) : State :=
  mkStrategy (stats st) b (market st) (fees_configuration st)
    (current_range_low st) (current_range_high st)
    (initial_base_holdings st) (initial_quote_holdings st) (custom st).

Definition set_market (st : State) (m : M) : State :=
  mkStrategy (stats st) (broker st) m (fees_configuration st)
    (current_range_low st) (current_range_high st)
    (initial_base_holdings st) (initial_quote_holdings st) (custom st).

Definition set_market_broker (st : State) (mb : M * Broker) : State :=
  set_broker (set_market st (fst mb)) (snd mb).

Definition set_custom (st : State) (c : S) : State :=
  mkStrategy (stats st) (broker st) (market st) (fees_configuration st)
    (current_range_low st) (current_range_high st)
    (initial_base_holdings st) (initial_quote_holdings st) c.

Definition set_fees_configuration (st : State) (f : option FeesConfiguration) : State :=
  mkStrategy (stats st) (broker st) (market st) f
    (current_range_low st) (current_range_high st)
    (initial_base_holdings st) (initial_quote_holdings st) (custom st).

Definition set_initial_holdings (st : State) (b q : Q) : State :=
  mkStrategy (stats st) (broker st) (market st) (fees_configuration st)
    (current_range_low st) (current_range_high st) b q (custom st).

Definition set_balance_of (st : State) (t : Token) (v : Q) : State :=
  set_broker st (set_balance (broker st) t v).

Definition get_base_token : Token := BaseToken.
Definition get_quote_token : Token := QuoteToken.

(** [get_current_default_quote_token_market_price] *)
Definition get_current_default_quote_token_market_price (st : State) : Q :=
  market_price (market st).

(** [get_low_high_borders(position)] *)
Definition get_low_high_borders (st : State) (position : PositionInfo) : Q * Q :=
  (market_tick_to_price (market st) (fst position),
   market_tick_to_price (market st) (snd position)).

(** [on_successful_position_opened]: the base class records the range,
    a subclass may add to it. *)
Definition on_successful_position_opened (timestamp : Z) (range_min range_max : Q)
    (rebalance_direction : option RebalanceDirection) (st : State) : State :=
  let st :=
    mkStrategy (stats st) (broker st) (market st) (fees_configuration st)
      range_min range_max
      (initial_base_holdings st) (initial_quote_holdings st) (custom st) in
  set_custom st (opened_hook timestamp range_min range_max rebalance_direction (custom st)).

(** *** Fee charging *)

(** [deduct_fee_from_balance(token, amount, is_fee_token_base_token)] *)
Definition deduct_fee_from_balance (token : Token) (amount : Q)
    (is_fee_token_base_token : bool) (st : State) : result (State * (Q * Q)) :=
  rest ← Decimal.sub (balance (broker st) token) amount;
  let st := set_balance_of st token rest in
  Ok (st, if is_fee_token_base_token then (amount, 0) else (0, amount)).

(** [pay_remaining_fee_in_quote_token(fee_token, amount, current_price, timestamp)] *)
Definition pay_remaining_fee_in_quote_token (fee_token : Token) (amount current_price : Q)
    (st : State) : result (State * Q) :=
  fee_to_be_paid_in_quote_token ← Decimal.div amount current_price;
  let available_amount_of_quote_token := balance (broker st) get_quote_token in
  if Qge_bool available_amount_of_quote_token fee_to_be_paid_in_quote_token then
    rest ← Decimal.sub (balance (broker st) get_quote_token) fee_to_be_paid_in_quote_token;
    let st := set_balance_of st get_quote_token rest in
    let st := set_balance_of st fee_token 0 in
    Ok (st, fee_to_be_paid_in_quote_token)
  else Raise InsufficientFunds.

(** [pay_remaining_fee_in_base_token(fee_token, amount, current_price, timestamp)] *)
Definition pay_remaining_fee_in_base_token (fee_token : Token) (amount current_price : Q)
    (st : State) : result (State * Q) :=
  fee_to_be_paid_in_base_token ← Decimal.mul amount current_price;
  let available_amount_of_base_token := balance (broker st) get_base_token in
  if Qge_bool available_amount_of_base_token fee_to_be_paid_in_base_token then
    rest ← Decimal.sub (balance (broker st) get_base_token) fee_to_be_paid_in_base_token;
    let st := set_balance_of st get_base_token rest in
    let st := set_balance_of st fee_token 0 in
    Ok (st, fee_to_be_paid_in_base_token)
  else Raise InsufficientFunds.

(** [substract_gas_fee_on_insufficient_fee_token_amount] *)
Definition substract_gas_fee_on_insufficient_fee_token_amount (fee_token : Token)
    (fee_amount : Q) (is_fee_token_base_token : bool) (st : State)
    : result (State * (Q * Q)) :=
  let current_price := market_price (market st) in
  let available_fee_token_balance := balance (broker st) fee_token in
  remaining_fee_to_be_paid ← Decimal.sub fee_amount available_fee_token_balance;
  if is_fee_token_base_token then
    '(st, quote_token_spent) ←
      pay_remaining_fee_in_quote_token fee_token remaining_fee_to_be_paid current_price st;
    Ok (st, (available_fee_token_balance, quote_token_spent))
  else
    '(st, base_token_spent) ←
      pay_remaining_fee_in_base_token fee_token remaining_fee_to_be_paid current_price st;
    Ok (st, (base_token_spent, available_fee_token_balance)).

(** [substract_gas_fee(fee_amount)]: returns the state after the charge
    and the pair (base spent, quote spent). *)
Definition substract_gas_fee (fee_amount : Q) (st : State) : result (State * (Q * Q)) :=
  match fees_configuration st with
  | None => Raise AttributeError
  | Some cfg =>
    let fee_token := token cfg in
    let fee_token_balance := balance (broker st) fee_token in
    let is_fee_token_base_token := bool_decide (fee_token = get_base_token) in
    if Qge_bool fee_token_balance fee_amount then
      deduct_fee_from_balance fee_token fee_amount is_fee_token_base_token st
    else
      substract_gas_fee_on_insufficient_fee_token_amount fee_token fee_amount
        is_fee_token_base_token st
  end.

(** [max(fee_rates.keys())] *)
Definition max_key (m : gmap Z Fee) : result Z :=
  match (map_to_list m).*1 with
  | [] => Raise ValueError
  | k :: ks => Ok (foldr Z.max k ks)
  end.

(** [get_fee_rate_for_year(year)] *)
Definition get_fee_rate_for_year (year : Z) (st : State) : result Fee :=
  match fees_configuration st with
  | None => Raise AttributeError
  | Some cfg =>
    let fee_rates := fee_rates cfg in
    match fee_rates !! year with
    | Some configuration => Ok configuration
    | None =>
      k ← max_key fee_rates;
      match fee_rates !! k with
      | Some configuration => Ok configuration
      | None => Raise KeyError
      end
    end
  end.

(** *** The shared primitives *)

(** The guarded fee block shared by the primitives:
    [year = timestamp.year; fee = get_fee_rate_for_year(year).<rate>;
     substract_gas_fee(fee)], returning the fee and the amounts spent. *)
Definition charge_fee (rate : Fee -> Q) (st : State) : result (State * Q * (Q * Q)) :=
  let year := Utils.year (market_timestamp (market st)) in
  configuration ← get_fee_rate_for_year year st;
  let fee := rate configuration in
  '(st, spent) ← substract_gas_fee fee st;
  Ok (st, fee, spent).

Definition add_rebalances_cost (fee : Q) (s : OperationsStats) : OperationsStats :=
  mkStats (rebalances_count s) (providing_lp_count s) (withdrawing_lp_count s)
    (rebalances_cost s + fee) (providing_lp_cost s) (withdrawing_lp_cost s).

Definition add_providing_lp_cost (fee : Q) (s : OperationsStats) : OperationsStats :=
  mkStats (rebalances_count s) (providing_lp_count s) (withdrawing_lp_count s)
    (rebalances_cost s) (providing_lp_cost s + fee) (withdrawing_lp_cost s).

Definition add_withdrawing_lp_cost (fee : Q) (s : OperationsStats) : OperationsStats :=
  mkStats (rebalances_count s) (providing_lp_count s) (withdrawing_lp_count s)
    (rebalances_cost s) (providing_lp_cost s) (withdrawing_lp_cost s + fee).

Definition incr_rebalances_count (s : OperationsStats) : OperationsStats :=
  mkStats (rebalances_count s + 1) (providing_lp_count s) (withdrawing_lp_count s)
    (rebalances_cost s) (providing_lp_cost s) (withdrawing_lp_cost s).

Definition incr_providing_lp_count (s : OperationsStats) : OperationsStats :=
  mkStats (rebalances_count s) (providing_lp_count s + 1) (withdrawing_lp_count s)
    (rebalances_cost s) (providing_lp_cost s) (withdrawing_lp_cost s).

Definition incr_withdrawing_lp_count (s : OperationsStats) : OperationsStats :=
  mkStats (rebalances_count s) (providing_lp_count s) (withdrawing_lp_count s + 1)
    (rebalances_cost s) (providing_lp_cost s) (withdrawing_lp_cost s).

(** [symmetrical_rebalance(market, init_price)] *)
Definition symmetrical_rebalance (init_price : Q) (st : State) : result State :=
  st ← match fees_configuration st with
       | Some _ =>
         '(st, fee, _) ← charge_fee swap_in st;
         Ok (set_stats st (add_rebalances_cost fee (stats st)))
       | None => Ok st
       end;
  let st := set_market_broker st (market_even_rebalance init_price (market st, broker st)) in
  Ok (set_stats st (incr_rebalances_count (stats st))).

(** [market_asymmetric_rebalance(market, rebalancing_price)] of
    utils/strategy_utils.py, with [quote_token_price] left to its default. *)
Definition market_asymmetric_rebalance (rebalancing_price : Q) (mb : M * Broker)
    : result (M * Broker) :=
  let quote_token_price := market_price (fst mb) in
  let total_capital :=
    balance (snd mb) BaseToken + balance (snd mb) QuoteToken * quote_token_price in
  let target_base_amount := total_capital / 2 in
  q ← pdiv target_base_amount rebalancing_price;
  let quote_amount_diff := q - balance (snd mb) QuoteToken in
  if Qgt_bool quote_amount_diff 0 then Ok (market_buy quote_amount_diff mb)
  else if Qlt_bool quote_amount_diff 0 then Ok (market_sell (0 - quote_amount_diff) mb)
  else Ok mb.

(** [asymmetrical_rebalance(market, init_price)] *)
Definition asymmetrical_rebalance (init_price : Q) (st : State) : result State :=
  st ← match fees_configuration st with
       | Some _ =>
         '(st, fee, _) ← charge_fee swap_in st;
         Ok (set_stats st (add_rebalances_cost fee (stats st)))
       | None => Ok st
       end;
  mb ← market_asymmetric_rebalance init_price (market st, broker st);
  let st := set_market_broker st mb in
  Ok (set_stats st (incr_rebalances_count (stats st))).

(** [add_liquidity_custom_range(market, lower_quote_price, upper_quote_price,
    base_max_amount, quote_max_amount, rebalance_direction)] *)
Definition add_liquidity_custom_range (lower_quote_price upper_quote_price : Q)
    (base_max_amount quote_max_amount : option Q)
    (rebalance_direction : option RebalanceDirection) (st : State)
    : result (State * (PositionInfo * Q * Q * Z)) :=
  '(st, (base_spent_on_fees, quote_spent_on_fees)) ←
    match fees_configuration st with
    | Some _ =>
      '(st, fee, spent) ← charge_fee liquidity_providing st;
      Ok (set_stats st (add_providing_lp_cost fee (stats st)), spent)
    | None => Ok (st, (0, 0))
    end;
  let '(opened, mb) :=
    market_add_liquidity lower_quote_price upper_quote_price
      ((fun a => a - base_spent_on_fees) <$> base_max_amount)
      ((fun a => a - quote_spent_on_fees) <$> quote_max_amount)
      (market st, broker st) in
  let st := set_market_broker st mb in
  let st := set_stats st (incr_providing_lp_count (stats st)) in
  let timestamp := market_timestamp (market st) in
  let st := on_successful_position_opened timestamp lower_quote_price upper_quote_price
              rebalance_direction st in
  Ok (st, opened).

(** [add_liquidity(market, range, base_max_amount, quote_max_amount,
    rebalance_direction, init_price)] *)
Definition add_liquidity (range : Q) (base_max_amount quote_max_amount : option Q)
    (rebalance_direction : option RebalanceDirection) (init_price : option Q) (st : State)
    : result (State * (PositionInfo * Q * Q * Z)) :=
  let init_price := default (market_price (market st)) init_price in
  '(lower_quote_price, upper_quote_price) ←
    Utils.get_lower_upper_price_for_symmetric_range range init_price;
  '(st, opened) ←
    add_liquidity_custom_range lower_quote_price upper_quote_price
      base_max_amount quote_max_amount rebalance_direction st;
  let new_position := opened.1.1.1 in
  let st := set_market st (market_set_range new_position range (market st)) in
  Ok (st, opened).

(** [remove_liquidity(market, position, liquidity)] *)
Definition remove_liquidity (position : PositionInfo) (liquidity : option Z) (st : State)
    : result State :=
  let '(_, mb) := market_remove_liquidity position liquidity (market st, broker st) in
  let st := set_market_broker st mb in
  let st := set_stats st (incr_withdrawing_lp_count (stats st)) in
  match fees_configuration st with
  | Some _ =>
    '(st, fee, _) ← charge_fee removing_liquidity st;
    Ok (set_stats st (add_withdrawing_lp_cost fee (stats st)))
  | None => Ok st
  end.

(** The loop [for position_key in keys: self.remove_liquidity(market, position_key)] *)
Fixpoint remove_each (keys : list PositionInfo) (st : State) : result State :=
  match keys with
  | [] => Ok st
  | position_key :: keys =>
    st ← remove_liquidity position_key None st;
    remove_each keys st
  end.

(** [remove_all_liquidity(market)] *)
Definition remove_all_liquidity (st : State) : result State :=
  if (length (market_positions (market st)) <? 1)%nat then Ok st
  else remove_each (market_positions (market st)) st.

(** [get_rebalance_direction(position, market, current_price)] of
    utils/strategy_utils.py *)
Definition get_rebalance_direction (position : PositionInfo) (m : M) (current_price : Q)
    : RebalanceDirection :=
  let price_low := market_tick_to_price m (fst position) in
  let price_high := market_tick_to_price m (snd position) in
  let diff_down := Qabs (current_price - price_low) in
  let diff_up := Qabs (current_price - price_high) in
  if Qlt_bool diff_up diff_down then UP else DOWN.

(** [rebalance_and_add_symmetric_liquidity(range_in_percentage, init_price)] *)
Definition rebalance_and_add_symmetric_liquidity (range_in_percentage : Q)
    (init_price : option Q) (st : State) : result (State * (PositionInfo * Q * Q * Z)) :=
  let init_price := default (market_price (market st)) init_price in
  '(rebalance_direction, st) ←
    match last (market_positions (market st)) with
    | Some position =>
      let rebalance_direction := get_rebalance_direction position (market st) init_price in
      st ← remove_all_liquidity st;
      Ok (Some rebalance_direction, st)
    | None => Ok (None, st)
    end;
  st ← symmetrical_rebalance init_price st;
  add_liquidity range_in_percentage None None rebalance_direction None st.

(** [is_out_of_range]: [account_status] is the list the runner has recorded
    so far; the method reads its last entry. *)
Definition is_out_of_range (account_status : list AccountStatus) : result bool :=
  match last account_status with
  | None => Raise IndexError
  | Some current_account_status =>
    let base_balance := base_in_position current_account_status in
    let quote_balance := quote_in_position current_account_status in
    Ok (Qle_bool quote_balance 0 || Qle_bool base_balance 0)
  end.

(** [is_position_out_of_range(position, out_of_range_percentage_threshold)] *)
Definition is_position_out_of_range (position : PositionInfo)
    (out_of_range_percentage_threshold : Q) (st : State) : result bool :=
  let '(lower_price, upper_price) := get_low_high_borders st position in
  let current_price := market_price (market st) in
  let position_price := (lower_price + upper_price) / 2 in
  if Qlt_bool out_of_range_percentage_threshold 0
     || Qgt_bool out_of_range_percentage_threshold 100
  then Raise ThresholdOutOfBounds
  else if Qeq_bool position_price current_price then Ok false
  else if Qlt_bool current_price lower_price || Qgt_bool current_price upper_price
  then Ok true
  else
    let price_on_the_left_side_of_position := Qlt_bool current_price position_price in
    let range_start :=
      if price_on_the_left_side_of_position then lower_price else position_price in
    let range_end :=
      if price_on_the_left_side_of_position then position_price else upper_price in
    q ← pdiv (current_price - range_start) (range_end - range_start);
    let out_of_range_level := q * 100 in
    let out_of_range_level :=
      if price_on_the_left_side_of_position then 100 - out_of_range_level
      else out_of_range_level in
    Ok (Qgt_bool out_of_range_level out_of_range_percentage_threshold).

(** [position_range_threshold_reached(position, out_of_range_threshold_up,
    out_of_range_threshold_down, position_start_price)].  The guard is the
    chained comparison [100 > up < 0 or 100 > down < 0], which Python reads
    as [(100 > up and up < 0) or (100 > down and down < 0)]. *)
Definition position_range_threshold_reached (position : PositionInfo)
    (out_of_range_threshold_up out_of_range_threshold_down : Q)
    (position_start_price : option Q) (st : State) : result bool :=
  let '(lower_price, upper_price) := get_low_high_borders st position in
  let current_price := get_current_default_quote_token_market_price st in
  let position_mid_price :=
    match position_start_price with
    | None => (lower_price + upper_price) / 2
    | Some p => p
    end in
  if (Qgt_bool 100 out_of_range_threshold_up && Qlt_bool out_of_range_threshold_up 0)
     || (Qgt_bool 100 out_of_range_threshold_down && Qlt_bool out_of_range_threshold_down 0)
  then Raise ThresholdOutOfBounds
  else if Qeq_bool position_mid_price current_price then Ok false
  else if Qlt_bool current_price lower_price || Qgt_bool current_price upper_price
  then Ok true
  else if Qgt_bool current_price position_mid_price then
    q ← pdiv (current_price - position_mid_price) (upper_price - position_mid_price);
    let price_displacement_percent_up := q * 100 in
    Ok (Qge_bool price_displacement_percent_up out_of_range_threshold_up)
  else
    q ← pdiv (position_mid_price - current_price) (position_mid_price - lower_price);
    let price_displacement_percent_down := q * 100 in
    Ok (Qge_bool price_displacement_percent_down out_of_range_threshold_down).

(** [max(prices_in_range)] and [min(prices_in_range)] *)
Definition py_max (l : list Q) : result Q :=
  match l with
  | [] => Raise ValueError
  | x :: xs => Ok (fold_left (fun m y => if Qgt_bool y m then y else m) xs x)
  end.

Definition py_min (l : list Q) : result Q :=
  match l with
  | [] => Raise ValueError
  | x :: xs => Ok (fold_left (fun m y => if Qlt_bool y m then y else m) xs x)
  end.

(** [get_max_price_change_in_past_period(now, period)]; [prices_in_range]
    is the slice [price_series[from_timestamp:now]] of the price feed. *)
Definition get_max_price_change_in_past_period (prices_in_range : list Q) : result Q :=
  highest_price ← py_max prices_in_range;
  lowest_price ← py_min prices_in_range;
  c ← Utils.get_price_change_in_percentage highest_price lowest_price;
  Ok (Qabs c).

(** [initialize]: [has_chain] tells whether [self.chain] was set,
    [found] is what [get_fees_configuration()] returns for the pool,
    [pool_fee_rate] is [market._pool.fee_rate], and [initialize_custom] is
    the subclass's hook. *)
Definition initialize (has_chain : bool) (found : option FeesConfiguration)
    (pool_fee_rate : Q) (initialize_custom : State -> result State) (st : State)
    : result State :=
  if negb has_chain then Raise ChainNotSet
  else
    let st := set_fees_configuration st found in
    let base := (1 - pool_fee_rate) * balance (broker st) get_base_token / 2 in
    let price := market_price (market st) in
    quote ← pdiv base price;
    let st := set_initial_holdings st base quote in
    initialize_custom st.

(** *** Runs of the shared primitives

    Whatever a strategy decides, what reaches the balances and the statistics
    is a sequence of calls of the three fee-bearing primitives, interleaved
    with the runner moving the simulator to the next bar. *)
Inductive Operation : Type :=
| SymmetricalRebalance (init_price : Q)
| AddLiquidityCustomRange (lower_quote_price upper_quote_price : Q)
    (base_max_amount quote_max_amount : option Q)
    (rebalance_direction : option RebalanceDirection)
| RemoveLiquidity (position : PositionInfo) (liquidity : option Z)
| NextBar (m : M).

Definition perform (op : Operation) (st : State) : result State :=
  match op with
  | SymmetricalRebalance init_price => symmetrical_rebalance init_price st
  | AddLiquidityCustomRange lower upper base_max quote_max direction =>
    fst <$> add_liquidity_custom_range lower upper base_max quote_max direction st
  | RemoveLiquidity position liquidity => remove_liquidity position liquidity st
  | NextBar m => Ok (set_market st m)
  end.

Fixpoint perform_all (ops : list Operation) (st : State) : result State :=
  match ops with
  | [] => Ok st
  | op :: ops =>
    st ← perform op st;
    perform_all ops st
  end.

(** What the simulator alone does to the market and the balances in an
    operation, with no fee taken from the funds offered. *)
Definition market_effect (op : Operation) (mb : M * Broker) : M * Broker :=
  match op with
  | SymmetricalRebalance init_price => market_even_rebalance init_price mb
  | AddLiquidityCustomRange lower upper base_max quote_max _ =>
    snd (market_add_liquidity lower upper
           ((fun a => a - 0) <$> base_max) ((fun a => a - 0) <$> quote_max) mb)
  | RemoveLiquidity position liquidity =>
    snd (market_remove_liquidity position liquidity mb)
  | NextBar m => (m, snd mb)
  end.

Definition is_rebalance (op : Operation) : bool :=
  match op with SymmetricalRebalance _ => true | _ => false end.

Definition is_providing (op : Operation) : bool :=
  match op with AddLiquidityCustomRange _ _ _ _ _ => true | _ => false end.

Definition is_withdrawing (op : Operation) : bool :=
  match op with RemoveLiquidity _ _ => true | _ => false end.

Definition count_ops (kind : Operation -> bool) (ops : list Operation) : Z :=
  Z.of_nat (length (List.filter kind ops)).

(** *** Fee configuration and reporting *)

(** [set(tokens).intersection(tokens_in_pool)], as the list of its
    elements in the order of [tokens]. *)
Definition intersection (tokens tokens_in_pool : list string) : list string :=
  List.filter (fun t => bool_decide (t ∈ tokens_in_pool)) (remove_dups tokens).

(** No token of the entry is a token of the pool. *)
Definition no_match (base_name quote_name : string) (entry : list string * gmap Z Fee)
    : Prop :=
  forall t, t ∈ entry.1 -> t <> base_name /\ t <> quote_name.

(** The loop of [get_fees_configuration] over the entries of the chain.
    [pop] is [set.pop], which removes and returns an arbitrary element and
    raises [KeyError] on the empty set. *)
Fixpoint first_fees_configuration (pop : list string -> option string)
    (base_name quote_name : string) (entries : list (list string * gmap Z Fee))
    : result (option FeesConfiguration) :=
  match entries with
  | [] => Ok None
  | (tokens, fee_rates) :: entries =>
    let matched := intersection tokens [base_name; quote_name] in
    if (0 <? length matched)%nat then
      match pop matched with
      | None => Raise KeyError
      | Some matched_token_name =>
        let token :=
          if bool_decide (base_name = matched_token_name) then get_base_token
          else get_quote_token in
        Ok (Some (mkFeesConfiguration token fee_rates))
      end
    else first_fees_configuration pop base_name quote_name entries
  end.

(** [get_fees_configuration]: [base_name] and [quote_name] are the
    lower-cased names of the pool's tokens. *)
Definition get_fees_configuration (pop : list string -> option string)
    (chain : Fees.ChainType) (base_name quote_name : string)
    : result (option FeesConfiguration) :=
  match Fees.chain_to_fees_dict chain with
  | None => Raise KeyError
  | Some fees_configuration_for_current_chain =>
    first_fees_configuration pop base_name quote_name fees_configuration_for_current_chain
  end.

(** The loop of [get_fees_line] over the account statuses;
    [uncollected] lists the values of the property read from each. *)
Fixpoint fees_line (fee_earned_from_previous_positions previous_fee_uncollected : Q)
    (uncollected : list Q) : list Q :=
  match uncollected with
  | [] => []
  | fee_uncollected :: rest =>
    let fee_earned_from_previous_positions :=
      if Qlt_bool fee_uncollected previous_fee_uncollected
      then fee_earned_from_previous_positions + previous_fee_uncollected
      else fee_earned_from_previous_positions in
    (fee_earned_from_previous_positions + fee_uncollected)
      :: fees_line fee_earned_from_previous_positions fee_uncollected rest
  end.

(** [get_fees_line(property_name)] *)
Definition get_fees_line (uncollected : list Q) : list Q := fees_line 0 0 uncollected.

(** [price_series[from_timestamp:now]] on the time-sorted price feed: the
    label slice keeps both ends. *)
Definition prices_between (price_series : list (Z * Q)) (from_timestamp now : Z) : list Q :=
  snd <$> List.filter (fun p => (from_timestamp <=? fst p)%Z && (fst p <=? now)%Z)
            price_series.

(** The loop of [get_average_max_daily_price_change] over
    [range(1, last_days_count + 1)]. *)
Fixpoint daily_price_moves (price_series : list (Z * Q)) (current_timestamp : Z)
    (days : list Z) : result (list Q) :=
  match days with
  | [] => Ok []
  | i :: days =>
    let timestamp_to_consider := (current_timestamp - (i - 1) * 86400)%Z in
    price_change_in_percentage ←
      get_max_price_change_in_past_period
        (prices_between price_series (timestamp_to_consider - 86400)%Z timestamp_to_consider);
    price_moves ← daily_price_moves price_series current_timestamp days;
    Ok (price_change_in_percentage :: price_moves)
  end.

(** [statistics.mean]; its [StatisticsError] on no data is a [ValueError]. *)
Definition mean (data : list Q) : result Q :=
  match data with
  | [] => Raise ValueError
  | _ => Ok (fold_right Qplus 0 data / inject_Z (Z.of_nat (length data)))
  end.

(** [get_average_max_daily_price_change(last_days_count, current_timestamp)] *)
Definition get_average_max_daily_price_change (price_series : list (Z * Q))
    (last_days_count current_timestamp : Z) : result Q :=
  price_moves ← daily_price_moves price_series current_timestamp (seqZ 1 last_days_count);
  mean price_moves.

End Primitives.
End Base.

(** One step of the runner's bar loop, as a strategy sees it: the simulator
    state in which [on_bar] is called and the account statuses recorded so
    far (empty on the first bar). *)
Record Bar (M : Type) : Type := mkBar {
  bar_market : M;
  bar_account_status : list AccountStatus
}.
Arguments mkBar {M}.
Arguments bar_market {M}.
Arguments bar_account_status {M}.

(** [self.account_status[-1].timestamp], when there is one. *)
Definition bar_timestamp {M : Type} (bar : Bar M) : option Z :=
  as_timestamp <$> last (bar_account_status bar).

(** ** strategies/brokkr_strategy_B.py and brokkr_strategy_C.py *)

Module Ladder.
#[local] Open Scope Z_scope.

(** Strategy C is strategy B with the cooldown gate and the hook that
    records the last opening. *)
Inductive Variant : Type :=
| StrategyB
| StrategyC (min_time_between_rebalances_in_minutes : Z).

(** The constructor arguments. *)
Record Config : Type := mkConfig {
  ranges : list Q;
  max_rebalances : list Z;
  variant : Variant
}.

(** The fields the two classes add to [BrokkrStrategy]. *)
Record Fields : Type := mkFields {
  day_to_rebalance_count : gmap (Z * Z) Z;
  max_range_active_since : Z;
  last_successful_rebalance : Z
}.

(** The class-level defaults: [{}], [Timestamp(0)], [Timestamp(0)]. *)
Definition Fields_init : Fields := mkFields ∅ 0 0.

Definition set_day_to_rebalance_count (f : Fields) (d : gmap (Z * Z) Z) : Fields :=
  mkFields d (max_range_active_since f) (last_successful_rebalance f).

Definition set_max_range_active_since (f : Fields) (t : Z) : Fields :=
  mkFields (day_to_rebalance_count f) t (last_successful_rebalance f).

Definition set_last_successful_rebalance (f : Fields) (t : Z) : Fields :=
  mkFields (day_to_rebalance_count f) (max_range_active_since f) t.

(** What [BrokkrStrategyC.on_successful_position_opened] adds to the base
    hook; strategy B does not override it. *)
Definition opened_hook (c : Config) (timestamp : Z) (range_min range_max : Q)
    (rebalance_direction : option RebalanceDirection) (f : Fields) : Fields :=
  match variant c with
  | StrategyB => f
  | StrategyC _ => set_last_successful_rebalance f timestamp
  end.

(** The sum of the configured per-tier caps. *)
Definition max_rebalances_total (c : Config) : Z := foldr Z.add 0 (max_rebalances c).

(** Timestamps in non-decreasing order. *)
Fixpoint nondecreasing (ts : list Z) : Prop :=
  match ts with
  | t1 :: (t2 :: _) as rest => t1 <= t2 /\ nondecreasing rest
  | _ => True
  end.

Section Policy.
Context {M : Type} `{Market M}.
Variable c : Config.

Abbreviation State := (Base.Strategy M Fields).

Definition rebalance_and_add_symmetric_liquidity (range : Q) (st : State) : result State :=
  '(st, _) ← Base.rebalance_and_add_symmetric_liquidity (opened_hook c) range None st;
  Ok st.

(** [initialize_custom] *)
Definition initialize_custom (st : State) : result State :=
  match ranges c !! 0%nat with
  | None => Raise IndexError
  | Some range => rebalance_and_add_symmetric_liquidity range st
  end.

(** [BrokkrStrategyC.is_older_than(historical_timestamp, current_timestamp, minutes)] *)
Definition is_older_than (historical_timestamp current_timestamp minutes : Z) : bool :=
  let duration := minutes * 60 in
  let time_difference := current_timestamp - historical_timestamp in
  duration <=? time_difference.

(** [can_rebalance]: constantly true in B, the cooldown test in C. *)
Definition can_rebalance (account_status : list AccountStatus) (st : State) : result bool :=
  match variant c with
  | StrategyB => Ok true
  | StrategyC min_time_between_rebalances_in_minutes =>
    match last account_status with
    | None => Raise IndexError
    | Some s =>
      let current_timestamp := as_timestamp s in
      Ok (is_older_than (last_successful_rebalance (Base.custom st)) current_timestamp
            min_time_between_rebalances_in_minutes)
    end
  end.

(** The loop of [on_rebalance_needed] that walks the cumulative tier
    boundaries; [-1] when no tier has budget left. *)
Fixpoint range_for_rebalance (rs : list Q) (i : nat) (max_rebalances_sum rebalanced_count : Z)
    : result Q :=
  match rs with
  | [] => Ok (-1)%Q
  | range :: rs =>
    match max_rebalances c !! i with
    | None => Raise IndexError
    | Some max_rebalances_for_this_range =>
      let max_rebalances_sum := max_rebalances_sum + max_rebalances_for_this_range in
      if rebalanced_count <? max_rebalances_sum then Ok range
      else range_for_rebalance rs (S i) max_rebalances_sum rebalanced_count
    end
  end.

(** [dict.setdefault(key, 0)] *)
Definition setdefault (d : gmap (Z * Z) Z) (key : Z * Z) : gmap (Z * Z) Z * Z :=
  match d !! key with
  | Some v => (d, v)
  | None => (<[key := 0]> d, 0)
  end.

(** [on_rebalance_needed(timestamp)] *)
Definition on_rebalance_needed (timestamp : Z) (st : State) : result State :=
  let key := Utils.timestamp_to_key timestamp in
  let '(d, rebalanced_count) := setdefault (day_to_rebalance_count (Base.custom st)) key in
  let st := Base.set_custom st (set_day_to_rebalance_count (Base.custom st) d) in
  range ← range_for_rebalance (ranges c) 0 0 rebalanced_count;
  if Qlt_bool range 0 then Ok st
  else
    st ← rebalance_and_add_symmetric_liquidity range st;
    widest ← match last (ranges c) with
             | None => Raise IndexError
             | Some r => Ok r
             end;
    let f := Base.custom st in
    let f := if Qeq_bool range widest then set_max_range_active_since f timestamp
             else set_max_range_active_since f 0 in
    let f := set_day_to_rebalance_count f
               (<[key := rebalanced_count + 1]> (day_to_rebalance_count f)) in
    Ok (Base.set_custom st f).

(** [handle_current_timestamp] *)
Definition handle_current_timestamp (account_status : list AccountStatus) (st : State)
    : result State :=
  match last account_status with
  | None => Raise IndexError
  | Some s =>
    let current_timestamp := as_timestamp s in
    let since := max_range_active_since (Base.custom st) in
    let widest_range_active_since_1d :=
      (0 <? since) && Utils.is_one_day_or_older since current_timestamp in
    if widest_range_active_since_1d then
      range ← match ranges c !! 0%nat with
              | None => Raise IndexError
              | Some r => Ok r
              end;
      st ← rebalance_and_add_symmetric_liquidity range st;
      let key := Utils.timestamp_to_key current_timestamp in
      let f := set_max_range_active_since (Base.custom st) 0 in
      let f := set_day_to_rebalance_count f (<[key := 0]> (day_to_rebalance_count f)) in
      Ok (Base.set_custom st f)
    else
      out ← Base.is_out_of_range account_status;
      if out : bool then on_rebalance_needed current_timestamp st else Ok st
  end.

(** [on_bar_custom(row_data)] *)
Definition on_bar_custom (account_status : list AccountStatus) (st : State) : result State :=
  match account_status with
  | [] => Ok st
  | _ =>
    can ← can_rebalance account_status st;
    if can : bool then handle_current_timestamp account_status st else Ok st
  end.

(** The runner sets the market status of the bar and calls [on_bar]. *)
Definition on_bar (bar : Bar M) (st : State) : result State :=
  on_bar_custom (bar_account_status bar) (Base.set_market st (bar_market bar)).

(** The rebalances a bar performed: the growth of [stats.rebalances_count]. *)
Definition rebalances_done (before after : State) : Z :=
  rebalances_count (Base.stats after) - rebalances_count (Base.stats before).

(** The number of rebalances performed on the bars of calendar day [day]
    (a key of [timestamp_to_key]) over a run of the bar loop. *)
Fixpoint rebalances_on_day (day : Z * Z) (bars : list (Bar M)) (st : State) : result Z :=
  match bars with
  | [] => Ok 0
  | bar :: bars =>
    st' ← on_bar bar st;
    n ← rebalances_on_day day bars st';
    if bool_decide (Utils.timestamp_to_key <$> bar_timestamp bar = Some day)
    then Ok (rebalances_done st st' + n)
    else Ok n
  end.

(** [day_to_rebalance_count.get(key, 0)]: the day's counter as the next
    [setdefault] would read it. *)
Definition rebalanced_count (st : State) (key : Z * Z) : Z :=
  default 0 (day_to_rebalance_count (Base.custom st) !! key).

(** The timestamps the bars of a run present, in order. *)
Definition bar_timestamps (bars : list (Bar M)) : list Z := omap bar_timestamp bars.

(** A run of the bar loop: the state after the last bar. *)
Fixpoint run (bars : list (Bar M)) (st : State) : result State :=
  match bars with
  | [] => Ok st
  | bar :: bars =>
    st ← on_bar bar st;
    run bars st
  end.

(** What one bar can do to the day's accounting: nothing; the forced
    return to the narrowest tier, a day or more after the widest tier was
    entered, which is not counted and resets the day's counter; or one
    counted ladder rebalance. *)
Inductive bar_effect (ts : Z) (st st' : State) : Prop :=
| bar_idle :
    rebalances_count (Base.stats st') = rebalances_count (Base.stats st) ->
    max_range_active_since (Base.custom st')
    = max_range_active_since (Base.custom st) ->
    (forall k, rebalanced_count st' k = rebalanced_count st k) ->
    bar_effect ts st st'
| bar_forced :
    0 < max_range_active_since (Base.custom st) ->
    max_range_active_since (Base.custom st) + 86400 <= ts ->
    rebalances_count (Base.stats st') = rebalances_count (Base.stats st) + 1 ->
    max_range_active_since (Base.custom st') = 0 ->
    rebalanced_count st' (Utils.timestamp_to_key ts) = 0 ->
    (forall k, k <> Utils.timestamp_to_key ts ->
               rebalanced_count st' k = rebalanced_count st k) ->
    bar_effect ts st st'
| bar_ladder :
    rebalances_count (Base.stats st') = rebalances_count (Base.stats st) + 1 ->
    (max_range_active_since (Base.custom st') = ts
     \/ max_range_active_since (Base.custom st') = 0) ->
    rebalanced_count st (Utils.timestamp_to_key ts) < max_rebalances_total c ->
    rebalanced_count st' (Utils.timestamp_to_key ts)
    = rebalanced_count st (Utils.timestamp_to_key ts) + 1 ->
    (forall k, k <> Utils.timestamp_to_key ts ->
               rebalanced_count st' k = rebalanced_count st k) ->
    bar_effect ts st st'.

(** The accounting invariant for one calendar day [day], after the bars
    processed so far: [lo] is the latest timestamp seen, [done] the number of
    rebalances performed on bars of [day].  The day's counter stays within
    the sum of the caps; [done] exceeds the counter by at most the one
    uncounted forced rebalance; and while the widest-tier mark is set no
    rebalance of [day] is later than the mark. *)
Definition day_invariant (day : Z * Z) (lo done : Z) (st : State) : Prop :=
  0 <= done
  /\ rebalanced_count st day <= max_rebalances_total c
  /\ done <= rebalanced_count st day + 1
  /\ (0 < done ->
      exists t, Utils.timestamp_to_key t = day /\ t <= lo
                /\ (0 < max_range_active_since (Base.custom st) ->
                    t <= max_range_active_since (Base.custom st))).

End Policy.
End Ladder.

(** ** strategies/brokkr_strategy_A.py *)

Module StrategyA.
#[local] Open Scope Z_scope.

(** The constructor arguments. *)
Record Config : Type := mkConfig {
  range_in_percentage : Q;
  max_rebalances_per_day : Z
}.

(** The field the class adds to [BrokkrStrategy]. *)
Record Fields : Type := mkFields {
  day_to_rebalance_count : gmap (Z * Z) Z
}.

Definition Fields_init : Fields := mkFields ∅.

(** The class does not override [on_successful_position_opened]. *)
Definition opened_hook (timestamp : Z) (range_min range_max : Q)
    (direction : option RebalanceDirection) (f : Fields) : Fields := f.

Section Policy.
Context {M : Type} `{Market M}.
Variable c : Config.

Abbreviation State := (Base.Strategy M Fields).

Definition rebalance_and_add_symmetric_liquidity (range : Q) (st : State) : result State :=
  '(st, _) ← Base.rebalance_and_add_symmetric_liquidity opened_hook range None st;
  Ok st.

(** [initialize_custom] *)
Definition initialize_custom (st : State) : result State :=
  rebalance_and_add_symmetric_liquidity (range_in_percentage c) st.

(** [on_bar_custom(row_data)] *)
Definition on_bar_custom (account_status : list AccountStatus) (st : State) : result State :=
  match account_status with
  | [] => Ok st
  | _ =>
    out ← Base.is_out_of_range account_status;
    if out : bool then
      match last account_status with
      | None => Raise IndexError
      | Some current_account_status =>
        let timestamp := as_timestamp current_account_status in
        let key := Utils.timestamp_to_key timestamp in
        let '(d, rebalanced_count) :=
          Ladder.setdefault (day_to_rebalance_count (Base.custom st)) key in
        let st := Base.set_custom st (mkFields d) in
        if max_rebalances_per_day c <=? rebalanced_count then Ok st
        else
          st ← rebalance_and_add_symmetric_liquidity (range_in_percentage c) st;
          Ok (Base.set_custom st
                (mkFields (<[key := rebalanced_count + 1]>
                             (day_to_rebalance_count (Base.custom st)))))
      end
    else Ok st
  end.

(** The runner sets the market status of the bar and calls [on_bar]. *)
Definition on_bar (bar : Bar M) (st : State) : result State :=
  on_bar_custom (bar_account_status bar) (Base.set_market st (bar_market bar)).

(** The number of rebalances performed on the bars of calendar day [day]
    over a run of the bar loop, and the state it ends in. *)
Fixpoint rebalances_on_day (day : Z * Z) (bars : list (Bar M)) (st : State)
    : result (Z * State) :=
  match bars with
  | [] => Ok (0, st)
  | bar :: bars =>
    st' ← on_bar bar st;
    '(n, final) ← rebalances_on_day day bars st';
    let performed := rebalances_count (Base.stats st') - rebalances_count (Base.stats st) in
    if bool_decide (Utils.timestamp_to_key <$> bar_timestamp bar = Some day)
    then Ok (performed + n, final)
    else Ok (n, final)
  end.

End Policy.
End StrategyA.

(** ** strategies/brokkr_strategy_B_with_hodl.py: the price window *)

Module Hodl.



End Hodl.

(** ** strategies/brokkr_strategy_partial_rebalance.py *)

Module Partial.

Record PriceThreshold : Type := mkPriceThreshold {
  index : Z;
  price : Q;
  rebalance_direction : RebalanceDirection
}.

#[global] Instance RebalanceDirection_eq_dec : EqDecision RebalanceDirection.
Proof. solve_decision. Defined.

(** [PriceThreshold.__eq__] against a threshold that is not [None]. *)
Definition PriceThreshold_eq (a b : PriceThreshold) : bool :=
  (index a =? index b)%Z && Qeq_bool (price a) (price b)
  && bool_decide (rebalance_direction a = rebalance_direction b).

Record PartialRebalanceData : Type := mkPartialRebalanceData {
  threshold : PriceThreshold;
  liquidity_withdrawn : Q;
  withdraw_percent_decimal : Q
}.

(** [PartialRebalancePosition]; its [position] field is a reference to the
    simulator's own [Position] object under [position_info], so its
    liquidity is read through [market_liquidity]. *)
Record PartialRebalancePosition : Type := mkPartialRebalancePosition {
  division_price_points_up : list PriceThreshold;
  division_price_points_down : list PriceThreshold;
  init_price : Q;
  last_partial_rebalance : option PartialRebalanceData;
  position_info : PositionInfo
}.

Definition set_last_partial_rebalance (p : PartialRebalancePosition)
    (d : option PartialRebalanceData) : PartialRebalancePosition :=
  mkPartialRebalancePosition (division_price_points_up p) (division_price_points_down p)
    (init_price p) d (position_info p).

(** A Python dict keyed by [PositionInfo]: entries in insertion order. *)
Definition PositionsDict : Type := list (PositionInfo * PartialRebalancePosition).

Definition dict_get (k : PositionInfo) (d : PositionsDict) : option PartialRebalancePosition :=
  snd <$> List.find (fun e => bool_decide (fst e = k)) d.

(** [d[k] = v]: an existing key keeps its place, a new one goes last. *)
Fixpoint dict_set (k : PositionInfo) (v : PartialRebalancePosition) (d : PositionsDict)
    : PositionsDict :=
  match d with
  | [] => [(k, v)]
  | e :: d => if bool_decide (fst e = k) then (k, v) :: d else e :: dict_set k v d
  end.

(** [del d[k]] *)
Definition dict_del (k : PositionInfo) (d : PositionsDict) : result PositionsDict :=
  match dict_get k d with
  | None => Raise KeyError
  | Some _ => Ok (List.filter (fun e => negb (bool_decide (fst e = k))) d)
  end.

(** The fields the class adds to [BrokkrStrategy]. *)
Record Fields : Type := mkFields {
  range_in_percentage : Q;
  division : Z;
  division_threshold_percentage : Q;
  active_partial_rebalance_positions_dict : PositionsDict
}.

Definition set_dict (f : Fields) (d : PositionsDict) : Fields :=
  mkFields (range_in_percentage f) (division f) (division_threshold_percentage f) d.

(** [__init__(range_in_percentage, division)] *)
Definition init (range_in_percentage : Q) (division : Z) : result Fields :=
  division_threshold_percentage ← Decimal.div range_in_percentage (inject_Z division);
  Ok (mkFields range_in_percentage division division_threshold_percentage []).

(** [int(x)] of a decimal: truncation toward zero. *)
Definition py_int (x : Q) : Z := Z.quot (Qnum x) (Zpos (Qden x)).

(** The class does not override [on_successful_position_opened]. *)
Definition opened_hook (timestamp : Z) (range_min range_max : Q)
    (direction : option RebalanceDirection) (f : Fields) : Fields := f.

(** The generator of [get_surpassed_threshold] for an upward move: the first
    threshold at or below the price whose successor, if any, is above it. *)
Fixpoint next_surpassed_up (price_now : Q) (points : list PriceThreshold)
    : result PriceThreshold :=
  match points with
  | [] => Raise StopIteration
  | threshold :: rest =>
    if Qge_bool price_now (price threshold)
       && match rest with
          | [] => true
          | next :: _ => Qlt_bool price_now (price next)
          end
    then Ok threshold
    else next_surpassed_up price_now rest
  end.

Fixpoint next_surpassed_down (price_now : Q) (points : list PriceThreshold)
    : result PriceThreshold :=
  match points with
  | [] => Raise StopIteration
  | threshold :: rest =>
    if Qle_bool price_now (price threshold)
       && match rest with
          | [] => true
          | next :: _ => Qgt_bool price_now (price next)
          end
    then Ok threshold
    else next_surpassed_down price_now rest
  end.

(** [get_surpassed_threshold(price, division_price_points_up,
    division_price_points_down)] *)
Definition get_surpassed_threshold (price_now : Q)
    (division_price_points_up division_price_points_down : list PriceThreshold)
    : result (option PriceThreshold) :=
  match division_price_points_up with
  | [] => Raise IndexError
  | first_up :: _ =>
    if Qge_bool price_now (price first_up) then
      Some <$> next_surpassed_up price_now division_price_points_up
    else
      match division_price_points_down with
      | [] => Raise IndexError
      | first_down :: _ =>
        if Qle_bool price_now (price first_down) then
          Some <$> next_surpassed_down price_now division_price_points_down
        else Ok None
      end
  end.

(** [ONE + division * (PERCENT_TO_DECIMAL * division_threshold_percentage)],
    which the loop evaluates once for each of the two thresholds. *)
Definition threshold_factor (division : Z) (division_threshold_percentage : Q) : result Q :=
  step ← Decimal.mul PERCENT_TO_DECIMAL division_threshold_percentage;
  span ← Decimal.mul (inject_Z division) step;
  Decimal.add ONE span.

(** The loop of [calculate_division_price_points] over
    [range(1, divisions + 1)]. *)
Fixpoint division_price_points (price_now : Q) (division_threshold_percentage : Q)
    (divisions : list Z) : result (list PriceThreshold * list PriceThreshold) :=
  match divisions with
  | [] => Ok ([], [])
  | division :: divisions =>
    factor ← threshold_factor division division_threshold_percentage;
    up_price ← Decimal.mul price_now factor;
    let up := mkPriceThreshold (division - 1) up_price UP in
    factor ← threshold_factor division division_threshold_percentage;
    down_price ← Decimal.div price_now factor;
    let down := mkPriceThreshold (division - 1) down_price DOWN in
    '(ups, downs) ← division_price_points price_now division_threshold_percentage divisions;
    Ok (up :: ups, down :: downs)
  end.

(** [calculate_division_price_points(price, divisions, division_threshold_percentage)] *)
Definition calculate_division_price_points (price_now : Q) (divisions : Z)
    (division_threshold_percentage : Q)
    : result (list PriceThreshold * list PriceThreshold) :=
  division_price_points price_now division_threshold_percentage (seqZ 1 divisions).

Section Policy.
Context {M : Type} `{Market M}.

Abbreviation State := (Base.Strategy M Fields).

Definition dict_of (st : State) : PositionsDict :=
  active_partial_rebalance_positions_dict (Base.custom st).

Definition set_dict_of (st : State) (d : PositionsDict) : State :=
  Base.set_custom st (set_dict (Base.custom st) d).

(** [calculate_withdraw_percent_decimal(threshold_index)] *)
Definition calculate_withdraw_percent_decimal (threshold_index : Z) (st : State) : result Q :=
  numerator ← Decimal.add ONE (inject_Z threshold_index);
  Decimal.div numerator (inject_Z (division (Base.custom st))).

(** [withdraw(market, position_info, liquidity_withdraw_amount, full_withdrawal)] *)
Definition withdraw (position_info : PositionInfo) (liquidity_withdraw_amount : Z)
    (full_withdrawal : bool) (st : State) : result State :=
  st ← Base.remove_liquidity position_info
         (if full_withdrawal then None else Some liquidity_withdraw_amount) st;
  if full_withdrawal then
    d ← dict_del position_info (dict_of st);
    Ok (set_dict_of st d)
  else Ok st.

(** [create_new_symmetric_position(init_price)] *)
Definition create_new_symmetric_position (init_price : Q) (st : State) : result State :=
  '(st, opened) ←
    Base.rebalance_and_add_symmetric_liquidity opened_hook
      (range_in_percentage (Base.custom st)) None st;
  let position_info := opened.1.1.1 in
  '(division_price_points_up, division_price_points_down) ←
    calculate_division_price_points init_price (division (Base.custom st))
      (division_threshold_percentage (Base.custom st));
  Ok (set_dict_of st
        (dict_set position_info
           (mkPartialRebalancePosition division_price_points_up division_price_points_down
              init_price None position_info)
           (dict_of st))).

(** [initialize_custom] *)
Definition initialize_custom (st : State) : result State :=
  create_new_symmetric_position (Base.get_current_default_quote_token_market_price st) st.

(** The loop [for position_info in list(dict): self.withdraw(market,
    position_info, -1, True)] of [collapse_positions_into_single]. *)
Fixpoint withdraw_each (keys : list PositionInfo) (st : State) : result State :=
  match keys with
  | [] => Ok st
  | position_info :: keys =>
    st ← withdraw position_info (-1) true st;
    withdraw_each keys st
  end.

(** [collapse_positions_into_single] *)
Definition collapse_positions_into_single (st : State) : result State :=
  st ← withdraw_each (fst <$> dict_of st) st;
  create_new_symmetric_position (Base.get_current_default_quote_token_market_price st) st.

(** [partial_rebalance_liquidity(partial_rebalance_position, price_threshold,
    position_info)].  The assignment to
    [partial_rebalance_position.last_partial_rebalance] writes the object the
    dict holds under [position_info], when the withdrawal left it there. *)
Definition partial_rebalance_liquidity (partial_rebalance_position : PartialRebalancePosition)
    (price_threshold : PriceThreshold) (position_info : PositionInfo) (st : State)
    : result State :=
  let current_price := Base.get_current_default_quote_token_market_price st in
  let liquidity := market_liquidity (Base.market st) position_info in
  withdraw_percent_decimal ← calculate_withdraw_percent_decimal (index price_threshold) st;
  liquidity_withdraw_amount ← Decimal.mul (inject_Z liquidity) withdraw_percent_decimal;
  st ← withdraw position_info (py_int liquidity_withdraw_amount)
         (Qeq_bool withdraw_percent_decimal ONE) st;
  let data := mkPartialRebalanceData price_threshold liquidity_withdraw_amount
                withdraw_percent_decimal in
  let st :=
    match dict_get position_info (dict_of st) with
    | Some _ =>
      set_dict_of st
        (dict_set position_info
           (set_last_partial_rebalance partial_rebalance_position (Some data)) (dict_of st))
    | None => st
    end in
  st ← Base.symmetrical_rebalance
         (Base.get_current_default_quote_token_market_price st) st;
  '(st, opened) ←
    Base.add_liquidity opened_hook (range_in_percentage (Base.custom st))
      None None None None st;
  let new_position_info := opened.1.1.1 in
  '(division_price_points_up, division_price_points_down) ←
    calculate_division_price_points current_price (division (Base.custom st))
      (division_threshold_percentage (Base.custom st));
  Ok (set_dict_of st
        (dict_set new_position_info
           (mkPartialRebalancePosition division_price_points_up division_price_points_down
              current_price None new_position_info)
           (dict_of st))).

(** Whether a surpassed threshold triggers an action: it exists and differs
    from the threshold of the position's last partial rebalance. *)
Definition is_new_threshold (price_threshold : option PriceThreshold)
    (last : option PartialRebalanceData) : option PriceThreshold :=
  match price_threshold with
  | None => None
  | Some t =>
    match last with
    | None => Some t
    | Some data => if negb (PriceThreshold_eq (threshold data) t) then Some t else None
    end
  end.

(** The loop of [process_active_positions] over the snapshot
    [list(self.active_partial_rebalance_positions_dict)]. *)
Fixpoint process_each (keys : list PositionInfo) (current_price : Q) (st : State)
    : result State :=
  match keys with
  | [] => Ok st
  | position_info :: keys =>
    match dict_get position_info (dict_of st) with
    | None => Raise KeyError
    | Some partial_rebalance_position =>
      price_threshold ←
        get_surpassed_threshold current_price
          (division_price_points_up partial_rebalance_position)
          (division_price_points_down partial_rebalance_position);
      match is_new_threshold price_threshold
              (last_partial_rebalance partial_rebalance_position) with
      | Some price_threshold =>
        if (Z.of_nat (length (dict_of st)) =? division (Base.custom st))%Z
        then collapse_positions_into_single st
        else
          st ← partial_rebalance_liquidity partial_rebalance_position price_threshold
                 position_info st;
          process_each keys current_price st
      | None => Ok st
      end
    end
  end.

(** [process_active_positions(current_price)] *)
Definition process_active_positions (current_price : Q) (st : State) : result State :=
  process_each (fst <$> dict_of st) current_price st.

(** [on_bar_custom(row_data)] *)
Definition on_bar_custom (account_status : list AccountStatus) (st : State) : result State :=
  match account_status with
  | [] => Ok st
  | _ => process_active_positions (Base.get_current_default_quote_token_market_price st) st
  end.

(** The runner sets the market status of the bar and calls [on_bar]. *)
Definition on_bar (bar : Bar M) (st : State) : result State :=
  on_bar_custom (bar_account_status bar) (Base.set_market st (bar_market bar)).

(** A run of the bar loop; the states after each bar. *)
Fixpoint run (bars : list (Bar M)) (st : State) : result (list State) :=
  match bars with
  | [] => Ok []
  | bar :: bars =>
    st ← on_bar bar st;
    sts ← run bars st;
    Ok (st :: sts)
  end.


End Policy.
End Partial.

(** ** Notions used to state the fee properties *)

(** The other token of the pool. *)
Definition other_token (t : Token) : Token :=
  match t with BaseToken => QuoteToken | QuoteToken => BaseToken end.

(** A shortfall of the fee token converted into the other token at the
    current price: divided by the price when the fee token is the base token
    (quote is substituted), multiplied by it when it is the quote token. *)
Definition converted_shortfall (fee_token : Token) (shortfall price : Q) : Q :=
  match fee_token with
  | BaseToken => shortfall / price
  | QuoteToken => shortfall * price
  end.

(** An amount of the fee token expressed in base units. *)
Definition in_base_units (fee_token : Token) (amount price : Q) : Q :=
  match fee_token with
  | BaseToken => amount
  | QuoteToken => amount * price
  end.

(** The value of both balances together, expressed in the fee token. *)
Definition combined_in_fee_token (fee_token : Token) (b : Broker) (price : Q) : Q :=
  match fee_token with
  | BaseToken => base_balance b + quote_balance b * price
  | QuoteToken => quote_balance b + base_balance b / price
  end.

(** ** A small pool double for concrete runs *)

Module Sim.

(** Price and timestamp of the current bar, and the open positions with
    their liquidity, in opening order. *)
Record Pool : Type := mkPool {
  pool_price : Q;
  pool_timestamp : Z;
  pool_positions : list (PositionInfo * Z)
}.

Definition pool_liquidity (m : Pool) (p : PositionInfo) : Z :=
  default 0%Z (snd <$> List.find (fun e => bool_decide (fst e = p)) (pool_positions m)).

Definition pool_without (m : Pool) (p : PositionInfo) : Pool :=
  mkPool (pool_price m) (pool_timestamp m)
    (List.filter (fun e => negb (bool_decide (fst e = p))) (pool_positions m)).

(** Splits the capital evenly at the given price. *)
Definition pool_even_rebalance (p : Q) (mb : Pool * Broker) : Pool * Broker :=
  let total := base_balance (snd mb) + quote_balance (snd mb) * p in
  (fst mb, mkBroker (Qred (total / 2)) (Qred (total / 2 / p))).

(** Mints a position over the ticks around the bounds with all the funds
    offered. *)
Definition pool_add_liquidity (lower upper : Q) (base_max quote_max : option Q)
    (mb : Pool * Broker) : (PositionInfo * Q * Q * Z) * (Pool * Broker) :=
  let key := (Qfloor lower, Qceiling upper) in
  let base_used := default (base_balance (snd mb)) base_max in
  let quote_used := default (quote_balance (snd mb)) quote_max in
  let m := pool_without (fst mb) key in
  ((key, base_used, quote_used, 1000%Z),
   (mkPool (pool_price m) (pool_timestamp m) (pool_positions m ++ [(key, 1000%Z)]),
    mkBroker (Qred (base_balance (snd mb) - base_used))
             (Qred (quote_balance (snd mb) - quote_used)))).

(** Burns the liquidity asked for ([None]: all of it). *)
Definition pool_remove_liquidity (p : PositionInfo) (liquidity : option Z)
    (mb : Pool * Broker) : (Q * Q) * (Pool * Broker) :=
  match liquidity with
  | None => ((0, 0), (pool_without (fst mb) p, snd mb))
  | Some l =>
    let m := fst mb in
    let rest := (pool_liquidity m p - l)%Z in
    ((0, 0),
     (mkPool (pool_price m) (pool_timestamp m)
        ((fun e => if bool_decide (fst e = p) then (p, rest) else e) <$> pool_positions m),
      snd mb))
  end.

#[global] Instance Pool_market : Market Pool := {
  market_price := pool_price;
  market_timestamp := pool_timestamp;
  market_positions m := fst <$> pool_positions m;
  market_liquidity := pool_liquidity;
  market_tick_to_price _ t := inject_Z t;
  market_even_rebalance := pool_even_rebalance;
  market_buy _ mb := mb;
  market_sell _ mb := mb;
  market_add_liquidity := pool_add_liquidity;
  market_remove_liquidity := pool_remove_liquidity;
  market_set_range _ _ m := m
}.

(** A strategy instance over the double. *)
Definition strategy {S : Type} (price : Q) (timestamp : Z) (base quote : Q)
    (fees : option FeesConfiguration) (custom : S) : Base.Strategy Pool S :=
  Base.mkStrategy OperationsStats_init (mkBroker base quote)
    (mkPool price timestamp []) fees 0 0 0 0 custom.

End Sim.

(** ** Concrete runs over the pool double *)

Module Scenario.

(** An account status with nothing left on the quote side of the position:
    [is_out_of_range] holds. *)
Definition out_of_range (t : Z) : AccountStatus := mkAccountStatus t 100 0.

Definition in_range (t : Z) : AccountStatus := mkAccountStatus t 50 50.

(** Strategy B with tiers 2% and 5%, one rebalance each: the caps sum to 2. *)
Definition ladder_b : Ladder.Config := Ladder.mkConfig [2; 5] [1; 1]%Z Ladder.StrategyB.

Definition ladder_b_start : Base.Strategy Sim.Pool Ladder.Fields :=
  match Ladder.initialize_custom ladder_b
          (Sim.strategy 100 0 1000 0 None Ladder.Fields_init) with
  | Ok st => st
  | Raise _ => Sim.strategy 100 0 1000 0 None Ladder.Fields_init
  end.

(** Five one-minute bars.  The statuses recorded so far end at 00:01 and
    00:02 of 1970-01-01, where the price has left the position (the second
    rebalance enters the widest tier), and at 00:02, 00:03 and 00:04 of
    1970-01-02: a day after the widest tier was entered, and twice more out
    of range. *)
Definition ladder_b_bars : list (Bar Sim.Pool) :=
  [ mkBar (Sim.mkPool 103 120 [((98, 102), 1000)]%Z)
      [out_of_range 60];
    mkBar (Sim.mkPool 106 180 [((100, 106), 1000)]%Z)
      [out_of_range 60; out_of_range 120];
    mkBar (Sim.mkPool 106 86580 [((100, 112), 1000)]%Z)
      [out_of_range 60; out_of_range 120; in_range 86520];
    mkBar (Sim.mkPool 110 86640 [((103, 109), 1000)]%Z)
      [out_of_range 60; out_of_range 120; in_range 86520; out_of_range 86580];
    mkBar (Sim.mkPool 120 86700 [((107, 113), 1000)]%Z)
      [out_of_range 60; out_of_range 120; in_range 86520; out_of_range 86580;
       out_of_range 86640] ].

(** Strategy C with a cooldown of 60 minutes, initialised at 00:10. *)
Definition ladder_c : Ladder.Config :=
  Ladder.mkConfig [2; 5] [3; 2]%Z (Ladder.StrategyC 60).

Definition ladder_c_start : Base.Strategy Sim.Pool Ladder.Fields :=
  match Ladder.initialize_custom ladder_c
          (Sim.strategy 100 600 1000 0 None Ladder.Fields_init) with
  | Ok st => st
  | Raise _ => Sim.strategy 100 600 1000 0 None Ladder.Fields_init
  end.

(** The bar of 00:40, out of range since 00:39. *)
Definition ladder_c_bar : Bar Sim.Pool :=
  mkBar (Sim.mkPool 103 2400 [((98, 102), 1000)]%Z) [out_of_range 2340].

(** That bar, then the bars of 01:11 and 01:12: the cooldown has passed at
    the first of them and has started again at the second. *)
Definition ladder_c_bars : list (Bar Sim.Pool) :=
  [ ladder_c_bar;
    mkBar (Sim.mkPool 103 4260 [((98, 102), 1000)]%Z)
      [out_of_range 2340; out_of_range 4200];
    mkBar (Sim.mkPool 106 4320 [((101, 105), 1000)]%Z)
      [out_of_range 2340; out_of_range 4200; out_of_range 4260] ].

(** The partial-rebalance policy with a 10% range in 2 divisions, opened at
    price 100: thresholds at 105 and 110 above, 100/1.05 and 100/1.10 below. *)
Definition partial_start : Base.Strategy Sim.Pool Partial.Fields :=
  let fields :=
    match Partial.init 10 2 with
    | Ok f => f
    | Raise _ => Partial.mkFields 10 2 5 []
    end in
  match Partial.initialize_custom (Sim.strategy 100 0 1000 0 None fields) with
  | Ok st => st
  | Raise _ => Sim.strategy 100 0 1000 0 None fields
  end.




(** Strategy A with a 2% range and at most two rebalances a day. *)
Definition strategy_a : StrategyA.Config := StrategyA.mkConfig 2 2.

Definition strategy_a_start : Base.Strategy Sim.Pool StrategyA.Fields :=
  match StrategyA.initialize_custom strategy_a
          (Sim.strategy 100 0 1000 0 None StrategyA.Fields_init) with
  | Ok st => st
  | Raise _ => Sim.strategy 100 0 1000 0 None StrategyA.Fields_init
  end.

(** Four one-minute bars of 1970-01-01, the price out of the position on the
    first, the second and the fourth. *)
Definition strategy_a_bars : list (Bar Sim.Pool) :=
  [ mkBar (Sim.mkPool 103 120 [((98, 102), 1000)]%Z)
      [out_of_range 60];
    mkBar (Sim.mkPool 106 180 [((100, 106), 1000)]%Z)
      [out_of_range 60; out_of_range 120];
    mkBar (Sim.mkPool 106 240 [((103, 109), 1000)]%Z)
      [out_of_range 60; out_of_range 120; in_range 180];
    mkBar (Sim.mkPool 112 300 [((103, 109), 1000)]%Z)
      [out_of_range 60; out_of_range 120; in_range 180; out_of_range 240] ].

End Scenario.

(** * Properties *)

(** ** Arithmetic helpers *)


Lemma Qeq_le (x y : Q) : x == y -> x <= y.
Proof. intros E. rewrite E. apply Qle_refl. Qed.

Lemma pdiv_ok (x y : Q) : ~ y == 0 -> pdiv x y = Ok (x / y).
Proof.
  intros Hy. unfold pdiv. destruct (Qeq_bool y 0) eqn:E; [|reflexivity].
  apply Qeq_bool_iff in E. contradiction.
Qed.

Lemma Qge_bool_true (x y : Q) : Qge_bool x y = true <-> y <= x.
Proof. unfold Qge_bool. apply Qle_bool_iff. Qed.

Lemma Qge_bool_false (x y : Q) : Qge_bool x y = false <-> x < y.
Proof.
  unfold Qge_bool. split; intros E.
  - apply Qnot_le_lt. intros Hle. apply Qle_bool_iff in Hle. congruence.
  - destruct (Qle_bool y x) eqn:E'; [|reflexivity].
    apply Qle_bool_iff in E'. lra.
Qed.

Lemma Qlt_bool_true (x y : Q) : Qlt_bool x y = true <-> x < y.
Proof.
  unfold Qlt_bool. rewrite negb_true_iff. apply (Qge_bool_false x y).
Qed.

Lemma Qlt_bool_false (x y : Q) : Qlt_bool x y = false <-> y <= x.
Proof.
  unfold Qlt_bool. rewrite negb_false_iff. apply Qle_bool_iff.
Qed.

Lemma Qgt_bool_true (x y : Q) : Qgt_bool x y = true <-> y < x.
Proof.
  unfold Qgt_bool. rewrite negb_true_iff. apply (Qge_bool_false y x).
Qed.

Lemma Qgt_bool_false (x y : Q) : Qgt_bool x y = false <-> x <= y.
Proof.
  unfold Qgt_bool. rewrite negb_false_iff. apply Qle_bool_iff.
Qed.

(** Discharges the first hypothesis of [H] with the tactic [tac]. *)
Tactic Notation "feed" hyp(H) "by" tactic3(tac) :=
  match type of H with
  | ?A -> _ => let HA := fresh in assert (HA : A) by tac; specialize (H HA); clear HA
  end.

Lemma bind_Ok {A B : Type} (a : A) (k : A -> result B) : Ok a ≫= k = k a.
Proof. reflexivity. Qed.

(** ** The decimal context *)

Section DecimalFacts.
Import Decimal.

Lemma digits_upto_spec (fuel : nat) : forall n : Z,
  (1 <= n < 10 ^ (Z.of_nat fuel + 1))%Z ->
  (1 <= digits_upto fuel n /\
   10 ^ (digits_upto fuel n - 1) <= n < 10 ^ digits_upto fuel n)%Z.
Proof.
  induction fuel as [|fuel IH]; intros n [H1 H2].
  - simpl in *. lia.
  - cbn [digits_upto]. destruct (Z.ltb_spec n 10) as [Hlt|Hge].
    + simpl. lia.
    + assert (Hpow : (10 ^ (Z.of_nat (S fuel) + 1) = 10 * 10 ^ (Z.of_nat fuel + 1))%Z).
      { rewrite Nat2Z.inj_succ.
        replace (Z.succ (Z.of_nat fuel) + 1)%Z with (Z.succ (Z.of_nat fuel + 1)) by lia.
        apply Z.pow_succ_r. lia. }
      assert (Hq : (1 <= n / 10 < 10 ^ (Z.of_nat fuel + 1))%Z).
      { split.
        - apply Z.div_le_lower_bound; lia.
        - apply Z.div_lt_upper_bound; lia. }
      destruct (IH _ Hq) as (Hd & Hlo & Hhi).
      set (d := digits_upto fuel (n / 10)) in *.
      assert (Hn := Z.div_mod n 10 ltac:(lia)).
      assert (Hm := Z.mod_pos_bound n 10 ltac:(lia)).
      replace (1 + d - 1)%Z with (Z.succ (d - 1)) by lia.
      replace (1 + d)%Z with (Z.succ d) by lia.
      rewrite !Z.pow_succ_r by lia. lia.
Qed.

Lemma digits_spec (n : Z) :
  (1 <= n)%Z ->
  (1 <= digits n /\ 10 ^ (digits n - 1) <= n < 10 ^ digits n)%Z.
Proof.
  intros Hn. unfold digits. apply digits_upto_spec. split; [exact Hn|].
  rewrite Z2Nat.id by apply Z.log2_nonneg.
  destruct (Z.log2_spec n ltac:(lia)) as [_ Hlt].
  eapply Z.lt_le_trans; [exact Hlt|].
  replace (Z.succ (Z.log2 n)) with (Z.log2 n + 1)%Z by lia.
  apply Z.pow_le_mono_l. lia.
Qed.

Lemma pow10_pos (e : Z) : 0 < pow10 e.
Proof. apply Qpower_0_lt. reflexivity. Qed.


Lemma pow10_add (a b : Z) : pow10 (a + b) == pow10 a * pow10 b.
Proof. apply Qpower_plus. discriminate. Qed.

Lemma pow10_sub (a b : Z) : pow10 (a - b) == pow10 a / pow10 b.
Proof. apply Qpower_minus. discriminate. Qed.

Lemma pow10_le (a b : Z) : (a <= b)%Z -> pow10 a <= pow10 b.
Proof. intros H. apply Qpower_le_compat_l; [exact H | discriminate]. Qed.

Lemma pow10_lt (a b : Z) : (a < b)%Z -> pow10 a < pow10 b.
Proof. intros H. apply Qpower_lt_compat_l; [exact H | reflexivity]. Qed.

Lemma pow10_lt_inv (a b : Z) : pow10 a < pow10 b -> (a < b)%Z.
Proof. intros H. eapply Qpower_lt_compat_l_inv; [exact H | reflexivity]. Qed.

Lemma pow10_inject (k : Z) : (0 <= k)%Z -> inject_Z (10 ^ k) == pow10 k.
Proof. intros H. unfold pow10. rewrite Zpower_Qpower by exact H. reflexivity. Qed.


Lemma adjusted_spec (x : Q) :
  0 < x -> pow10 (adjusted x) <= x /\ x < pow10 (adjusted x + 1).
Proof.
  intros Hx. destruct x as [a b].
  assert (Ha : (1 <= a)%Z).
  { unfold Qlt in Hx. simpl in Hx. lia. }
  destruct (digits_spec a Ha) as (Hda & Halo & Hahi).
  destruct (digits_spec (Z.pos b) ltac:(lia)) as (Hdb & Hblo & Hbhi).
  unfold adjusted. cbn [Qnum Qden].
  set (da := digits a) in *. set (db := digits (Z.pos b)) in *.
  assert (Hab : (a # b) * inject_Z (Z.pos b) == inject_Z a).
  { unfold Qeq, Qmult, inject_Z. simpl. lia. }
  assert (Hbpos : 0 < inject_Z (Z.pos b)) by (unfold Qlt; simpl; lia).
  assert (Hlow : pow10 (da - db - 1) <= a # b).
  { replace (da - db - 1)%Z with ((da - 1) - db)%Z by lia. rewrite pow10_sub.
    apply Qle_shift_div_r; [apply pow10_pos|].
    rewrite <- pow10_inject by lia.
    apply Qle_trans with (inject_Z a).
    - rewrite <- Zle_Qle. lia.
    - rewrite <- Hab. apply Qmult_le_l; [exact Hx|].
      rewrite <- pow10_inject by lia. rewrite <- Zle_Qle. lia. }
  assert (Hhigh : a # b < pow10 (da - db + 1)).
  { replace (da - db + 1)%Z with (da - (db - 1))%Z by lia. rewrite pow10_sub.
    apply Qlt_shift_div_l; [apply pow10_pos|].
    apply Qle_lt_trans with (inject_Z a).
    - rewrite <- Hab. apply Qmult_le_l; [exact Hx|].
      rewrite <- pow10_inject by lia. rewrite <- Zle_Qle. lia.
    - rewrite <- pow10_inject by lia. rewrite <- Zlt_Qlt. lia. }
  destruct (Qle_bool (pow10 (da - db)) (a # b)) eqn:Hcmp.
  - split; [apply Qle_bool_iff; exact Hcmp | exact Hhigh].
  - split; [exact Hlow|].
    replace (da - db - 1 + 1)%Z with (da - db)%Z by lia.
    apply Qnot_le_lt. intros Hle. apply Qle_bool_iff in Hle. congruence.
Qed.




Lemma round_half_even_spec (x : Q) :
  Qabs (inject_Z (round_half_even x) - x) <= 1 # 2.
Proof.
  unfold round_half_even.
  pose proof (Qfloor_le x) as Hlo. pose proof (Qlt_floor x) as Hhi.
  set (n := Qfloor x) in *.
  assert (Hn1 : inject_Z (n + 1) == inject_Z n + 1).
  { rewrite inject_Z_plus. reflexivity. }
  apply Qabs_Qle_condition.
  destruct (x - inject_Z n ?= 1 # 2) eqn:Hc.
  - apply Qeq_alt in Hc. destruct (Z.even n); [|rewrite Hn1]; lra.
  - apply Qlt_alt in Hc. lra.
  - apply Qgt_alt in Hc. rewrite Hn1. lra.
Qed.


Lemma Qabs_pos_nonzero (x : Q) : ~ x == 0 -> 0 < Qabs x.
Proof.
  intros Hx. apply Qabs_case; intros H.
  - apply Qle_lteq in H. destruct H as [H|H]; [exact H|]. symmetry in H. contradiction.
  - apply Qle_lteq in H. destruct H as [H|H]; [lra|contradiction].
Qed.



Lemma quantize_zero (x : Q) : x == 0 -> quantize x = 0.
Proof.
  intros Hx. unfold quantize. apply Qeq_bool_iff in Hx. rewrite Hx. reflexivity.
Qed.

Lemma quantize_nonzero (x : Q) :
  ~ x == 0 ->
  quantize x = inject_Z (round_half_even (x / pow10 (quantum x))) * pow10 (quantum x).
Proof.
  intros Hx. unfold quantize.
  destruct (Qeq_bool x 0) eqn:E; [|reflexivity].
  apply Qeq_bool_iff in E. contradiction.
Qed.

Lemma quantize_error_quantum (x : Q) :
  ~ x == 0 -> Qabs (quantize x - x) <= (1 # 2) * pow10 (quantum x).
Proof.
  intros Hx. rewrite (quantize_nonzero x Hx).
  set (p := pow10 (quantum x)).
  assert (Hp : 0 < p) by apply pow10_pos.
  assert (Hd : inject_Z (round_half_even (x / p)) * p - x
               == (inject_Z (round_half_even (x / p)) - x / p) * p).
  { field. lra. }
  rewrite Hd, Qabs_Qmult, (Qabs_pos p) by lra.
  apply Qmult_le_compat_r; [apply round_half_even_spec | lra].
Qed.

Lemma adjusted_lower (x : Q) (k : Z) : pow10 k <= x -> (k <= adjusted x)%Z.
Proof.
  intros Hk.
  assert (Hx : 0 < x) by (eapply Qlt_le_trans; [apply pow10_pos | exact Hk]).
  destruct (adjusted_spec x Hx) as [_ Hhi].
  assert (H : (k < adjusted x + 1)%Z).
  { apply pow10_lt_inv. eapply Qle_lt_trans; eassumption. }
  lia.
Qed.

Lemma adjusted_upper (x : Q) (k : Z) : 0 < x -> x < pow10 k -> (adjusted x < k)%Z.
Proof.
  intros Hx Hk. destruct (adjusted_spec x Hx) as [Hlo _].
  apply pow10_lt_inv. eapply Qle_lt_trans; eassumption.
Qed.

Lemma quantum_normal (x : Q) :
  pow10 Emin <= Qabs x -> quantum x = (adjusted (Qabs x) - (prec - 1))%Z.
Proof.
  intros Hx. pose proof (adjusted_lower _ _ Hx) as H.
  unfold quantum, Etiny. lia.
Qed.

Lemma half_ulp_pow10 : (1 # 2) * pow10 (- (prec - 1)) == half_ulp.
Proof. reflexivity. Qed.

Lemma quantize_error (x : Q) :
  pow10 Emin <= Qabs x -> Qabs (quantize x - x) <= half_ulp * Qabs x.
Proof.
  intros Hx.
  assert (Hpos : 0 < Qabs x) by (eapply Qlt_le_trans; [apply pow10_pos | exact Hx]).
  assert (Hnz : ~ x == 0).
  { intros H. rewrite H in Hpos. discriminate. }
  eapply Qle_trans; [apply quantize_error_quantum; exact Hnz|].
  rewrite (quantum_normal x Hx).
  destruct (adjusted_spec _ Hpos) as [Hlo _].
  replace (adjusted (Qabs x) - (prec - 1))%Z
    with (- (prec - 1) + adjusted (Qabs x))%Z by lia.
  rewrite pow10_add, Qmult_assoc, half_ulp_pow10.
  apply Qmult_le_l; [reflexivity | exact Hlo].
Qed.



Lemma quantize_bound (x : Q) :
  Qabs x <= pow10 Emax -> Qabs (quantize x) < pow10 (Emax + 1).
Proof.
  intros Hx.
  destruct (Qeq_dec x 0) as [H0|Hnz].
  { rewrite (quantize_zero x H0). apply pow10_pos. }
  assert (Hpos : 0 < Qabs x) by (apply Qabs_pos_nonzero; exact Hnz).
  assert (Hq : (quantum x <= Emax)%Z).
  { assert (Hlt : Qabs x < pow10 (Emax + 1)).
    { eapply Qle_lt_trans; [exact Hx|]. apply pow10_lt. lia. }
    pose proof (adjusted_upper _ _ Hpos Hlt) as Ha.
    unfold quantum, Etiny, Emin, Emax, prec in *. lia. }
  pose proof (quantize_error_quantum x Hnz) as Herr.
  pose proof (pow10_le _ _ Hq) as Hle.
  assert (Htri : Qabs (quantize x) <= Qabs (quantize x - x) + Qabs x).
  { assert (Hs : quantize x == (quantize x - x) + x) by ring.
    rewrite Hs at 1. apply Qabs_triangle. }
  assert (H10 : pow10 (Emax + 1) == pow10 Emax * 10).
  { rewrite pow10_add. apply Qmult_comp; reflexivity. }
  pose proof (pow10_pos Emax) as Hp.
  rewrite H10. lra.
Qed.

Lemma finish_ok (x : Q) : Qabs x <= pow10 Emax -> finish x = Ok (quantize x).
Proof.
  intros Hx. unfold finish.
  destruct (Qeq_bool (quantize x) 0) eqn:E; [reflexivity|].
  apply Qeq_bool_neq in E.
  pose proof (adjusted_upper _ _ (Qabs_pos_nonzero _ E) (quantize_bound x Hx)) as Ha.
  destruct (Z.ltb_spec Emax (adjusted (Qabs (quantize x)))); [lia | reflexivity].
Qed.

Lemma finish_raise (x : Q) (e : exception) : finish x = Raise e -> e = Overflow.
Proof.
  unfold finish. destruct (Qeq_bool _ _); [discriminate|].
  destruct (_ <? _)%Z; congruence.
Qed.

Lemma sub_ok (x y : Q) : in_range (x - y) -> sub x y = Ok (quantize (x - y)).
Proof. apply finish_ok. Qed.

Lemma add_ok (x y : Q) : in_range (x + y) -> add x y = Ok (quantize (x + y)).
Proof. apply finish_ok. Qed.

Lemma mul_ok (x y : Q) : in_range (x * y) -> mul x y = Ok (quantize (x * y)).
Proof. apply finish_ok. Qed.

Lemma div_ok (x y : Q) :
  ~ y == 0 -> in_range (x / y) -> div x y = Ok (quantize (x / y)).
Proof.
  intros Hy Hr. unfold div.
  destruct (Qeq_bool y 0) eqn:E; [apply Qeq_bool_iff in E; contradiction|].
  apply finish_ok. exact Hr.
Qed.


Lemma normal_in_range (x : Q) : normal x -> in_range x.
Proof. intros [_ H]. exact H. Qed.

Lemma in_range_below (k : Z) (x : Q) :
  (k <= Emax)%Z -> Qabs x <= pow10 k -> in_range x.
Proof.
  intros Hk Hx. unfold in_range. eapply Qle_trans; [exact Hx|]. apply pow10_le. exact Hk.
Qed.

Lemma normal_between (a b : Z) (x : Q) :
  (Emin <= a)%Z -> (b <= Emax)%Z -> pow10 a <= Qabs x -> Qabs x <= pow10 b -> normal x.
Proof.
  intros Ha Hb Hlo Hhi. split.
  - eapply Qle_trans; [|exact Hlo]. apply pow10_le. exact Ha.
  - eapply Qle_trans; [exact Hhi|]. apply pow10_le. exact Hb.
Qed.

(** One rounding of a positive value in the normal range moves it by at most
    half a unit in the last place. *)
Lemma quantize_rel (x : Q) :
  0 < x -> normal x ->
  (1 - half_ulp) * x <= quantize x /\ quantize x <= (1 + half_ulp) * x.
Proof.
  intros Hx [Hlo _].
  pose proof (quantize_error x Hlo) as He.
  rewrite (Qabs_pos x) in He by lra.
  apply Qabs_Qle_condition in He. lra.
Qed.

Lemma quantize_pos (x : Q) : 0 < x -> normal x -> 0 < quantize x.
Proof.
  intros Hx Hn. destruct (quantize_rel x Hx Hn) as [Hlo _].
  eapply Qlt_le_trans; [|exact Hlo].
  apply Qmult_lt_0_compat; [reflexivity | exact Hx].
Qed.

Lemma within_pos (k : Z) (x : Q) : within k x -> 0 < x.
Proof. intros [Hlo _]. eapply Qlt_le_trans; [apply pow10_pos | exact Hlo]. Qed.

Lemma within_weaken (k k' : Z) (x : Q) : (k <= k')%Z -> within k x -> within k' x.
Proof.
  intros Hk [Hlo Hhi]. split.
  - eapply Qle_trans; [|exact Hlo]. apply pow10_le. lia.
  - eapply Qle_trans; [exact Hhi|]. apply pow10_le. lia.
Qed.

Lemma within_normal (k : Z) (x : Q) : (k <= Emax)%Z -> within k x -> normal x.
Proof.
  intros Hk Hw. pose proof (within_pos _ _ Hw) as Hx. destruct Hw as [Hlo Hhi].
  unfold normal. rewrite (Qabs_pos x) by lra. split.
  - eapply Qle_trans; [|exact Hlo]. apply pow10_le. unfold Emin, Emax in *. lia.
  - eapply Qle_trans; [exact Hhi|]. apply pow10_le. exact Hk.
Qed.

Lemma within_mul (a b : Z) (x y : Q) :
  within a x -> within b y -> within (a + b) (x * y).
Proof.
  intros [Hxl Hxh] [Hyl Hyh].
  pose proof (pow10_pos (- a)) as Ha. pose proof (pow10_pos (- b)) as Hb.
  split.
  - replace (- (a + b))%Z with (- a + - b)%Z by lia. rewrite pow10_add.
    apply Qmult_le_compat_nonneg; split; lra.
  - rewrite pow10_add. apply Qmult_le_compat_nonneg; split; lra.
Qed.

Lemma within_div (a b : Z) (x y : Q) :
  within a x -> within b y -> within (a + b) (x / y).
Proof.
  intros [Hxl Hxh] Hy. pose proof (within_pos _ _ Hy) as Hy0. destruct Hy as [Hyl Hyh].
  pose proof (pow10_pos (- (a + b))) as Hab. pose proof (pow10_pos (a + b)) as Hab'.
  pose proof (pow10_pos (- b)) as Hb.
  split.
  - apply Qle_shift_div_l; [exact Hy0|].
    apply Qle_trans with (pow10 (- (a + b)) * pow10 b).
    + apply Qmult_le_compat_nonneg; split; lra.
    + rewrite <- pow10_add. replace (- (a + b) + b)%Z with (- a)%Z by lia. exact Hxl.
  - apply Qle_shift_div_r; [exact Hy0|].
    apply Qle_trans with (pow10 (a + b) * pow10 (- b)).
    + rewrite <- pow10_add. replace (a + b + - b)%Z with a by lia. exact Hxh.
    + apply Qmult_le_compat_nonneg; split; lra.
Qed.

Lemma pow10_succ (k : Z) : pow10 (k + 1) == 10 * pow10 k.
Proof. rewrite pow10_add. rewrite Qmult_comm. apply Qmult_comp; reflexivity. Qed.

(** Rounding moves a value of the window by less than a factor of ten. *)
Lemma within_quantize (k : Z) (x : Q) :
  (k <= Emax)%Z -> within k x -> within (k + 1) (quantize x).
Proof.
  intros Hk Hw. pose proof (within_pos _ _ Hw) as Hx.
  destruct (quantize_rel x Hx (within_normal _ _ Hk Hw)) as [Hlo Hhi].
  destruct Hw as [Hwl Hwh]. unfold half_ulp in *.
  pose proof (pow10_pos (- (k + 1))) as Hp. pose proof (pow10_pos k) as Hp'.
  split.
  - assert (E : pow10 (- k) == 10 * pow10 (- (k + 1))).
    { rewrite <- pow10_succ. replace (- (k + 1) + 1)%Z with (- k)%Z by lia. reflexivity. }
    lra.
  - rewrite pow10_succ. lra.
Qed.

End DecimalFacts.

(** ** utils/strategy_utils.py *)



(** The symmetric range with its decimal operations resolved: the
    fraction [range], the factor [1 + range], the quotient and the product
    are each rounded to the context. *)
Lemma symmetric_range_value (p range_percent : Q) :
  let range := Decimal.quantize (PERCENT_TO_DECIMAL * range_percent) in
  let factor := Decimal.quantize (ONE + range) in
  Decimal.in_range (PERCENT_TO_DECIMAL * range_percent) ->
  Decimal.in_range (ONE + range) -> ~ factor == 0 ->
  Decimal.in_range (p / factor) -> Decimal.in_range (p * factor) ->
  Utils.get_lower_upper_price_for_symmetric_range range_percent p
  = Ok (Decimal.quantize (p / factor), Decimal.quantize (p * factor)).
Proof.
  intros range factor H1 H2 H3 H4 H5.
  unfold Utils.get_lower_upper_price_for_symmetric_range.
  rewrite (mul_ok _ _ H1), bind_Ok. fold range.
  rewrite (add_ok _ _ H2), bind_Ok. fold factor.
  rewrite (div_ok _ _ H3 H4), bind_Ok.
  rewrite bind_Ok, (mul_ok _ _ H5), bind_Ok. reflexivity.
Qed.

(** The factor [1 + r] as the code computes it, for a range of at least
    [10^-24] percent: within two roundings of the exact one, and above 1 by
    more than the rounding of the bounds takes away. *)
Lemma symmetric_range_factor (range_percent : Q) :
  Decimal.pow10 (-24) <= range_percent -> range_percent <= Decimal.pow10 400000 ->
  let r := range_percent / 100 in
  let factor := Decimal.quantize (ONE + Decimal.quantize (PERCENT_TO_DECIMAL * range_percent)) in
  Decimal.in_range (PERCENT_TO_DECIMAL * range_percent)
  /\ Decimal.in_range (ONE + Decimal.quantize (PERCENT_TO_DECIMAL * range_percent))
  /\ Decimal.within 400005 factor
  /\ (1 - Decimal.half_ulp) * ((1 - Decimal.half_ulp) * (1 + r)) <= factor
  /\ factor <= (1 + Decimal.half_ulp) * ((1 + Decimal.half_ulp) * (1 + r))
  /\ 1 + 9 * (1 # 1000000000000000000000000000) <= factor.
Proof.
  intros Hlo Hhi r factor.
  assert (E24 : Decimal.pow10 (-24) == 1 # 1000000000000000000000000) by reflexivity.
  assert (Hw : Decimal.within 400000 range_percent).
  { split; [|exact Hhi]. eapply Qle_trans; [|exact Hlo]. apply pow10_le. lia. }
  assert (Hc : Decimal.within 2 PERCENT_TO_DECIMAL).
  { split; vm_compute; congruence. }
  assert (Hw0 : Decimal.within 400002 (PERCENT_TO_DECIMAL * range_percent))
    by exact (within_mul 2 400000 _ _ Hc Hw).
  assert (Hn0 : Decimal.normal (PERCENT_TO_DECIMAL * range_percent)).
  { apply (within_normal 400002 _ ltac:(unfold Decimal.Emax; lia) Hw0). }
  pose proof (within_pos _ _ Hw0) as Hr0.
  destruct (quantize_rel _ Hr0 Hn0) as [Hq_lo Hq_hi].
  assert (Hw1 : Decimal.within 400003 (Decimal.quantize (PERCENT_TO_DECIMAL * range_percent)))
    by exact (within_quantize 400002 _ ltac:(unfold Decimal.Emax; lia) Hw0).
  set (range := Decimal.quantize (PERCENT_TO_DECIMAL * range_percent)) in *.
  assert (Hw2 : Decimal.within 400004 (ONE + range)).
  { pose proof (within_pos _ _ Hw1) as Hp. destruct Hw1 as [Hl Hh].
    unfold ONE. split.
    - apply Qle_trans with (Decimal.pow10 0).
      + apply pow10_le. lia.
      + change (Decimal.pow10 0) with 1. lra.
    - change 400004%Z with (400003 + 1)%Z. rewrite pow10_succ.
      assert (H1 : 1 <= Decimal.pow10 400003).
      { change 1 with (Decimal.pow10 0). apply pow10_le. lia. }
      lra. }
  assert (Hn2 : Decimal.normal (ONE + range)).
  { apply (within_normal 400004 _ ltac:(unfold Decimal.Emax; lia) Hw2). }
  pose proof (within_pos _ _ Hw2) as Hg0.
  destruct (quantize_rel _ Hg0 Hn2) as [Hf_lo Hf_hi].
  assert (Hw3 : Decimal.within 400005 factor)
    by exact (within_quantize 400004 _ ltac:(unfold Decimal.Emax; lia) Hw2).
  fold factor in Hf_lo, Hf_hi.
  assert (Er : r == PERCENT_TO_DECIMAL * range_percent).
  { subst r. unfold PERCENT_TO_DECIMAL. field. }
  unfold ONE, PERCENT_TO_DECIMAL, Decimal.half_ulp in *.
  split; [exact (normal_in_range _ Hn0)|].
  split; [exact (normal_in_range _ Hn2)|].
  split; [exact Hw3|].
  repeat split; lra.
Qed.

(** C7, as the code has it: the bounds are decimals.  For a centre price
    [p] between [10^-400000] and [10^400000] and a [range_percent] between
    [10^-24] and [10^400000], with [r = range_percent / 100], the symmetric
    range is [lower = p / (1 + r)] and [upper = p * (1 + r)], each up to the
    rounding of the decimal context (within four half-units in the last of 28
    digits); [lower < p < upper] holds, and [upper / p] and [p / lower] agree
    up to that rounding.  At [p = 100] and [range_percent = 5] the bounds are
    95.24 (to two decimals) and 105. *)
Theorem symmetric_range_bounds :
  (forall p range_percent : Q,
      Decimal.within 400000 p ->
      Decimal.pow10 (-24) <= range_percent -> range_percent <= Decimal.pow10 400000 ->
      exists lower upper,
        Utils.get_lower_upper_price_for_symmetric_range range_percent p = Ok (lower, upper)
        /\ Qabs (lower - p / (1 + range_percent / 100))
           <= 4 * Decimal.half_ulp * (p / (1 + range_percent / 100))
        /\ Qabs (upper - p * (1 + range_percent / 100))
           <= 4 * Decimal.half_ulp * (p * (1 + range_percent / 100))
        /\ lower < p /\ p < upper
        /\ Qabs (upper / p - p / lower) <= 4 * Decimal.half_ulp * (p / lower))
  /\ (exists lower upper,
        Utils.get_lower_upper_price_for_symmetric_range 5 100 = Ok (lower, upper)
        /\ 95235 # 1000 <= lower /\ lower < 95245 # 1000
        /\ upper == 105).
Proof.
  split.
  - intros p range_percent Hp Hlo Hhi.
    destruct (symmetric_range_factor range_percent Hlo Hhi)
      as (Hr1 & Hr2 & Hwf & Hf_lo & Hf_hi & Hf_min).
    cbv zeta in Hwf, Hf_lo, Hf_hi, Hf_min.
    set (f := Decimal.quantize (ONE + Decimal.quantize (PERCENT_TO_DECIMAL * range_percent))) in *.
    pose proof (within_pos _ _ Hp) as Hp0. pose proof (within_pos _ _ Hwf) as Hf0.
    assert (Hwq : Decimal.within 800005 (p / f)) by exact (within_div 400000 400005 _ _ Hp Hwf).
    assert (Hwm : Decimal.within 800005 (p * f)) by exact (within_mul 400000 400005 _ _ Hp Hwf).
    assert (Hnq : Decimal.normal (p / f)).
    { apply (within_normal 800005 _ ltac:(unfold Decimal.Emax; lia) Hwq). }
    assert (Hnm : Decimal.normal (p * f)).
    { apply (within_normal 800005 _ ltac:(unfold Decimal.Emax; lia) Hwm). }
    assert (Hfz : ~ f == 0) by lra.
    rewrite (symmetric_range_value p range_percent Hr1 Hr2 Hfz
               (normal_in_range _ Hnq) (normal_in_range _ Hnm)).
    fold f.
    pose proof (within_pos _ _ Hwq) as Hq0. pose proof (within_pos _ _ Hwm) as Hm0.
    destruct (quantize_rel _ Hq0 Hnq) as [Hl_lo Hl_hi].
    destruct (quantize_rel _ Hm0 Hnm) as [Hu_lo Hu_hi].
    pose proof (quantize_pos _ Hq0 Hnq) as Hl0.
    pose proof (quantize_pos _ Hm0 Hnm) as Hu0.
    set (lower := Decimal.quantize (p / f)) in *.
    set (upper := Decimal.quantize (p * f)) in *.
    exists lower, upper. split; [reflexivity|].
    set (x0 := 1 + range_percent / 100) in *.
    assert (Hx0 : 0 < x0).
    { assert (E24 : Decimal.pow10 (-24) == 1 # 1000000000000000000000000) by reflexivity.
      assert (Ex0 : x0 == 1 + (1 # 100) * range_percent) by (subst x0; field).
      lra. }
    (* products against the factor *)
    assert (Eq : p / f * f == p) by (field; exact Hfz).
    assert (Hlf_lo : (1 - Decimal.half_ulp) * p <= lower * f).
    { apply (Qmult_le_compat_r _ _ f) in Hl_lo; [|lra].
      rewrite <- Qmult_assoc, Eq in Hl_lo. exact Hl_lo. }
    assert (Hlf_hi : lower * f <= (1 + Decimal.half_ulp) * p).
    { apply (Qmult_le_compat_r _ _ f) in Hl_hi; [|lra].
      rewrite <- Qmult_assoc, Eq in Hl_hi. exact Hl_hi. }
    set (L0 := p / x0).
    assert (EL0 : L0 * x0 == p) by (subst L0; field; lra).
    assert (HL0 : 0 < L0) by (subst L0; apply Qlt_shift_div_l; lra).
    assert (HL0f_lo : (1 - Decimal.half_ulp) * ((1 - Decimal.half_ulp) * p) <= L0 * f).
    { apply Qle_trans with (L0 * ((1 - Decimal.half_ulp) * ((1 - Decimal.half_ulp) * x0))).
      - rewrite <- EL0. apply Qeq_le. ring.
      - apply Qmult_le_l; [exact HL0 | exact Hf_lo]. }
    assert (HL0f_hi : L0 * f <= (1 + Decimal.half_ulp) * ((1 + Decimal.half_ulp) * p)).
    { apply Qle_trans with (L0 * ((1 + Decimal.half_ulp) * ((1 + Decimal.half_ulp) * x0))).
      - apply Qmult_le_l; [exact HL0 | exact Hf_hi].
      - rewrite <- EL0. apply Qeq_le. ring. }
    assert (Hpf_lo : (1 - Decimal.half_ulp) * ((1 - Decimal.half_ulp) * (p * x0)) <= p * f).
    { apply Qle_trans with (p * ((1 - Decimal.half_ulp) * ((1 - Decimal.half_ulp) * x0))).
      - apply Qeq_le. ring.
      - apply Qmult_le_l; [exact Hp0 | exact Hf_lo]. }
    assert (Hpf_hi : p * f <= (1 + Decimal.half_ulp) * ((1 + Decimal.half_ulp) * (p * x0))).
    { apply Qle_trans with (p * ((1 + Decimal.half_ulp) * ((1 + Decimal.half_ulp) * x0))).
      - apply Qmult_le_l; [exact Hp0 | exact Hf_hi].
      - apply Qeq_le. ring. }
    assert (Hlmin : lower * (1 + 9 * (1 # 1000000000000000000000000000)) <= lower * f).
    { apply Qmult_le_l; [exact Hl0 | exact Hf_min]. }
    assert (Hpmin : p * (1 + 9 * (1 # 1000000000000000000000000000)) <= p * f).
    { apply Qmult_le_l; [exact Hp0 | exact Hf_min]. }
    assert (Hul_lo : (1 - Decimal.half_ulp) * ((1 - Decimal.half_ulp) * (p * p)) <= upper * lower).
    { apply Qle_trans with ((1 - Decimal.half_ulp) * (p * f) * lower).
      - apply Qle_trans with ((1 - Decimal.half_ulp) * p * (lower * f)).
        + apply Qle_trans with ((1 - Decimal.half_ulp) * p * ((1 - Decimal.half_ulp) * p)).
          * apply Qeq_le. ring.
          * apply Qmult_le_l; [|exact Hlf_lo].
            apply Qmult_lt_0_compat; [reflexivity | exact Hp0].
        + apply Qeq_le. ring.
      - apply Qmult_le_compat_r; [exact Hu_lo | lra]. }
    assert (Hul_hi : upper * lower <= (1 + Decimal.half_ulp) * ((1 + Decimal.half_ulp) * (p * p))).
    { apply Qle_trans with ((1 + Decimal.half_ulp) * (p * f) * lower).
      - apply Qmult_le_compat_r; [exact Hu_hi | lra].
      - apply Qle_trans with ((1 + Decimal.half_ulp) * p * (lower * f)).
        + apply Qeq_le. ring.
        + apply Qle_trans with ((1 + Decimal.half_ulp) * p * ((1 + Decimal.half_ulp) * p)).
          * apply Qmult_le_l; [|exact Hlf_hi].
            apply Qmult_lt_0_compat; [reflexivity | exact Hp0].
          * apply Qeq_le. ring. }
    unfold Decimal.half_ulp in *.
    split; [|split; [|split; [|split]]].
    + apply Qabs_Qle_condition. fold L0. split.
      * apply (Qmult_le_r _ _ f Hf0). lra.
      * apply (Qmult_le_r _ _ f Hf0). lra.
    + apply Qabs_Qle_condition. split; lra.
    + lra.
    + lra.
    + set (a := upper / p). set (b := p / lower).
      assert (Ea : a * (p * lower) == upper * lower) by (subst a; field; lra).
      assert (Eb : b * (p * lower) == p * p) by (subst b; field; lra).
      assert (Hpl : 0 < p * lower) by (apply Qmult_lt_0_compat; assumption).
      apply Qabs_Qle_condition. split.
      * apply (Qmult_le_r _ _ (p * lower) Hpl). lra.
      * apply (Qmult_le_r _ _ (p * lower) Hpl). lra.
  - eexists _, _. split; [vm_compute; reflexivity|].
    repeat split; vm_compute; congruence.
Qed.

(** C7 does not hold of the code as the claim states it.  At [p = 11] and
    a range of 8 percent the bounds are 10.18518518518518518518518519 and
    11.88, and [upper / p] is not [p / lower]; at [p = 100] and a range of
    [10^-30] percent both bounds are 100. *)
Lemma symmetric_range_rounds :
  (exists lower upper,
      Utils.get_lower_upper_price_for_symmetric_range 8 11 = Ok (lower, upper)
      /\ ~ upper / 11 == 11 / lower)
  /\ (exists lower upper,
        Utils.get_lower_upper_price_for_symmetric_range
          (1 # 1000000000000000000000000000000) 100
        = Ok (lower, upper)
        /\ lower == 100 /\ upper == 100).
Proof.
  split.
  - eexists _, _. split; [vm_compute; reflexivity|]. vm_compute. discriminate.
  - eexists _, _. split; [vm_compute; reflexivity|]. split; vm_compute; reflexivity.
Qed.

Lemma symmetric_range_bounds_witness :
  exists lower upper,
    Utils.get_lower_upper_price_for_symmetric_range 5 100 = Ok (lower, upper)
    /\ Qabs (lower - 100 / (1 + 5 / 100)) <= 4 * Decimal.half_ulp * (100 / (1 + 5 / 100))
    /\ Qabs (upper - 100 * (1 + 5 / 100)) <= 4 * Decimal.half_ulp * (100 * (1 + 5 / 100))
    /\ lower < 100 /\ 100 < upper
    /\ Qabs (upper / 100 - 100 / lower) <= 4 * Decimal.half_ulp * (100 / lower).
Proof.
  apply (proj1 symmetric_range_bounds 100 5).
  - apply (within_weaken 2); [discriminate|]. split; vm_compute; congruence.
  - vm_compute. congruence.
  - apply Qle_trans with (Decimal.pow10 1); [vm_compute; congruence|].
    apply pow10_le. discriminate.
Defined.

(** ** Fee charging (strategies/brokkr_strategy.py) *)

Section FeeCharging.
Context {M : Type} `{Market M} {S : Type}.
Implicit Types (st : Base.Strategy M S) (cfg : FeesConfiguration).

(** The charge, with its decimal operations resolved: a helper for the
    theorems below.  [shortfall] and [converted] are the values the code
    computes: the exact ones, each rounded to the context. *)
Lemma substract_gas_fee_cases st cfg fee_amount :
  Base.fees_configuration st = Some cfg ->
  0 < market_price (Base.market st) ->
  let fee_token := token cfg in
  let price := market_price (Base.market st) in
  let fee_bal := balance (Base.broker st) fee_token in
  let other_bal := balance (Base.broker st) (other_token fee_token) in
  let shortfall := Decimal.quantize (fee_amount - fee_bal) in
  let converted := Decimal.quantize (converted_shortfall fee_token shortfall price) in
  (fee_amount <= fee_bal -> Decimal.in_range (fee_bal - fee_amount) ->
   Base.substract_gas_fee fee_amount st
   = Ok (Base.set_balance_of st fee_token (Decimal.quantize (fee_bal - fee_amount)),
         match fee_token with
         | BaseToken => (fee_amount, 0)
         | QuoteToken => (0, fee_amount)
         end))
  /\ (fee_bal < fee_amount ->
      Decimal.in_range (fee_amount - fee_bal) ->
      Decimal.in_range (converted_shortfall fee_token shortfall price) ->
      (converted <= other_bal -> Decimal.in_range (other_bal - converted) ->
       Base.substract_gas_fee fee_amount st
       = Ok (Base.set_balance_of
               (Base.set_balance_of st (other_token fee_token)
                  (Decimal.quantize (other_bal - converted)))
               fee_token 0,
             match fee_token with
             | BaseToken => (fee_bal, converted)
             | QuoteToken => (converted, fee_bal)
             end))
      /\ (other_bal < converted ->
          Base.substract_gas_fee fee_amount st = Raise InsufficientFunds)
      /\ (converted <= other_bal ->
          Base.substract_gas_fee fee_amount st <> Raise InsufficientFunds)).
Proof.
  intros Hcfg Hprice fee_token price fee_bal other_bal shortfall converted.
  assert (Hp0 : ~ price == 0) by (subst price; lra).
  unfold Base.substract_gas_fee. rewrite Hcfg. fold fee_token. fold fee_bal.
  split.
  - intros Hle Hr. apply Qge_bool_true in Hle. rewrite Hle.
    unfold Base.deduct_fee_from_balance. fold fee_bal.
    rewrite (sub_ok _ _ Hr). destruct fee_token; reflexivity.
  - intros Hlt Hr1 Hr2. apply Qge_bool_false in Hlt. rewrite Hlt.
    unfold Base.substract_gas_fee_on_insufficient_fee_token_amount. fold fee_bal.
    rewrite (sub_ok _ _ Hr1), bind_Ok. fold shortfall. fold price.
    subst converted other_bal. destruct fee_token; cbn [other_token converted_shortfall] in *.
    + unfold Base.pay_remaining_fee_in_quote_token, Base.get_quote_token.
      rewrite (div_ok _ _ Hp0 Hr2), bind_Ok.
      set (converted := Decimal.quantize (shortfall / price)).
      split; [|split].
      * intros Hcov Hr3. apply Qge_bool_true in Hcov. simpl in *. rewrite Hcov.
        rewrite (sub_ok _ _ Hr3). reflexivity.
      * intros Hcov. apply Qge_bool_false in Hcov. simpl in *. rewrite Hcov. reflexivity.
      * intros Hcov. apply Qge_bool_true in Hcov. simpl in *. rewrite Hcov.
        destruct (Decimal.sub _ _) as [rest|e] eqn:Es; [discriminate|].
        apply finish_raise in Es. subst e. discriminate.
    + unfold Base.pay_remaining_fee_in_base_token, Base.get_base_token.
      rewrite (mul_ok _ _ Hr2), bind_Ok.
      set (converted := Decimal.quantize (shortfall * price)).
      split; [|split].
      * intros Hcov Hr3. apply Qge_bool_true in Hcov. simpl in *. rewrite Hcov.
        rewrite (sub_ok _ _ Hr3). reflexivity.
      * intros Hcov. apply Qge_bool_false in Hcov. simpl in *. rewrite Hcov. reflexivity.
      * intros Hcov. apply Qge_bool_true in Hcov. simpl in *. rewrite Hcov.
        destruct (Decimal.sub _ _) as [rest|e] eqn:Es; [discriminate|].
        apply finish_raise in Es. subst e. discriminate.
Qed.



End FeeCharging.


(** ** The shared primitives: what they touch *)

Lemma bind_ok {A B : Type} (m : result A) (k : A -> result B) (b : B) :
  m ≫= k = Ok b -> exists a, m = Ok a /\ k a = Ok b.
Proof. destruct m as [a|e]; simpl; [eauto | discriminate]. Qed.

(** Inverts a successful bind in hypothesis [H]. *)
Ltac bind_inv H :=
  let a := fresh "a" in
  let Ha := fresh "Ha" in
  apply bind_ok in H; destruct H as (a & Ha & H); simpl in H.

Section PrimitiveFacts.
Context {M : Type} `{Market M} {S : Type}.
Variable opened_hook : Z -> Q -> Q -> option RebalanceDirection -> S -> S.
Implicit Types (st : Base.Strategy M S).

Lemma substract_gas_fee_frame st st' fee spent :
  Base.substract_gas_fee fee st = Ok (st', spent) ->
  exists b, st' = Base.set_broker st b.
Proof.
  unfold Base.substract_gas_fee. destruct (Base.fees_configuration st) as [cfg|]; [|discriminate].
  destruct (Qge_bool _ _).
  - unfold Base.deduct_fee_from_balance. intros Hb. bind_inv Hb.
    injection Hb as <- _. eexists. reflexivity.
  - unfold Base.substract_gas_fee_on_insufficient_fee_token_amount.
    intros Hb. bind_inv Hb.
    destruct (bool_decide _); bind_inv Hb; destruct a0 as [st1 sp];
      injection Hb as <- _.
    + unfold Base.pay_remaining_fee_in_quote_token in Ha0. bind_inv Ha0.
      destruct (Qge_bool _ _); [|discriminate]. bind_inv Ha0. injection Ha0 as <- _.
      eexists. reflexivity.
    + unfold Base.pay_remaining_fee_in_base_token in Ha0. bind_inv Ha0.
      destruct (Qge_bool _ _); [|discriminate]. bind_inv Ha0. injection Ha0 as <- _.
      eexists. reflexivity.
Qed.

Lemma charge_fee_frame st st' rate fee spent :
  Base.charge_fee rate st = Ok (st', fee, spent) ->
  exists b, st' = Base.set_broker st b.
Proof.
  unfold Base.charge_fee. intros Hc. bind_inv Hc. bind_inv Hc.
  destruct a0 as [st1 sp]. injection Hc as <- _ _.
  eapply substract_gas_fee_frame; eauto.
Qed.

(** A rebalance leaves the subclass's fields and the fee configuration
    alone and counts exactly one rebalance. *)
Lemma symmetrical_rebalance_frame st st' init_price :
  Base.symmetrical_rebalance init_price st = Ok st' ->
  Base.custom st' = Base.custom st
  /\ Base.fees_configuration st' = Base.fees_configuration st
  /\ rebalances_count (Base.stats st') = (rebalances_count (Base.stats st) + 1)%Z.
Proof.
  unfold Base.symmetrical_rebalance. intros Hr. bind_inv Hr. injection Hr as <-.
  destruct (Base.fees_configuration st) as [cfg|] eqn:Hcfg.
  - bind_inv Ha. destruct a0 as [[st1 fee] sp]. injection Ha as <-.
    apply charge_fee_frame in Ha0 as [b ->]. simpl. auto.
  - injection Ha as <-. simpl. auto.
Qed.

Lemma remove_liquidity_frame st st' position liquidity :
  Base.remove_liquidity position liquidity st = Ok st' ->
  Base.custom st' = Base.custom st
  /\ Base.fees_configuration st' = Base.fees_configuration st
  /\ rebalances_count (Base.stats st') = rebalances_count (Base.stats st).
Proof.
  unfold Base.remove_liquidity.
  destruct (market_remove_liquidity _ _ _) as [received mb]. simpl.
  destruct (Base.fees_configuration st) as [cfg|] eqn:Hcfg.
  - intros Hr. bind_inv Hr. destruct a as [[st1 fee] sp]. injection Hr as <-.
    apply charge_fee_frame in Ha as [b ->]. simpl. auto.
  - intros [= <-]. simpl. auto.
Qed.

Lemma remove_each_frame keys : forall st st',
  Base.remove_each keys st = Ok st' ->
  Base.custom st' = Base.custom st
  /\ Base.fees_configuration st' = Base.fees_configuration st
  /\ rebalances_count (Base.stats st') = rebalances_count (Base.stats st).
Proof.
  induction keys as [|k keys IH]; simpl; intros st st' Hr.
  - injection Hr as <-. auto.
  - bind_inv Hr. apply remove_liquidity_frame in Ha as (E1 & E2 & E3).
    apply IH in Hr as (E1' & E2' & E3'). repeat split; congruence.
Qed.

Lemma remove_all_liquidity_frame st st' :
  Base.remove_all_liquidity st = Ok st' ->
  Base.custom st' = Base.custom st
  /\ Base.fees_configuration st' = Base.fees_configuration st
  /\ rebalances_count (Base.stats st') = rebalances_count (Base.stats st).
Proof.
  unfold Base.remove_all_liquidity. destruct (_ <? _)%nat.
  - intros [= <-]. auto.
  - apply remove_each_frame.
Qed.

(** Opening a position runs the hook once, with the timestamp the market
    shows after minting. *)
Lemma add_liquidity_custom_range_frame st st' lower upper base_max quote_max direction opened :
  Base.add_liquidity_custom_range opened_hook lower upper base_max quote_max direction st
  = Ok (st', opened) ->
  Base.custom st'
  = opened_hook (market_timestamp (Base.market st')) lower upper direction (Base.custom st)
  /\ Base.fees_configuration st' = Base.fees_configuration st
  /\ rebalances_count (Base.stats st') = rebalances_count (Base.stats st).
Proof.
  unfold Base.add_liquidity_custom_range. intros Hr. bind_inv Hr.
  destruct a as [st1 [bs qs]].
  destruct (market_add_liquidity _ _ _ _ _) as [o mb]. simpl in Hr.
  injection Hr as <- _.
  destruct (Base.fees_configuration st) as [cfg|] eqn:Hcfg.
  - bind_inv Ha. destruct a as [[st2 fee] sp]. injection Ha as <- _.
    apply charge_fee_frame in Ha0 as [b ->]. simpl. auto.
  - injection Ha as <- _ _. simpl. auto.
Qed.

Lemma add_liquidity_frame st st' range base_max quote_max direction init_price opened :
  Base.add_liquidity opened_hook range base_max quote_max direction init_price st
  = Ok (st', opened) ->
  (exists timestamp lower upper,
      Base.custom st' = opened_hook timestamp lower upper direction (Base.custom st))
  /\ Base.fees_configuration st' = Base.fees_configuration st
  /\ rebalances_count (Base.stats st') = rebalances_count (Base.stats st).
Proof.
  unfold Base.add_liquidity. intros Hr. bind_inv Hr. destruct a as [lower upper].
  bind_inv Hr. destruct a as [st1 o]. injection Hr as <- _.
  apply add_liquidity_custom_range_frame in Ha0 as (E1 & E2 & E3). simpl.
  split; [eauto|]. auto.
Qed.

(** The shared rebalance primitive counts exactly one rebalance, whatever
    the number of positions it closed, and runs the opening hook once. *)
Lemma rebalance_and_add_symmetric_liquidity_frame st st' range init_price opened :
  Base.rebalance_and_add_symmetric_liquidity opened_hook range init_price st
  = Ok (st', opened) ->
  (exists timestamp lower upper direction,
      Base.custom st' = opened_hook timestamp lower upper direction (Base.custom st))
  /\ Base.fees_configuration st' = Base.fees_configuration st
  /\ rebalances_count (Base.stats st') = (rebalances_count (Base.stats st) + 1)%Z.
Proof.
  unfold Base.rebalance_and_add_symmetric_liquidity. intros Hr. bind_inv Hr.
  destruct a as [direction st1]. bind_inv Hr.
  apply symmetrical_rebalance_frame in Ha0 as (E1 & E2 & E3).
  apply add_liquidity_frame in Hr as ((ts & lo & hi & E1') & E2' & E3').
  assert (E0 : Base.custom st1 = Base.custom st
               /\ Base.fees_configuration st1 = Base.fees_configuration st
               /\ rebalances_count (Base.stats st1) = rebalances_count (Base.stats st)).
  { destruct (last _) as [position|].
    - bind_inv Ha. injection Ha as _ <-. now apply remove_all_liquidity_frame.
    - injection Ha as _ <-. auto. }
  destruct E0 as (E1'' & E2'' & E3'').
  split; [|split; congruence].
  exists ts, lo, hi, direction. congruence.
Qed.

(** What the primitives count. *)
Lemma symmetrical_rebalance_counts st st' init_price :
  Base.symmetrical_rebalance init_price st = Ok st' ->
  providing_lp_count (Base.stats st') = providing_lp_count (Base.stats st)
  /\ withdrawing_lp_count (Base.stats st') = withdrawing_lp_count (Base.stats st).
Proof.
  unfold Base.symmetrical_rebalance. intros Hr. bind_inv Hr. injection Hr as <-.
  destruct (Base.fees_configuration st) as [cfg|] eqn:Hcfg.
  - bind_inv Ha. destruct a0 as [[st1 fee] sp]. injection Ha as <-.
    apply charge_fee_frame in Ha0 as [b ->]. simpl. auto.
  - injection Ha as <-. simpl. auto.
Qed.

Lemma remove_liquidity_counts st st' position liquidity :
  Base.remove_liquidity position liquidity st = Ok st' ->
  providing_lp_count (Base.stats st') = providing_lp_count (Base.stats st)
  /\ withdrawing_lp_count (Base.stats st')
     = (withdrawing_lp_count (Base.stats st) + 1)%Z.
Proof.
  unfold Base.remove_liquidity.
  destruct (market_remove_liquidity _ _ _) as [received mb]. simpl.
  destruct (Base.fees_configuration st) as [cfg|] eqn:Hcfg.
  - intros Hr. bind_inv Hr. destruct a as [[st1 fee] sp]. injection Hr as <-.
    apply charge_fee_frame in Ha as [b ->]. simpl. auto.
  - intros [= <-]. simpl. auto.
Qed.

Lemma remove_each_counts keys : forall st st',
  Base.remove_each keys st = Ok st' ->
  providing_lp_count (Base.stats st') = providing_lp_count (Base.stats st)
  /\ withdrawing_lp_count (Base.stats st')
     = (withdrawing_lp_count (Base.stats st) + Z.of_nat (length keys))%Z.
Proof.
  induction keys as [|k keys IH]; intros st st' Hr.
  - simpl in Hr. injection Hr as <-. simpl. split; [reflexivity | lia].
  - simpl in Hr. bind_inv Hr. apply remove_liquidity_counts in Ha as [E1 E2].
    apply IH in Hr as [E1' E2']. split; [congruence|].
    rewrite E2', E2. cbn [length]. lia.
Qed.

Lemma remove_all_liquidity_counts st st' :
  Base.remove_all_liquidity st = Ok st' ->
  providing_lp_count (Base.stats st') = providing_lp_count (Base.stats st)
  /\ withdrawing_lp_count (Base.stats st')
     = (withdrawing_lp_count (Base.stats st)
        + Z.of_nat (length (market_positions (Base.market st))))%Z.
Proof.
  unfold Base.remove_all_liquidity.
  destruct (length (market_positions (Base.market st)) <? 1)%nat eqn:E.
  - intros [= <-]. apply Nat.ltb_lt in E. split; [reflexivity | lia].
  - apply remove_each_counts.
Qed.

Lemma add_liquidity_custom_range_counts st st' lower upper base_max quote_max direction
    opened :
  Base.add_liquidity_custom_range opened_hook lower upper base_max quote_max direction st
  = Ok (st', opened) ->
  providing_lp_count (Base.stats st') = (providing_lp_count (Base.stats st) + 1)%Z
  /\ withdrawing_lp_count (Base.stats st') = withdrawing_lp_count (Base.stats st).
Proof.
  unfold Base.add_liquidity_custom_range. intros Hr. bind_inv Hr.
  destruct a as [st1 [bs qs]].
  destruct (market_add_liquidity _ _ _ _ _) as [o mb]. simpl in Hr.
  injection Hr as <- _.
  destruct (Base.fees_configuration st) as [cfg|] eqn:Hcfg.
  - bind_inv Ha. destruct a as [[st2 fee] sp]. injection Ha as <- _.
    apply charge_fee_frame in Ha0 as [b ->]. simpl. auto.
  - injection Ha as <- _ _. simpl. auto.
Qed.

Lemma add_liquidity_counts st st' range base_max quote_max direction init_price opened :
  Base.add_liquidity opened_hook range base_max quote_max direction init_price st
  = Ok (st', opened) ->
  providing_lp_count (Base.stats st') = (providing_lp_count (Base.stats st) + 1)%Z
  /\ withdrawing_lp_count (Base.stats st') = withdrawing_lp_count (Base.stats st).
Proof.
  unfold Base.add_liquidity. intros Hr. bind_inv Hr. destruct a as [lower upper].
  bind_inv Hr. destruct a as [st1 o]. injection Hr as <- _.
  apply add_liquidity_custom_range_counts in Ha0 as (P & W).
  simpl. auto.
Qed.

End PrimitiveFacts.

Section FeeFailure.
Context {M : Type} `{Market M} {S : Type}.
Variable opened_hook : Z -> Q -> Q -> option RebalanceDirection -> S -> S.
Implicit Types (st : Base.Strategy M S) (cfg : FeesConfiguration).

(** An exception raised by one operation of a run is the outcome of the
    whole run: nothing catches it. *)
Lemma perform_all_raise (ops1 ops2 : list (Base.Operation (M := M))) op st0 st1 e :
  Base.perform_all opened_hook ops1 st0 = Ok st1 ->
  Base.perform opened_hook op st1 = Raise e ->
  Base.perform_all opened_hook (ops1 ++ op :: ops2) st0 = Raise e.
Proof.
  revert st0. induction ops1 as [|o ops1 IH]; simpl; intros st0 Hrun Hop.
  - injection Hrun as ->. now rewrite Hop.
  - destruct (Base.perform opened_hook o st0) as [st|e']; simpl in *; [|discriminate].
    now apply IH.
Qed.

(** The rounded conversion of the rounded shortfall, against the exact
    shortfall: two roundings, each within half a unit in the last place. *)
Lemma converted_shortfall_error (fee_token : Token) (shortfall0 price : Q) :
  0 < price -> 0 < shortfall0 ->
  Decimal.normal shortfall0 ->
  let shortfall := Decimal.quantize shortfall0 in
  Decimal.normal (converted_shortfall fee_token shortfall price) ->
  let converted := Decimal.quantize (converted_shortfall fee_token shortfall price) in
  let exact := in_base_units fee_token shortfall0 price in
  let paid := match fee_token with
              | BaseToken => converted * price
              | QuoteToken => converted
              end in
  (1 - 3 * Decimal.half_ulp) * exact <= paid /\ paid <= (1 + 3 * Decimal.half_ulp) * exact.
Proof.
  intros Hprice Hs0 Hn0 shortfall Hn1 converted exact paid.
  destruct (quantize_rel _ Hs0 Hn0) as [Hs_lo Hs_hi]. fold shortfall in Hs_lo, Hs_hi.
  assert (Hs : 0 < shortfall) by (apply quantize_pos; assumption).
  assert (Hc0 : 0 < converted_shortfall fee_token shortfall price).
  { destruct fee_token; simpl.
    - apply Qlt_shift_div_l; [exact Hprice | lra].
    - apply Qmult_lt_0_compat; assumption. }
  destruct (quantize_rel _ Hc0 Hn1) as [Hc_lo Hc_hi]. fold converted in Hc_lo, Hc_hi.
  subst exact paid. unfold Decimal.half_ulp in *.
  destruct fee_token; simpl in *.
  - assert (E : shortfall / price * price == shortfall) by (field; lra).
    apply (Qmult_le_compat_r _ _ price) in Hc_lo; [|lra].
    apply (Qmult_le_compat_r _ _ price) in Hc_hi; [|lra].
    rewrite <- Qmult_assoc, E in Hc_lo. rewrite <- Qmult_assoc, E in Hc_hi.
    split; lra.
  - apply (Qmult_le_compat_r _ _ price) in Hs_lo; [|lra].
    apply (Qmult_le_compat_r _ _ price) in Hs_hi; [|lra].
    rewrite <- Qmult_assoc in Hs_lo. rewrite <- Qmult_assoc in Hs_hi.
    split; lra.
Qed.

(** C2, as the code has it: the amounts are decimals, so the shortfall and
    its conversion at the current price are each rounded to the 28 digits of
    the context.  With a positive price the charge raises the
    insufficient-funds exception exactly when the other balance is smaller
    than the converted shortfall so computed.  When the charge succeeds,
    [base_spent + quote_spent * price] equals the amount expressed in base
    units exactly if the fee-token balance covers it, and up to the rounding
    otherwise (within three half-units in the last place of the shortfall);
    the fee-token balance is left at 0 and the other balance is reduced by the
    converted shortfall.  The charge succeeds whenever the two balances
    together cover the amount and that margin, and raises whenever they fall
    short of the amount by more than it.  The exception is fatal: it is the
    result of the primitive that charged the fee and of the whole run of
    operations. *)
Theorem substract_gas_fee_conserving st cfg fee_amount :
  Base.fees_configuration st = Some cfg ->
  0 < market_price (Base.market st) ->
  let fee_token := token cfg in
  let price := market_price (Base.market st) in
  let fee_bal := balance (Base.broker st) fee_token in
  let other_bal := balance (Base.broker st) (other_token fee_token) in
  let shortfall := Decimal.quantize (fee_amount - fee_bal) in
  let converted := Decimal.quantize (converted_shortfall fee_token shortfall price) in
  let combined := combined_in_fee_token fee_token (Base.broker st) price in
  let margin := 3 * Decimal.half_ulp * (fee_amount - fee_bal) in
  (fee_amount <= fee_bal -> Decimal.in_range (fee_bal - fee_amount) ->
   exists st' base_spent quote_spent,
     Base.substract_gas_fee fee_amount st = Ok (st', (base_spent, quote_spent))
     /\ base_spent + quote_spent * price == in_base_units fee_token fee_amount price
     /\ balance (Base.broker st') fee_token = Decimal.quantize (fee_bal - fee_amount)
     /\ balance (Base.broker st') (other_token fee_token) = other_bal)
  /\ (fee_bal < fee_amount ->
      Decimal.normal (fee_amount - fee_bal) ->
      Decimal.normal (converted_shortfall fee_token shortfall price) ->
      (Base.substract_gas_fee fee_amount st = Raise InsufficientFunds
       <-> other_bal < converted)
      /\ (converted <= other_bal -> Decimal.in_range (other_bal - converted) ->
          exists st' base_spent quote_spent,
            Base.substract_gas_fee fee_amount st = Ok (st', (base_spent, quote_spent))
            /\ Qabs (base_spent + quote_spent * price
                     - in_base_units fee_token fee_amount price)
               <= in_base_units fee_token margin price
            /\ balance (Base.broker st') fee_token = 0
            /\ balance (Base.broker st') (other_token fee_token)
               = Decimal.quantize (other_bal - converted))
      /\ (fee_amount + margin <= combined -> converted <= other_bal)
      /\ (combined + margin < fee_amount -> other_bal < converted))
  /\ (forall init_price configuration,
        Base.get_fee_rate_for_year (Utils.year (market_timestamp (Base.market st))) st
        = Ok configuration ->
        Base.substract_gas_fee (swap_in configuration) st = Raise InsufficientFunds ->
        Base.symmetrical_rebalance init_price st = Raise InsufficientFunds)
  /\ (forall (ops1 ops2 : list (Base.Operation (M := M))) op st0 e,
        Base.perform_all opened_hook ops1 st0 = Ok st ->
        Base.perform opened_hook op st = Raise e ->
        Base.perform_all opened_hook (ops1 ++ op :: ops2) st0 = Raise e).
Proof.
  intros Hcfg Hprice fee_token price fee_bal other_bal shortfall converted combined margin.
  destruct (substract_gas_fee_cases st cfg fee_amount Hcfg Hprice) as (Hfull & Hsplit).
  fold fee_token in Hfull, Hsplit. fold price in Hsplit.
  fold fee_bal in Hfull, Hsplit. fold other_bal in Hsplit.
  fold shortfall in Hsplit. fold converted in Hsplit.
  split; [|split; [|split]].
  - intros Hle Hr. rewrite (Hfull Hle Hr).
    subst other_bal. destruct fee_token; eexists _, _, _;
      (split; [reflexivity|]); (split; [simpl; ring|]); simpl; auto.
  - intros Hlt Hn0 Hn1.
    destruct (Hsplit Hlt (normal_in_range _ Hn0) (normal_in_range _ Hn1))
      as (Hpay & Hfail & Hnot).
    assert (Hs0 : 0 < fee_amount - fee_bal) by lra.
    pose proof (converted_shortfall_error fee_token _ price Hprice Hs0 Hn0 Hn1) as Herr.
    cbv zeta in Herr. fold shortfall in Herr. fold converted in Herr.
    destruct Herr as [Hlo Hhi].
    split; [|split; [|split]].
    + split; [|exact Hfail]. intros Hr.
      apply Qnot_le_lt. intros Hcov. exact (Hnot Hcov Hr).
    + intros Hcov Hr. rewrite (Hpay Hcov Hr).
      subst other_bal margin. unfold Decimal.half_ulp in *.
      destruct fee_token; eexists _, _, _; (split; [reflexivity|]);
        (split; [|simpl; auto]); cbn [in_base_units] in *;
        apply Qabs_Qle_condition; split; lra.
    + subst combined margin other_bal fee_bal price. unfold Decimal.half_ulp in *.
      destruct fee_token; simpl in *; intros Hcomb.
      * apply (Qmult_le_r _ _ (market_price (Base.market st))); [exact Hprice|]. lra.
      * set (p := market_price (Base.market st)) in *.
        set (x := base_balance (Base.broker st) / p) in *.
        assert (Ex : x * p == base_balance (Base.broker st)) by (subst x; field; lra).
        assert (Hx : (fee_amount - quote_balance (Base.broker st)
                      + 3 * (5 # 10000000000000000000000000000)
                        * (fee_amount - quote_balance (Base.broker st))) * p
                     <= x * p).
        { apply Qmult_le_compat_r; lra. }
        lra.
    + subst combined margin other_bal fee_bal price. unfold Decimal.half_ulp in *.
      destruct fee_token; simpl in *; intros Hcomb.
      * apply (Qmult_lt_r _ _ (market_price (Base.market st))); [exact Hprice|]. lra.
      * set (p := market_price (Base.market st)) in *.
        set (x := base_balance (Base.broker st) / p) in *.
        assert (Ex : x * p == base_balance (Base.broker st)) by (subst x; field; lra).
        assert (Hx : x * p
                     < (fee_amount - quote_balance (Base.broker st)
                        - 3 * (5 # 10000000000000000000000000000)
                          * (fee_amount - quote_balance (Base.broker st))) * p).
        { apply Qmult_lt_r; [exact Hprice | lra]. }
        lra.
  - intros init_price configuration Hrate He.
    unfold Base.symmetrical_rebalance, Base.charge_fee. rewrite Hcfg, Hrate. simpl.
    rewrite He. reflexivity.
  - intros ops1 ops2 op st0 e. apply perform_all_raise.
Qed.

End FeeFailure.

(** C2 does not hold of the code as the claim states it.  With a fee of 1
    in base, no base, one quote and a price of 3, the balances cover the fee
    and the charge succeeds, but it spends 0.3333333333333333333333333333
    quote, which is worth less than 1 base.  With a fee of 5, 4 base, that
    same amount of quote and a price of 3, the balances together are worth
    less than 5 base, and the charge succeeds all the same. *)
Lemma substract_gas_fee_rounds_the_conversion :
  (1 <= combined_in_fee_token BaseToken
          (Base.broker (Sim.strategy 3 0 0 1 (Some (mkFeesConfiguration BaseToken ∅)) tt)) 3
   /\ exists st' base_spent quote_spent,
        Base.substract_gas_fee 1
          (Sim.strategy 3 0 0 1 (Some (mkFeesConfiguration BaseToken ∅)) tt)
        = Ok (st', (base_spent, quote_spent))
        /\ ~ base_spent + quote_spent * 3 == in_base_units BaseToken 1 3)
  /\ (combined_in_fee_token BaseToken
        (Base.broker (Sim.strategy 3 0 4 (3333333333333333333333333333 # 10000000000000000000000000000)
                        (Some (mkFeesConfiguration BaseToken ∅)) tt)) 3 < 5
      /\ exists st' spent,
           Base.substract_gas_fee 5
             (Sim.strategy 3 0 4 (3333333333333333333333333333 # 10000000000000000000000000000)
                (Some (mkFeesConfiguration BaseToken ∅)) tt)
           = Ok (st', spent)).
Proof.
  split; split.
  - vm_compute. discriminate.
  - eexists _, _, _. split; [vm_compute; reflexivity|]. vm_compute. discriminate.
  - vm_compute. reflexivity.
  - eexists _, _. vm_compute. reflexivity.
Qed.

Lemma substract_gas_fee_conserving_witness :
  (exists st' base_spent quote_spent,
      Base.substract_gas_fee 10
        (Sim.strategy 2 0 4 100 (Some (mkFeesConfiguration BaseToken ∅)) tt)
      = Ok (st', (base_spent, quote_spent))
      /\ Qabs (base_spent + quote_spent * 2 - 10) <= 3 * Decimal.half_ulp * (10 - 4)
      /\ base_balance (Base.broker st') = 0
      /\ quote_balance (Base.broker st') == 97)
  /\ Base.substract_gas_fee 10
       (Sim.strategy 2 0 4 1 (Some (mkFeesConfiguration BaseToken ∅)) tt)
     = Raise InsufficientFunds.
Proof.
  split.
  - pose proof (substract_gas_fee_conserving (fun _ _ _ _ s => s)
                  (Sim.strategy 2 0 4 100 (Some (mkFeesConfiguration BaseToken ∅)) tt)
                  (mkFeesConfiguration BaseToken ∅) 10 eq_refl eq_refl) as W.
    cbv zeta in W. destruct W as (_ & W & _).
    feed W by reflexivity.
    feed W by (apply (normal_between 0 1); vm_compute; congruence).
    feed W by (apply (normal_between 0 1); vm_compute; congruence).
    destruct W as (_ & W & _).
    feed W by (vm_compute; congruence).
    feed W by (apply (in_range_below 2); vm_compute; congruence).
    destruct W as (st' & base_spent & quote_spent & E & Hb & Hf & Ho).
    exists st', base_spent, quote_spent.
    split; [exact E|]. split; [exact Hb|]. split; [exact Hf|].
    simpl in Ho. rewrite Ho. vm_compute. reflexivity.
  - pose proof (substract_gas_fee_conserving (fun _ _ _ _ s => s)
                  (Sim.strategy 2 0 4 1 (Some (mkFeesConfiguration BaseToken ∅)) tt)
                  (mkFeesConfiguration BaseToken ∅) 10 eq_refl eq_refl) as W.
    cbv zeta in W. destruct W as (_ & W & _).
    feed W by reflexivity.
    feed W by (apply (normal_between 0 1); vm_compute; congruence).
    feed W by (apply (normal_between 0 1); vm_compute; congruence).
    destruct W as (W & _).
    apply W. vm_compute. reflexivity.
Defined.

(** ** The displacement checks (strategies/brokkr_strategy.py) *)

Section Thresholds.
Context {M : Type} `{Market M} {S : Type}.
Implicit Types (st : Base.Strategy M S).

(** The bounds check of [position_range_threshold_reached] fires exactly for
    a negative threshold; a threshold above 100 passes it. *)
Lemma position_range_threshold_reached_raises st position up down start :
  Base.position_range_threshold_reached position up down start st
  = Raise ThresholdOutOfBounds
  <-> (up < 0 \/ down < 0).
Proof.
  unfold Base.position_range_threshold_reached.
  destruct (Base.get_low_high_borders st position) as [lower upper].
  destruct (Qlt_bool up 0) eqn:Eu; destruct (Qlt_bool down 0) eqn:Ed;
    rewrite ?andb_true_r, ?andb_false_r, ?orb_false_r.
  1-3: try (apply Qlt_bool_true in Eu); try (apply Qlt_bool_true in Ed);
       try (apply Qlt_bool_false in Eu); try (apply Qlt_bool_false in Ed).
  - assert (Hu : Qgt_bool 100 up = true) by (apply Qgt_bool_true; lra).
    rewrite Hu. simpl. split; auto.
  - assert (Hu : Qgt_bool 100 up = true) by (apply Qgt_bool_true; lra).
    rewrite Hu. simpl. split; auto.
  - assert (Hd : Qgt_bool 100 down = true) by (apply Qgt_bool_true; lra).
    rewrite Hd. simpl. split; auto.
  - apply Qlt_bool_false in Eu. apply Qlt_bool_false in Ed. simpl.
    split; [|intros [?|?]; lra].
    repeat match goal with
           | |- context [if ?b then _ else _] => destruct b
           end; try discriminate;
      unfold pdiv; destruct (Qeq_bool _ _); discriminate.
Qed.

(** The sibling check [is_position_out_of_range] rejects both sides. *)
Lemma is_position_out_of_range_raises st position threshold :
  Base.is_position_out_of_range position threshold st = Raise ThresholdOutOfBounds
  <-> (threshold < 0 \/ 100 < threshold).
Proof.
  unfold Base.is_position_out_of_range.
  destruct (Base.get_low_high_borders st position) as [lower upper].
  destruct (Qlt_bool threshold 0) eqn:E0; destruct (Qgt_bool threshold 100) eqn:E1; simpl.
  1-3: try (apply Qlt_bool_true in E0); try (apply Qgt_bool_true in E1);
       split; auto.
  apply Qlt_bool_false in E0. apply Qgt_bool_false in E1.
  split; [|intros [?|?]; lra].
  repeat match goal with
         | |- context [if ?b then _ else _] => destruct b
         end; try discriminate;
    unfold pdiv; destruct (Qeq_bool _ _); discriminate.
Qed.

End Thresholds.

(** C3 (the code departs from it): [position_range_threshold_reached]
    raises its bounds error exactly when a threshold is negative, so a
    threshold above 100 is accepted, while [is_position_out_of_range] rejects
    both sides.  With thresholds up = 150 and down = 50 on a position
    [95, 105] at price 102 the check returns [False] instead of raising. *)
Theorem position_range_threshold_reached_accepts_above_100 :
  (forall (M : Type) (HM : Market M) (S : Type) (st : Base.Strategy M S)
          position up down start,
      Base.position_range_threshold_reached position up down start st
      = Raise ThresholdOutOfBounds
      <-> (up < 0 \/ down < 0))
  /\ (forall (M : Type) (HM : Market M) (S : Type) (st : Base.Strategy M S)
             position threshold,
        Base.is_position_out_of_range position threshold st = Raise ThresholdOutOfBounds
        <-> (threshold < 0 \/ 100 < threshold))
  /\ Base.position_range_threshold_reached (95, 105)%Z 150 50 (Some 100)
       (Sim.strategy 102 0 0 0 None tt)
     = Ok false
  /\ Base.is_position_out_of_range (95, 105)%Z 150 (Sim.strategy 102 0 0 0 None tt)
     = Raise ThresholdOutOfBounds.
Proof.
  split; [|split; [|split]].
  - intros. apply position_range_threshold_reached_raises.
  - intros. apply is_position_out_of_range_raises.
  - reflexivity.
  - reflexivity.
Qed.

(** ** Zero-fee mode (strategies/brokkr_strategy.py) *)

Section ZeroFee.
Context {M : Type} `{Market M} {S : Type}.
Variable opened_hook : Z -> Q -> Q -> option RebalanceDirection -> S -> S.
Implicit Types (st : Base.Strategy M S).

Lemma count_ops_cons kind (op : Base.Operation (M := M)) ops :
  Base.count_ops kind (op :: ops)
  = ((if kind op then 1 else 0) + Base.count_ops kind ops)%Z.
Proof. unfold Base.count_ops. simpl. destruct (kind op); simpl; lia. Qed.

(** One operation without a fee configuration. *)
Lemma perform_zero_fee op st :
  Base.fees_configuration st = None ->
  exists st',
    Base.perform opened_hook op st = Ok st'
    /\ Base.fees_configuration st' = None
    /\ (Base.market st', Base.broker st')
       = Base.market_effect op (Base.market st, Base.broker st)
    /\ rebalances_cost (Base.stats st') = rebalances_cost (Base.stats st)
    /\ providing_lp_cost (Base.stats st') = providing_lp_cost (Base.stats st)
    /\ withdrawing_lp_cost (Base.stats st') = withdrawing_lp_cost (Base.stats st)
    /\ rebalances_count (Base.stats st')
       = (rebalances_count (Base.stats st) + if Base.is_rebalance op then 1 else 0)%Z
    /\ providing_lp_count (Base.stats st')
       = (providing_lp_count (Base.stats st) + if Base.is_providing op then 1 else 0)%Z
    /\ withdrawing_lp_count (Base.stats st')
       = (withdrawing_lp_count (Base.stats st) + if Base.is_withdrawing op then 1 else 0)%Z.
Proof.
  intros Hcfg. destruct op as [p|lo hi bm qm d|pos liq|m]; simpl.
  - unfold Base.symmetrical_rebalance. rewrite Hcfg. simpl.
    eexists. split; [reflexivity|]. simpl.
    destruct (market_even_rebalance _ _) as [m b]. simpl.
    repeat split; auto; lia.
  - unfold Base.add_liquidity_custom_range. rewrite Hcfg. simpl.
    destruct (market_add_liquidity _ _ _ _ _) as [o [m b]] eqn:E. simpl.
    eexists. split; [reflexivity|]. simpl.
    repeat split; auto; lia.
  - unfold Base.remove_liquidity.
    destruct (market_remove_liquidity _ _ _) as [r [m b]] eqn:E. simpl.
    rewrite Hcfg. eexists. split; [reflexivity|]. simpl.
    repeat split; auto; lia.
  - eexists. split; [reflexivity|]. simpl. repeat split; auto; lia.
Qed.

(** C9: without a fee configuration the run does not abort on fees: every
    sequence of rebalances, liquidity provisions and removals completes; the
    balances and the market are exactly what the pool collaborator alone
    makes of them (nothing is deducted); the three cumulative cost fields
    keep their initial value (0 at the start of a run), and only the three
    counters change, each by the number of operations of its kind.
    [initialize] itself, when no configuration is found, raises nothing and
    hands over to the subclass with the statistics and balances untouched.
    The same holds of [asymmetrical_rebalance], which no strategy calls. *)
Theorem zero_fee_mode (ops : list (Base.Operation (M := M))) st :
  Base.fees_configuration st = None ->
  (exists st',
      Base.perform_all opened_hook ops st = Ok st'
      /\ Base.fees_configuration st' = None
      /\ (Base.market st', Base.broker st')
         = fold_left (fun mb op => Base.market_effect op mb) ops
             (Base.market st, Base.broker st)
      /\ rebalances_cost (Base.stats st') = rebalances_cost (Base.stats st)
      /\ providing_lp_cost (Base.stats st') = providing_lp_cost (Base.stats st)
      /\ withdrawing_lp_cost (Base.stats st') = withdrawing_lp_cost (Base.stats st)
      /\ rebalances_count (Base.stats st')
         = (rebalances_count (Base.stats st) + Base.count_ops Base.is_rebalance ops)%Z
      /\ providing_lp_count (Base.stats st')
         = (providing_lp_count (Base.stats st) + Base.count_ops Base.is_providing ops)%Z
      /\ withdrawing_lp_count (Base.stats st')
         = (withdrawing_lp_count (Base.stats st)
            + Base.count_ops Base.is_withdrawing ops)%Z)
  /\ (forall pool_fee_rate initialize_custom,
        ~ market_price (Base.market st) == 0 ->
        exists st0,
          Base.initialize true None pool_fee_rate initialize_custom st
          = initialize_custom st0
          /\ Base.fees_configuration st0 = None
          /\ Base.stats st0 = Base.stats st
          /\ Base.broker st0 = Base.broker st)
  /\ (forall init_price,
        ~ init_price == 0 ->
        exists st' mb,
          Base.market_asymmetric_rebalance init_price (Base.market st, Base.broker st)
          = Ok mb
          /\ Base.asymmetrical_rebalance init_price st = Ok st'
          /\ (Base.market st', Base.broker st') = mb
          /\ Base.stats st' = Base.incr_rebalances_count (Base.stats st)).
Proof.
  intros Hcfg. split; [|split].
  - revert st Hcfg. induction ops as [|op ops IH]; intros st Hcfg.
    + exists st. simpl. unfold Base.count_ops. simpl.
      repeat split; auto; lia.
    + destruct (perform_zero_fee op st Hcfg)
        as (st1 & E & Hcfg1 & Hmb & C1 & C2 & C3 & N1 & N2 & N3).
      destruct (IH st1 Hcfg1) as (st' & E' & Hcfg' & Hmb' & C1' & C2' & C3' & N1' & N2' & N3').
      exists st'. simpl. rewrite E. simpl. rewrite <- Hmb.
      rewrite !count_ops_cons.
      repeat split; try congruence; lia.
  - intros r ic Hp. unfold Base.initialize. simpl.
    rewrite pdiv_ok by exact Hp. simpl. eexists. split; [reflexivity|]. simpl. auto.
  - intros p Hp. unfold Base.asymmetrical_rebalance. rewrite Hcfg. simpl.
    destruct (Base.market_asymmetric_rebalance p (Base.market st, Base.broker st))
      as [[m b]|e] eqn:E.
    + simpl. eexists _, _. repeat split.
    + exfalso. unfold Base.market_asymmetric_rebalance in E.
      rewrite pdiv_ok in E by exact Hp. simpl in E.
      repeat match type of E with
             | context [if ?c then _ else _] => destruct c
             end; discriminate.
Qed.

End ZeroFee.

Lemma zero_fee_mode_witness :
  exists st',
    Base.perform_all (fun _ _ _ _ s => s)
      [Base.SymmetricalRebalance 2;
       Base.AddLiquidityCustomRange 1 3 None None None;
       Base.NextBar (Sim.mkPool 4 60 [((1, 3)%Z, 1000%Z)]);
       Base.RemoveLiquidity (1, 3)%Z None]
      (Sim.strategy 2 0 100 0 None tt)
    = Ok st'
    /\ rebalances_cost (Base.stats st') = 0
    /\ providing_lp_cost (Base.stats st') = 0
    /\ withdrawing_lp_cost (Base.stats st') = 0
    /\ rebalances_count (Base.stats st') = 1%Z
    /\ providing_lp_count (Base.stats st') = 1%Z
    /\ withdrawing_lp_count (Base.stats st') = 1%Z.
Proof.
  destruct (proj1 (zero_fee_mode (fun _ _ _ _ s => s)
      [Base.SymmetricalRebalance 2;
       Base.AddLiquidityCustomRange 1 3 None None None;
       Base.NextBar (Sim.mkPool 4 60 [((1, 3)%Z, 1000%Z)]);
       Base.RemoveLiquidity (1, 3)%Z None]
      (Sim.strategy 2 0 100 0 None tt) eq_refl))
    as (st' & E & _ & _ & C1 & C2 & C3 & N1 & N2 & N3).
  exists st'. repeat split; assumption.
Defined.

(** ** The laddered policies B and C *)

Section LadderFacts.
Context {M : Type} `{Market M}.
Variable c : Ladder.Config.
Implicit Types (st : Base.Strategy M Ladder.Fields).
#[local] Open Scope Z_scope.

(** The hook of either variant leaves the day counters and the widest-tier
    mark alone. *)
Lemma opened_hook_frame timestamp lower upper direction f :
  Ladder.day_to_rebalance_count (Ladder.opened_hook c timestamp lower upper direction f)
  = Ladder.day_to_rebalance_count f
  /\ Ladder.max_range_active_since (Ladder.opened_hook c timestamp lower upper direction f)
     = Ladder.max_range_active_since f.
Proof. unfold Ladder.opened_hook. destruct (Ladder.variant c); auto. Qed.

Lemma ladder_rebalance_frame range st st' :
  Ladder.rebalance_and_add_symmetric_liquidity c range st = Ok st' ->
  Ladder.day_to_rebalance_count (Base.custom st')
  = Ladder.day_to_rebalance_count (Base.custom st)
  /\ Ladder.max_range_active_since (Base.custom st')
     = Ladder.max_range_active_since (Base.custom st)
  /\ rebalances_count (Base.stats st') = rebalances_count (Base.stats st) + 1.
Proof.
  unfold Ladder.rebalance_and_add_symmetric_liquidity. intros Hr. bind_inv Hr.
  destruct a as [st1 o]. injection Hr as <-.
  apply rebalance_and_add_symmetric_liquidity_frame in Ha
    as ((ts & lo & hi & d & E1) & _ & E3).
  rewrite E1. destruct (opened_hook_frame ts lo hi d (Base.custom st)) as [-> ->]. auto.
Qed.

(** In strategy C every opening records the timestamp the market shows. *)
Lemma add_liquidity_records_opening minutes lower upper base_max quote_max direction
    st st' opened :
  Ladder.variant c = Ladder.StrategyC minutes ->
  Base.add_liquidity_custom_range (Ladder.opened_hook c) lower upper base_max quote_max
    direction st = Ok (st', opened) ->
  Ladder.last_successful_rebalance (Base.custom st') = market_timestamp (Base.market st').
Proof.
  intros Hv Ha. apply add_liquidity_custom_range_frame in Ha as (E & _).
  rewrite E. unfold Ladder.opened_hook. rewrite Hv. reflexivity.
Qed.

(** C8: in strategy C, on a bar whose timestamp (the timestamp [ts] of the
    latest account status, which [can_rebalance] reads, or any later reading
    [t] of the bar's time) is less than
    [min_time_between_rebalances_in_minutes] after the recorded last
    successful rebalance, [on_bar] does nothing but take the runner's market
    update: no rebalance is performed and the rebalance counter is unchanged.
    The recorded time is that of the last position opening. *)
Theorem cooldown_blocks_rebalance minutes (bar : Bar M) ts t st :
  Ladder.variant c = Ladder.StrategyC minutes ->
  bar_timestamp bar = Some ts ->
  ts <= t ->
  t - Ladder.last_successful_rebalance (Base.custom st) < minutes * 60 ->
  Ladder.on_bar c bar st = Ok (Base.set_market st (bar_market bar))
  /\ (forall st', Ladder.on_bar c bar st = Ok st' -> Ladder.rebalances_done st st' = 0)
  /\ (forall lower upper base_max quote_max direction st0 st1 opened,
        Base.add_liquidity_custom_range (Ladder.opened_hook c) lower upper base_max
          quote_max direction st0 = Ok (st1, opened) ->
        Ladder.last_successful_rebalance (Base.custom st1)
        = market_timestamp (Base.market st1)).
Proof.
  intros Hv Hts Hle Hlt.
  assert (E : Ladder.on_bar c bar st = Ok (Base.set_market st (bar_market bar))).
  { unfold Ladder.on_bar, Ladder.on_bar_custom, bar_timestamp in *.
    destruct (bar_account_status bar) as [|s0 rest] eqn:Eas; [discriminate|].
    unfold Ladder.can_rebalance. rewrite Hv.
    destruct (last (s0 :: rest)) as [s|]; [|discriminate].
    injection Hts as <-. simpl.
    unfold Ladder.is_older_than.
    destruct (Z.leb_spec (minutes * 60)
                (as_timestamp s - Ladder.last_successful_rebalance (Base.custom st)));
      [lia|reflexivity]. }
  split; [exact E|]. split.
  - intros st' E'. rewrite E in E'. injection E' as <-.
    unfold Ladder.rebalances_done. simpl. lia.
  - intros. eapply add_liquidity_records_opening; eauto.
Qed.

End LadderFacts.

(** *** The calendar key *)

Lemma timestamp_to_key_inj_day (t1 t2 : Z) :
  Utils.timestamp_to_key t1 = Utils.timestamp_to_key t2 ->
  Utils.days_since_epoch t1 = Utils.days_since_epoch t2.
Proof.
  unfold Utils.timestamp_to_key, Utils.dayofyear. intros [= Hy Hd].
  rewrite Hy in Hd. lia.
Qed.

Lemma one_day_later_other_key (t1 t2 : Z) :
  (t1 + 86400 <= t2)%Z -> Utils.timestamp_to_key t1 <> Utils.timestamp_to_key t2.
Proof.
  intros Hle Hk. apply timestamp_to_key_inj_day in Hk.
  unfold Utils.days_since_epoch in Hk.
  assert (t1 / 86400 + 1 <= t2 / 86400)%Z.
  { replace (t1 / 86400 + 1)%Z with ((t1 + 1 * 86400) / 86400)%Z
      by (rewrite Z.div_add by lia; lia).
    apply Z.div_le_mono; lia. }
  lia.
Qed.

Example timestamp_to_key_examples :
  Utils.timestamp_to_key 1673740800 = (2023, 15)%Z
  /\ Utils.timestamp_to_key 1609372800 = (2020, 366)%Z
  /\ Utils.timestamp_to_key 1609459200 = (2021, 1)%Z
  /\ Utils.timestamp_to_key 951782400 = (2000, 60)%Z
  /\ Utils.timestamp_to_key 0 = (1970, 1)%Z
  /\ Utils.timestamp_to_key 1709251200 = (2024, 61)%Z
  /\ Utils.timestamp_to_key (-86400) = (1969, 365)%Z
  /\ Utils.timestamp_to_key 4133894400 = (2100, 365)%Z
  /\ Utils.timestamp_to_key (1673740800 + 86399) = (2023, 15)%Z.
Proof. repeat split; reflexivity. Qed.

Section LadderDay.
Context {M : Type} `{Market M}.
Variable c : Ladder.Config.
Implicit Types (st : Base.Strategy M Ladder.Fields).
#[local] Open Scope Z_scope.

Hypothesis caps_nonneg : Forall (fun m => 0 <= m) (Ladder.max_rebalances c).

Lemma foldr_add_nonneg (l : list Z) : Forall (fun m => 0 <= m) l -> 0 <= foldr Z.add 0 l.
Proof. induction 1; simpl; lia. Qed.

Lemma foldr_add_app (l1 l2 : list Z) :
  foldr Z.add 0 (l1 ++ l2) = foldr Z.add 0 l1 + foldr Z.add 0 l2.
Proof. induction l1 as [|x l1 IH]; simpl; [lia|]. rewrite IH. lia. Qed.

Lemma total_nonneg : 0 <= Ladder.max_rebalances_total c.
Proof. apply foldr_add_nonneg, caps_nonneg. Qed.

Lemma take_sum_le (i : nat) :
  foldr Z.add 0 (take i (Ladder.max_rebalances c)) <= Ladder.max_rebalances_total c.
Proof.
  unfold Ladder.max_rebalances_total.
  pose proof (foldr_add_app (take i (Ladder.max_rebalances c))
                (drop i (Ladder.max_rebalances c))) as E.
  rewrite take_drop in E.
  assert (Hd : 0 <= foldr Z.add 0 (drop i (Ladder.max_rebalances c))).
  { apply foldr_add_nonneg. now apply Forall_drop. }
  lia.
Qed.

(** The tier walk hands out a range only while the day's counter is below
    the sum of the caps. *)
Lemma range_for_rebalance_budget rs : forall i acc count range,
  acc = foldr Z.add 0 (take i (Ladder.max_rebalances c)) ->
  Ladder.range_for_rebalance c rs i acc count = Ok range ->
  Qlt_bool range 0 = false ->
  count < Ladder.max_rebalances_total c.
Proof.
  induction rs as [|r rs IH]; simpl; intros i acc count range Hacc Hr Hneg.
  - injection Hr as <-. discriminate.
  - destruct (Ladder.max_rebalances c !! i) as [m|] eqn:Em; [|discriminate].
    assert (Hacc' : acc + m = foldr Z.add 0 (take (S i) (Ladder.max_rebalances c))).
    { rewrite (take_S_r _ _ _ Em), foldr_add_app. simpl. lia. }
    destruct (Z.ltb_spec count (acc + m)).
    + pose proof (take_sum_le (S i)). lia.
    + eapply IH; eauto.
Qed.

Lemma setdefault_spec (d : gmap (Z * Z) Z) key d' v :
  Ladder.setdefault d key = (d', v) ->
  v = default 0 (d !! key) /\ forall k, default 0 (d' !! k) = default 0 (d !! k).
Proof.
  unfold Ladder.setdefault. destruct (d !! key) as [x|] eqn:E; intros [= <- <-].
  - auto.
  - split; [reflexivity|]. intros k. destruct (decide (k = key)) as [->|Hne].
    + rewrite lookup_insert_eq, E. reflexivity.
    + rewrite lookup_insert_ne by congruence. reflexivity.
Qed.

Lemma on_rebalance_needed_effect ts st st' :
  Ladder.on_rebalance_needed c ts st = Ok st' ->
  Ladder.bar_effect c ts st st'.
Proof.
  unfold Ladder.on_rebalance_needed.
  destruct (Ladder.setdefault _ _) as [d count] eqn:Esd.
  apply setdefault_spec in Esd as [Hcount Hd].
  intros Hr. bind_inv Hr.
  destruct (Qlt_bool a 0) eqn:Eneg.
  - injection Hr as <-. apply Ladder.bar_idle; simpl; auto.
  - bind_inv Hr. bind_inv Hr. injection Hr as <-.
    apply ladder_rebalance_frame in Ha0 as (Ed & Em & En). simpl in Ed, Em.
    assert (Hbudget : count < Ladder.max_rebalances_total c).
    { apply (range_for_rebalance_budget (Ladder.ranges c) 0%nat 0 count a);
        [reflexivity | exact Ha | exact Eneg]. }
    apply Ladder.bar_ladder; simpl.
    + exact En.
    + destruct (Qeq_bool a a1); simpl; auto.
    + unfold Ladder.rebalanced_count. rewrite <- Hcount. exact Hbudget.
    + unfold Ladder.rebalanced_count. simpl.
      destruct (Qeq_bool a a1); simpl; rewrite lookup_insert_eq; simpl; congruence.
    + intros k Hk. unfold Ladder.rebalanced_count. simpl.
      destruct (Qeq_bool a a1); simpl; rewrite lookup_insert_ne by congruence;
        rewrite Ed; apply Hd.
Qed.

Lemma on_bar_effect (bar : Bar M) ts st st' :
  bar_timestamp bar = Some ts ->
  Ladder.on_bar c bar st = Ok st' ->
  Ladder.bar_effect c ts st st'.
Proof.
  intros Hts. unfold Ladder.on_bar, Ladder.on_bar_custom, bar_timestamp in *.
  destruct (bar_account_status bar) as [|s0 rest] eqn:Eas; [discriminate|].
  intros Hr. bind_inv Hr.
  destruct a.
  2:{ injection Hr as <-. apply Ladder.bar_idle; simpl; auto. }
  unfold Ladder.handle_current_timestamp in Hr.
  destruct (last (s0 :: rest)) as [s|]; [|discriminate].
  injection Hts as <-. simpl in Hr.
  destruct (0 <? Ladder.max_range_active_since (Base.custom st)) eqn:Epos; simpl in Hr.
  - unfold Utils.is_one_day_or_older in Hr.
    destruct (86400 <=? as_timestamp s - Ladder.max_range_active_since (Base.custom st))
      eqn:Eday.
    + bind_inv Hr. bind_inv Hr. injection Hr as <-.
      apply ladder_rebalance_frame in Ha1 as (Ed & Em & En). simpl in Ed, Em, En.
      apply Z.ltb_lt in Epos. apply Z.leb_le in Eday.
      apply Ladder.bar_forced; simpl; auto; try lia.
      * unfold Ladder.rebalanced_count. simpl. now rewrite lookup_insert_eq.
      * intros k Hk. unfold Ladder.rebalanced_count. simpl.
        rewrite lookup_insert_ne by congruence. now rewrite Ed.
    + bind_inv Hr. destruct a.
      * apply on_rebalance_needed_effect in Hr.
        destruct Hr; [apply Ladder.bar_idle | apply Ladder.bar_forced | apply Ladder.bar_ladder]; auto.
      * injection Hr as <-. apply Ladder.bar_idle; simpl; auto.
  - bind_inv Hr. destruct a.
    + apply on_rebalance_needed_effect in Hr.
      destruct Hr; [apply Ladder.bar_idle | apply Ladder.bar_forced | apply Ladder.bar_ladder]; auto.
    + injection Hr as <-. apply Ladder.bar_idle; simpl; auto.
Qed.

Lemma day_invariant_step day lo done ts st st' :
  Ladder.day_invariant c day lo done st ->
  lo <= ts ->
  Ladder.bar_effect c ts st st' ->
  Ladder.day_invariant c day ts
    (done + if bool_decide (Utils.timestamp_to_key ts = day)
            then Ladder.rebalances_done st st' else 0) st'.
Proof.
  intros (Hd0 & Hcnt & Hdone & Hwit) Hlo Heff.
  pose proof total_nonneg as Htot.
  unfold Ladder.rebalances_done.
  destruct Heff as [En Em Ek | Hpos Hday En Em Ek0 Ek | En Em Hbud Ek1 Ek].
  - (* nothing happened *)
    rewrite En, Z.sub_diag.
    assert (done + (if bool_decide (Utils.timestamp_to_key ts = day) then 0 else 0) = done)
      as -> by (destruct (bool_decide _); lia).
    unfold Ladder.day_invariant. rewrite Ek, Em. repeat split; try lia.
    intros Hp. destruct (Hwit Hp) as (t & Hk & Ht & Hm).
    exists t. repeat split; auto; lia.
  - (* the forced return to the narrowest tier *)
    assert (Hzero : Utils.timestamp_to_key ts = day -> done = 0).
    { intros Hk.
      destruct (Z.eq_dec done 0) as [|Hne]; [assumption|]. exfalso.
      destruct (Hwit ltac:(lia)) as (t & Hkt & Ht & Hm).
      specialize (Hm Hpos).
      apply (one_day_later_other_key t ts); [lia | congruence]. }
    rewrite En. case_bool_decide as Hk.
    + rewrite (Hzero Hk). subst day. unfold Ladder.day_invariant. rewrite Ek0, Em.
      repeat split; try lia.
      intros _. exists ts. repeat split; auto; lia.
    + unfold Ladder.day_invariant. rewrite (Ek day), Em by congruence.
      repeat split; try lia.
      intros Hp. destruct (Hwit ltac:(lia)) as (t & Hkt & Ht & Hm).
      exists t. repeat split; auto; lia.
  - (* one counted ladder rebalance *)
    rewrite En. case_bool_decide as Hk.
    + subst day. unfold Ladder.day_invariant. rewrite Ek1.
      repeat split; try lia.
      intros _. exists ts. repeat split; auto; try lia.
    + unfold Ladder.day_invariant. rewrite (Ek day) by congruence.
      repeat split; try lia.
      intros Hp. destruct (Hwit ltac:(lia)) as (t & Hkt & Ht & Hm).
      exists t. repeat split; auto; try lia.
Qed.

Lemma rebalances_on_day_bound day (bars : list (Bar M)) : forall st lo done n,
  Ladder.day_invariant c day lo done st ->
  Ladder.nondecreasing (lo :: Ladder.bar_timestamps bars) ->
  Ladder.rebalances_on_day c day bars st = Ok n ->
  done + n <= Ladder.max_rebalances_total c + 1.
Proof.
  induction bars as [|bar bars IH]; intros st lo done n Hinv Hsorted Hrun.
  - simpl in Hrun. injection Hrun as <-.
    destruct Hinv as (_ & Hcnt & Hdone & _). lia.
  - simpl in Hrun. bind_inv Hrun. bind_inv Hrun.
    unfold Ladder.bar_timestamps in Hsorted. simpl in Hsorted.
    destruct (bar_timestamp bar) as [ts|] eqn:Ets; simpl in Hsorted.
    + destruct Hsorted as [Hlo Hsorted].
      pose proof (on_bar_effect bar ts st a Ets Ha) as Heff.
      pose proof (day_invariant_step day lo done ts st a Hinv Hlo Heff) as Hinv'.
      specialize (IH a ts _ a0 Hinv' Hsorted Ha0).
      simpl in Hrun.
      destruct (bool_decide (Utils.timestamp_to_key ts = day)) eqn:Ek.
      * rewrite bool_decide_eq_true_2 in Hrun
          by (apply bool_decide_eq_true in Ek; congruence).
        injection Hrun as <-. lia.
      * rewrite bool_decide_eq_false_2 in Hrun
          by (apply bool_decide_eq_false in Ek; congruence).
        injection Hrun as <-. lia.
    + rewrite bool_decide_eq_false_2 in Hrun by discriminate.
      injection Hrun as <-.
      assert (Ea : a = Base.set_market st (bar_market bar)).
      { unfold Ladder.on_bar, Ladder.on_bar_custom, bar_timestamp in *.
        destruct (bar_account_status bar) as [|s0 rest]; [congruence|].
        destruct (last (s0 :: rest)) eqn:El; [discriminate|].
        apply last_None in El. discriminate. }
      subst a.
      apply (IH (Base.set_market st (bar_market bar)) lo done a0);
        [exact Hinv | exact Hsorted | exact Ha0].
Qed.

(** Initialisation opens the first position and leaves the per-day
    counters and the widest-tier mark as the constructor set them; in
    strategy C it records the time of the opening. *)
Lemma initialize_custom_counters st0 st :
  Ladder.initialize_custom c st0 = Ok st ->
  Ladder.day_to_rebalance_count (Base.custom st)
  = Ladder.day_to_rebalance_count (Base.custom st0)
  /\ Ladder.max_range_active_since (Base.custom st)
     = Ladder.max_range_active_since (Base.custom st0).
Proof.
  unfold Ladder.initialize_custom. destruct (Ladder.ranges c !! 0%nat); [|discriminate].
  intros Hi. apply ladder_rebalance_frame in Hi as (E1 & E2 & _). auto.
Qed.

(** C4, as the code has it: over every run of the bar loop of strategy B or
    C with non-negative caps and bars in timestamp order, started with the
    per-day counters empty, as the constructor and [initialize_custom] of
    either strategy leave them, the number of rebalances performed on the
    bars of any one calendar day never exceeds the sum of the per-tier caps
    plus one.  The ladder rebalances are counted against the day and stay
    within the sum; the forced return to the narrowest tier after a day on the
    widest one is not counted and resets the day's counter. *)
Theorem ladder_day_budget day (bars : list (Bar M)) st n :
  Ladder.day_to_rebalance_count (Base.custom st) = ∅ ->
  Ladder.nondecreasing (Ladder.bar_timestamps bars) ->
  Ladder.rebalances_on_day c day bars st = Ok n ->
  n <= Ladder.max_rebalances_total c + 1.
Proof.
  intros Hinit Hsorted Hrun.
  pose proof total_nonneg as Htot.
  assert (Hinv : forall lo, Ladder.day_invariant c day lo 0 st).
  { intros lo. unfold Ladder.day_invariant, Ladder.rebalanced_count. rewrite Hinit.
    rewrite lookup_empty. simpl. repeat split; try lia. }
  destruct (Ladder.bar_timestamps bars) as [|t0 ts] eqn:Ets.
  - pose proof (rebalances_on_day_bound day bars st 0 0 n (Hinv 0)) as Hb.
    rewrite Ets in Hb. apply Hb in Hrun; simpl; auto.
  - pose proof (rebalances_on_day_bound day bars st t0 0 n (Hinv t0)) as Hb.
    rewrite Ets in Hb. apply Hb in Hrun; [lia|].
    split; [lia|exact Hsorted].
Qed.

End LadderDay.

Lemma ladder_day_budget_witness :
  (3 <= Ladder.max_rebalances_total Scenario.ladder_b + 1)%Z
  /\ (1 <= Ladder.max_rebalances_total Scenario.ladder_c + 1)%Z.
Proof.
  split.
  - apply (ladder_day_budget Scenario.ladder_b
             ltac:(repeat constructor; vm_compute; congruence)
             (1970, 2)%Z Scenario.ladder_b_bars Scenario.ladder_b_start 3%Z).
    + vm_compute. reflexivity.
    + vm_compute. intuition congruence.
    + vm_compute. reflexivity.
  - apply (ladder_day_budget Scenario.ladder_c
             ltac:(repeat constructor; vm_compute; congruence)
             (1970, 1)%Z Scenario.ladder_c_bars Scenario.ladder_c_start 1%Z).
    + vm_compute. reflexivity.
    + vm_compute. intuition congruence.
    + vm_compute. reflexivity.
Defined.

(** C4, as stated, fails: with caps summing to 2, three rebalances are
    performed on 1970-01-02: the forced return to the narrowest tier, a day
    after the widest tier was entered, and then two ladder rebalances counted
    from the reset counter. *)
Lemma ladder_day_cap_exceeded :
  Ladder.rebalances_on_day Scenario.ladder_b (1970, 2)%Z
    Scenario.ladder_b_bars Scenario.ladder_b_start = Ok 3%Z
  /\ Ladder.max_rebalances_total Scenario.ladder_b = 2%Z
  /\ Base.custom Scenario.ladder_b_start = Ladder.Fields_init
  /\ Ladder.bar_timestamps Scenario.ladder_b_bars = [60; 120; 86520; 86580; 86640]%Z
  /\ ~ (forall (c : Ladder.Config) (day : Z * Z) (bars : list (Bar Sim.Pool))
               (st : Base.Strategy Sim.Pool Ladder.Fields) (n : Z),
          Forall (fun m => 0 <= m)%Z (Ladder.max_rebalances c) ->
          Base.custom st = Ladder.Fields_init ->
          Ladder.nondecreasing (Ladder.bar_timestamps bars) ->
          Ladder.rebalances_on_day c day bars st = Ok n ->
          (n <= Ladder.max_rebalances_total c)%Z).
Proof.
  assert (Hrun : Ladder.rebalances_on_day Scenario.ladder_b (1970, 2)%Z
                   Scenario.ladder_b_bars Scenario.ladder_b_start = Ok 3%Z)
    by (vm_compute; reflexivity).
  split; [exact Hrun|].
  split; [vm_compute; reflexivity|].
  split; [vm_compute; reflexivity|].
  split; [vm_compute; reflexivity|].
  intros Hclaim.
  specialize (Hclaim Scenario.ladder_b (1970, 2)%Z Scenario.ladder_b_bars
                Scenario.ladder_b_start 3%Z).
  assert (Hle : (3 <= Ladder.max_rebalances_total Scenario.ladder_b)%Z).
  { apply Hclaim.
    - repeat constructor; vm_compute; congruence.
    - vm_compute. reflexivity.
    - vm_compute. intuition congruence.
    - exact Hrun. }
  vm_compute in Hle. congruence.
Qed.

Lemma cooldown_blocks_rebalance_witness :
  Ladder.on_bar Scenario.ladder_c Scenario.ladder_c_bar Scenario.ladder_c_start
  = Ok (Base.set_market Scenario.ladder_c_start (bar_market Scenario.ladder_c_bar)).
Proof.
  apply (cooldown_blocks_rebalance Scenario.ladder_c 60 Scenario.ladder_c_bar
           2340%Z 2400%Z Scenario.ladder_c_start).
  - vm_compute. reflexivity.
  - vm_compute. reflexivity.
  - vm_compute. congruence.
  - vm_compute. reflexivity.
Defined.

(** ** The partial-rebalance policy *)

Section PartialFraction.
Context {M : Type} `{Market M}.
Implicit Types (st : Base.Strategy M Partial.Fields).




End PartialFraction.

Section PartialPositions.
Context {M : Type} `{Market M}.
Implicit Types (st : Base.Strategy M Partial.Fields) (d : Partial.PositionsDict).















End PartialPositions.




(** * Further properties of the code *)

(** ** Windows of prices (strategies/brokkr_strategy.py) *)






Lemma max_price_change_nonneg (prices : list Q) change :
  Base.get_max_price_change_in_past_period prices = Ok change -> 0 <= change.
Proof.
  unfold Base.get_max_price_change_in_past_period. intros Hc.
  bind_inv Hc. bind_inv Hc. bind_inv Hc. injection Hc as <-. apply Qabs_nonneg.
Qed.

Lemma max_price_change_cases (prices : list Q) :
  (prices = [] /\ Base.get_max_price_change_in_past_period prices = Raise ValueError)
  \/ (prices <> [] /\ exists change, Base.get_max_price_change_in_past_period prices = Ok change).
Proof.
  destruct prices as [|p ps]; [left; split; reflexivity|].
  right. split; [discriminate|].
  unfold Base.get_max_price_change_in_past_period. simpl.
  match goal with |- context [Utils.get_price_change_in_percentage ?b ?n] =>
    set (hi := b); set (lo := n) end.
  unfold Utils.get_price_change_in_percentage.
  destruct (Qeq_bool hi 0 || Qeq_bool lo 0) eqn:E; simpl; [eauto|].
  apply orb_false_iff in E as [E _]. unfold pdiv. rewrite E. simpl. eauto.
Qed.

Lemma sum_nonneg (data : list Q) : Forall (fun x => 0 <= x) data -> 0 <= fold_right Qplus 0 data.
Proof. induction 1; simpl; lra. Qed.

Section DailyAverage.
Variable price_series : list (Z * Q).
Variable current_timestamp : Z.

(** The window of day [i] (1 is the latest): the 24 hours that end [i - 1]
    days before the current timestamp. *)
Let window (i : Z) : list Q :=
  Base.prices_between price_series (current_timestamp - (i - 1) * 86400 - 86400)%Z
    (current_timestamp - (i - 1) * 86400)%Z.

Lemma daily_price_moves_cases (days : list Z) :
  (exists moves,
      Base.daily_price_moves price_series current_timestamp days = Ok moves
      /\ length moves = length days
      /\ Forall (fun x => 0 <= x) moves
      /\ forall i, In i days -> window i <> [])
  \/ (Base.daily_price_moves price_series current_timestamp days = Raise ValueError
      /\ exists i, In i days /\ window i = []).
Proof.
  induction days as [|i days IH]; simpl.
  - left. exists []. repeat split; auto.
  - destruct (max_price_change_cases (window i)) as [[He Hr]|[Hne [c Hc]]].
    + right. unfold window in Hr. rewrite Hr. split; [reflexivity|]. exists i. auto.
    + unfold window in Hc. rewrite Hc. simpl.
      destruct IH as [(moves & -> & Hlen & Hpos & Hw)|[-> (j & Hj & Hjw)]]; simpl.
      * left. exists (c :: moves). repeat split; simpl; auto.
        -- constructor; [|exact Hpos]. eapply max_price_change_nonneg; eauto.
        -- intros k [<-|Hk]; auto.
      * right. split; [reflexivity|]. exists j. auto.
Qed.

(** X2: [get_average_max_daily_price_change] returns a value exactly when
    [last_days_count >= 1] and each of the [last_days_count] one-day windows
    that end at the current timestamp holds a price; the value is never
    negative.  Otherwise (no day asked for, or a day without data) it raises
    [ValueError]. *)
Theorem average_max_daily_price_change_defined (last_days_count : Z) :
  let result :=
    Base.get_average_max_daily_price_change price_series last_days_count current_timestamp in
  let covered :=
    (1 <= last_days_count)%Z
    /\ forall i, (1 <= i <= last_days_count)%Z -> window i <> [] in
  (covered -> exists average, result = Ok average /\ 0 <= average)
  /\ (~ covered -> result = Raise ValueError)
  /\ (forall average, result = Ok average -> covered /\ 0 <= average).
Proof.
  intros result covered.
  assert (Hin : forall i, In i (seqZ 1 last_days_count) <-> (1 <= i <= last_days_count)%Z).
  { intros i. rewrite <- list_elem_of_In, elem_of_seqZ. lia. }
  assert (Hmain : (covered /\ exists average, result = Ok average /\ 0 <= average)
                  \/ (~ covered /\ result = Raise ValueError)).
  { subst result covered. unfold Base.get_average_max_daily_price_change.
    destruct (daily_price_moves_cases (seqZ 1 last_days_count))
      as [(moves & -> & Hlen & Hpos & Hw)|[-> (j & Hj & Hjw)]]; simpl.
    - destruct moves as [|m moves].
      + right. split; [|reflexivity]. intros [H1 _].
        rewrite length_seqZ in Hlen. simpl in Hlen. lia.
      + left. split.
        * split; [|intros i Hi; apply Hw, Hin, Hi].
          rewrite length_seqZ in Hlen. simpl in Hlen. lia.
        * eexists. split; [reflexivity|].
          apply Qle_shift_div_l.
          -- rewrite <- (Zlt_Qlt 0). simpl. lia.
          -- rewrite Qmult_0_l. apply sum_nonneg. exact Hpos.
    - right. split; [|reflexivity]. intros [_ Hall].
      apply (Hall j); [apply Hin, Hj | exact Hjw]. }
  split; [|split].
  - intros Hc. destruct Hmain as [[_ Hok]|[Hn _]]; [exact Hok | contradiction].
  - intros Hn. destruct Hmain as [[Hc _]|[_ Hr]]; [contradiction | exact Hr].
  - intros average Hr. destruct Hmain as [[Hc (a & Ha & Hpos)]|[_ Hr']].
    + split; [exact Hc|]. rewrite Ha in Hr. injection Hr as <-. exact Hpos.
    + rewrite Hr' in Hr. discriminate.
Qed.

End DailyAverage.

Lemma average_max_daily_price_change_defined_witness :
  exists average,
    Base.get_average_max_daily_price_change
      [(0%Z, 100); (43200%Z, 110); (86400%Z, 99); (129600%Z, 90); (172800%Z, 95)] 2 172800
    = Ok average
    /\ 0 <= average.
Proof.
  apply (proj1 (average_max_daily_price_change_defined
                  [(0%Z, 100); (43200%Z, 110); (86400%Z, 99); (129600%Z, 90); (172800%Z, 95)]
                  172800 2)).
  split; [lia|].
  intros i Hi.
  assert (Hcases : i = 1%Z \/ i = 2%Z) by lia.
  destruct Hcases as [-> | ->]; vm_compute; discriminate.
Defined.

(** ** The HODL price window (strategies/brokkr_strategy_B_with_hodl.py) *)



(** ** The cumulative fee line (strategies/brokkr_strategy.py) *)

Lemma fees_line_length (e p : Q) (xs : list Q) :
  length (Base.fees_line e p xs) = length xs.
Proof.
  revert e p. induction xs as [|x xs IH]; intros e p; simpl; [reflexivity|].
  rewrite IH. reflexivity.
Qed.

Lemma fees_line_lower (xs : list Q) :
  forall e p, Forall (fun x => 0 <= x) xs ->
              Forall (fun y => e + p <= y) (Base.fees_line e p xs).
Proof.
  induction xs as [|x xs IH]; intros e p Hpos; simpl; [constructor|].
  inversion Hpos as [|? ? Hx Hxs]; subst.
  destruct (Qlt_bool x p) eqn:E.
  - apply Qlt_bool_true in E. constructor; [lra|].
    eapply Forall_impl; [apply (IH (e + p) x Hxs)|]. simpl. intros y Hy. lra.
  - apply Qlt_bool_false in E. constructor; [lra|].
    eapply Forall_impl; [apply (IH e x Hxs)|]. simpl. intros y Hy. lra.
Qed.

Lemma fees_line_monotone (xs : list Q) :
  forall e p, Forall (fun x => 0 <= x) xs ->
    forall (i : nat) a b,
      Base.fees_line e p xs !! i = Some a ->
      Base.fees_line e p xs !! S i = Some b -> a <= b.
Proof.
  induction xs as [|x xs IH]; intros e p Hpos i a b Ha Hb; [discriminate|].
  inversion Hpos as [|? ? Hx Hxs]; subst.
  simpl in Ha, Hb. destruct i as [|i].
  - simpl in Ha. injection Ha as <-.
    match type of Hb with
    | Base.fees_line ?e' _ _ !! _ = _ =>
      pose proof (fees_line_lower xs e' x Hxs) as Hlow
    end.
    rewrite Forall_forall in Hlow. apply Hlow.
    apply list_elem_of_lookup_2 in Hb. exact Hb.
  - simpl in Ha. eapply IH; eauto.
Qed.

Lemma fees_line_above (xs : list Q) :
  forall e p, 0 <= e -> Forall (fun x => 0 <= x) xs ->
              Forall2 Qle xs (Base.fees_line e p xs).
Proof.
  induction xs as [|x xs IH]; intros e p He Hpos; simpl; [constructor|].
  inversion Hpos as [|? ? Hx Hxs]; subst.
  destruct (Qlt_bool x p) eqn:E.
  - apply Qlt_bool_true in E.
    destruct xs as [|x' xs'].
    + constructor; [lra | constructor].
    + assert (Hp : 0 <= p \/ p < 0) by lra. destruct Hp as [Hp|Hp]; [|lra].
      constructor; [lra|]. apply IH; [lra | exact Hxs].
  - constructor; [lra|]. apply IH; [exact He | exact Hxs].
Qed.

Lemma fees_line_no_reset (xs : list Q) :
  forall e p,
    match xs with [] => True | x :: _ => p <= x end ->
    (forall (i : nat) a b, xs !! i = Some a -> xs !! S i = Some b -> a <= b) ->
    Forall2 (fun y x => y == e + x) (Base.fees_line e p xs) xs.
Proof.
  induction xs as [|x xs IH]; intros e p Hp Hsorted; simpl; [constructor|].
  assert (E : Qlt_bool x p = false).
  { destruct (Qlt_bool x p) eqn:E; [|reflexivity]. apply Qlt_bool_true in E. lra. }
  rewrite E. constructor; [reflexivity|]. apply IH.
  - destruct xs as [|x' xs']; [exact I|].
    apply (Hsorted 0%nat x x'); reflexivity.
  - intros i a b Ha Hb. apply (Hsorted (S i) a b); assumption.
Qed.

(** X4: [get_fees_line] returns one value per account status.  When the
    uncollected fee read from the statuses is never negative, the line never
    decreases from one status to the next and is nowhere below the uncollected
    fee of its status; when moreover the uncollected fee itself never
    decreases, the line is the uncollected fee. *)
Theorem get_fees_line_cumulative (uncollected : list Q) :
  length (Base.get_fees_line uncollected) = length uncollected
  /\ (Forall (fun x => 0 <= x) uncollected ->
      (forall (i : nat) a b,
          Base.get_fees_line uncollected !! i = Some a ->
          Base.get_fees_line uncollected !! S i = Some b -> a <= b)
      /\ Forall2 Qle uncollected (Base.get_fees_line uncollected)
      /\ ((forall (i : nat) a b,
              uncollected !! i = Some a -> uncollected !! S i = Some b -> a <= b) ->
          Forall2 Qeq (Base.get_fees_line uncollected) uncollected)).
Proof.
  unfold Base.get_fees_line. split; [apply fees_line_length|].
  intros Hpos. split; [apply fees_line_monotone; exact Hpos|].
  split; [apply fees_line_above; [lra | exact Hpos]|].
  intros Hsorted.
  eapply Forall2_impl; [apply fees_line_no_reset|].
  - destruct uncollected as [|x xs]; [exact I|]. inversion Hpos; assumption.
  - exact Hsorted.
  - simpl. intros y x ->. lra.
Qed.

Lemma get_fees_line_cumulative_witness :
  ((forall (i : nat) a b,
       Base.get_fees_line [1; 3; 2; 0; 5] !! i = Some a ->
       Base.get_fees_line [1; 3; 2; 0; 5] !! S i = Some b -> a <= b)
   /\ Forall2 Qle [1; 3; 2; 0; 5] (Base.get_fees_line [1; 3; 2; 0; 5]))
  /\ Forall2 Qeq (Base.get_fees_line [1; 2; 2; 5]) [1; 2; 2; 5].
Proof.
  split.
  - pose proof (proj2 (get_fees_line_cumulative [1; 3; 2; 0; 5])) as H.
    split; apply H; repeat constructor; discriminate.
  - apply (proj2 (get_fees_line_cumulative [1; 2; 2; 5])).
    + repeat constructor; discriminate.
    + intros [|[|[|[|i]]]] a b Ha Hb; try discriminate;
        injection Ha as <-; injection Hb as <-; discriminate.
Defined.

(** ** The fee rate of a year (strategies/brokkr_strategy.py) *)

Lemma foldr_max_spec (k : Z) (ks : list Z) :
  In (foldr Z.max k ks) (k :: ks)
  /\ (forall y, In y (k :: ks) -> (y <= foldr Z.max k ks)%Z).
Proof.
  induction ks as [|x xs [IHin IHmax]]; simpl.
  - split; [left; reflexivity|]. intros y [<-|[]]. lia.
  - split.
    + destruct (Z.max_spec x (foldr Z.max k xs)) as [[_ ->]|[_ ->]].
      * destruct IHin as [E|Hin]; [left; exact E | right; right; exact Hin].
      * right; left; reflexivity.
    + intros y [<-|[<-|Hy]].
      * specialize (IHmax k (or_introl eq_refl)). lia.
      * lia.
      * specialize (IHmax y (or_intror Hy)). lia.
Qed.

Lemma max_key_spec (m : gmap Z Fee) :
  (m = ∅ -> Base.max_key m = Raise ValueError)
  /\ (m <> ∅ ->
      exists k, Base.max_key m = Ok k /\ is_Some (m !! k)
                /\ forall y, is_Some (m !! y) -> (y <= k)%Z).
Proof.
  unfold Base.max_key. split.
  - intros ->. rewrite map_to_list_empty. reflexivity.
  - intros Hne.
    assert (Hkeys : forall y, In y (map_to_list m).*1 <-> is_Some (m !! y)).
    { intros y. rewrite <- list_elem_of_In, list_elem_of_fmap. split.
      - intros ([y' f] & -> & Hin). apply elem_of_map_to_list in Hin.
        simpl. rewrite Hin. eexists; reflexivity.
      - intros [f Hf]. exists (y, f). split; [reflexivity|].
        apply elem_of_map_to_list. exact Hf. }
    destruct ((map_to_list m).*1) as [|k ks] eqn:E.
    + apply fmap_nil_inv in E. apply map_to_list_empty_iff in E. contradiction.
    + destruct (foldr_max_spec k ks) as [Hin Hmax].
      exists (foldr Z.max k ks). split; [reflexivity|].
      split; [apply Hkeys; exact Hin|].
      intros y Hy. apply Hmax. apply Hkeys. exact Hy.
Qed.

(** X5: [get_fee_rate_for_year] returns the entry of the year when the
    fee table has one.  For a year without entry it falls back to the entry of
    the latest year of the table, whatever the year asked for; it raises
    (ValueError, from [max] of no keys) only when the table is empty, and it
    never raises KeyError. *)
Theorem get_fee_rate_for_year_falls_back_to_latest
    {M S : Type} (year : Z) (st : Base.Strategy M S) (cfg : FeesConfiguration) :
  Base.fees_configuration st = Some cfg ->
  (forall fee, fee_rates cfg !! year = Some fee ->
               Base.get_fee_rate_for_year year st = Ok fee)
  /\ (fee_rates cfg !! year = None -> fee_rates cfg <> ∅ ->
      exists latest fee,
        fee_rates cfg !! latest = Some fee
        /\ (forall y, is_Some (fee_rates cfg !! y) -> (y <= latest)%Z)
        /\ Base.get_fee_rate_for_year year st = Ok fee)
  /\ (fee_rates cfg = ∅ -> Base.get_fee_rate_for_year year st = Raise ValueError)
  /\ Base.get_fee_rate_for_year year st <> Raise KeyError.
Proof.
  intros Hcfg. unfold Base.get_fee_rate_for_year. rewrite Hcfg.
  destruct (max_key_spec (fee_rates cfg)) as [Hempty Hmax].
  split; [intros fee ->; reflexivity|]. split; [|split].
  - intros -> Hne. destruct (Hmax Hne) as (k & -> & [fee Hfee] & Hk).
    exists k, fee. simpl. rewrite Hfee. repeat split; auto.
  - intros E. rewrite (Hempty E). rewrite E, lookup_empty. reflexivity.
  - destruct (fee_rates cfg !! year) eqn:Ey; [discriminate|].
    destruct (decide (fee_rates cfg = ∅)) as [E|Hne].
    + rewrite (Hempty E). discriminate.
    + destruct (Hmax Hne) as (k & -> & [fee Hfee] & Hk).
      simpl. rewrite Hfee. discriminate.
Qed.

Lemma get_fee_rate_for_year_falls_back_to_latest_witness :
  exists latest fee,
    Fees.ethereum_fees_usdc !! latest = Some fee
    /\ (forall y, is_Some (Fees.ethereum_fees_usdc !! y) -> (y <= latest)%Z)
    /\ Base.get_fee_rate_for_year 2030
         (Sim.strategy 2000 0 1000 1
            (Some (mkFeesConfiguration Base.get_base_token Fees.ethereum_fees_usdc)) tt)
       = Ok fee.
Proof.
  apply (proj1 (proj2
    (get_fee_rate_for_year_falls_back_to_latest 2030
       (Sim.strategy 2000 0 1000 1
          (Some (mkFeesConfiguration Base.get_base_token Fees.ethereum_fees_usdc)) tt)
       (mkFeesConfiguration Base.get_base_token Fees.ethereum_fees_usdc) eq_refl))).
  - vm_compute. reflexivity.
  - intros E. apply (f_equal (fun m => m !! 2015%Z)) in E. vm_compute in E. discriminate.
Defined.

(** ** The choice of the fee token (strategies/brokkr_strategy.py, config/fees.py) *)

Lemma intersection_spec (tokens tokens_in_pool : list string) (t : string) :
  In t (Base.intersection tokens tokens_in_pool) <-> t ∈ tokens /\ t ∈ tokens_in_pool.
Proof.
  unfold Base.intersection. rewrite filter_In, <- list_elem_of_In, elem_of_remove_dups.
  rewrite bool_decide_eq_true. reflexivity.
Qed.

Lemma first_fees_configuration_spec (pop : list string -> option string)
    (base_name quote_name : string) :
  (forall l, l <> [] -> exists x, pop l = Some x /\ In x l) ->
  forall entries,
    (Forall (Base.no_match base_name quote_name) entries
     /\ Base.first_fees_configuration pop base_name quote_name entries = Ok None)
    \/ (exists before tokens rates after name token,
          entries = before ++ (tokens, rates) :: after
          /\ Forall (Base.no_match base_name quote_name) before
          /\ name ∈ tokens
          /\ (name = base_name /\ token = Base.get_base_token
              \/ name <> base_name /\ name = quote_name /\ token = Base.get_quote_token)
          /\ Base.first_fees_configuration pop base_name quote_name entries
             = Ok (Some (mkFeesConfiguration token rates))).
Proof.
  intros Hpop. induction entries as [|[tokens rates] entries IH].
  - left. split; [constructor | reflexivity].
  - simpl.
    destruct (Base.intersection tokens [base_name; quote_name]) as [|m ms] eqn:E.
    + simpl. assert (Hno : Base.no_match base_name quote_name (tokens, rates)).
      { intros t Ht. simpl in Ht.
        split; intros ->.
        - assert (Hin : In base_name (Base.intersection tokens [base_name; quote_name])).
          { apply intersection_spec. split; [exact Ht | apply list_elem_of_here]. }
          rewrite E in Hin. destruct Hin.
        - assert (Hin : In quote_name (Base.intersection tokens [base_name; quote_name])).
          { apply intersection_spec. split; [exact Ht|].
            apply list_elem_of_further, list_elem_of_here. }
          rewrite E in Hin. destruct Hin. }
      destruct IH as [[Hall Hnone]|
                      (before & tokens' & rates' & after & name & token & -> & Hb & Hn & Ht & Hr)].
      * left. split; [constructor; assumption | exact Hnone].
      * right. exists ((tokens, rates) :: before), tokens', rates', after, name, token.
        split; [reflexivity|]. split; [constructor; assumption|]. auto.
    + right. change (0 <? length (m :: ms))%nat with true. cbv iota.
      destruct (Hpop (m :: ms)) as (x & -> & Hx); [discriminate|].
      rewrite <- E in Hx. apply intersection_spec in Hx as [Hxt Hxp].
      exists [], tokens, rates, entries, x.
      destruct (bool_decide (base_name = x)) eqn:Eb.
      * apply bool_decide_eq_true in Eb. exists Base.get_base_token.
        split; [reflexivity|]. split; [constructor|]. split; [exact Hxt|].
        split; [left; auto | reflexivity].
      * apply bool_decide_eq_false in Eb. exists Base.get_quote_token.
        split; [reflexivity|]. split; [constructor|]. split; [exact Hxt|].
        split; [|reflexivity]. right. split; [congruence|]. split; [|reflexivity].
        apply elem_of_cons in Hxp as [->|Hxp]; [congruence|].
        apply list_elem_of_singleton in Hxp. exact Hxp.
Qed.

(** X6: [get_fees_configuration] raises KeyError for a chain without fee
    tables.  Otherwise it never raises: it returns None when no table of the
    chain names a token of the pool, and else the first table, in the order of
    the chain's list (native token first), that names one; the fee token is
    then the pool's token carrying a name of that table (the base token when
    the popped name is the base token's). *)
Theorem get_fees_configuration_first_match (pop : list string -> option string)
    (chain : Fees.ChainType) (base_name quote_name : string) :
  (forall l, l <> [] -> exists x, pop l = Some x /\ In x l) ->
  match Fees.chain_to_fees_dict chain with
  | None => Base.get_fees_configuration pop chain base_name quote_name = Raise KeyError
  | Some entries =>
    (Forall (Base.no_match base_name quote_name) entries
     /\ Base.get_fees_configuration pop chain base_name quote_name = Ok None)
    \/ (exists before tokens rates after name token,
          entries = before ++ (tokens, rates) :: after
          /\ Forall (Base.no_match base_name quote_name) before
          /\ name ∈ tokens
          /\ (name = base_name /\ token = Base.get_base_token
              \/ name <> base_name /\ name = quote_name /\ token = Base.get_quote_token)
          /\ Base.get_fees_configuration pop chain base_name quote_name
             = Ok (Some (mkFeesConfiguration token rates)))
  end.
Proof.
  intros Hpop. unfold Base.get_fees_configuration.
  destruct (Fees.chain_to_fees_dict chain) as [entries|]; [|reflexivity].
  apply first_fees_configuration_spec. exact Hpop.
Qed.

Lemma get_fees_configuration_first_match_witness :
  match Fees.chain_to_fees_dict Fees.Ethereum with
  | None => Base.get_fees_configuration head Fees.Ethereum "usdc" "weth" = Raise KeyError
  | Some entries =>
    (Forall (Base.no_match "usdc" "weth") entries
     /\ Base.get_fees_configuration head Fees.Ethereum "usdc" "weth" = Ok None)
    \/ (exists before tokens rates after name token,
          entries = before ++ (tokens, rates) :: after
          /\ Forall (Base.no_match "usdc" "weth") before
          /\ name ∈ tokens
          /\ (name = "usdc" /\ token = Base.get_base_token
              \/ name <> "usdc" /\ name = "weth" /\ token = Base.get_quote_token)
          /\ Base.get_fees_configuration head Fees.Ethereum "usdc" "weth"
             = Ok (Some (mkFeesConfiguration token rates)))
  end.
Proof.
  apply (get_fees_configuration_first_match head Fees.Ethereum "usdc" "weth").
  intros [|x l] Hl; [congruence|]. exists x. split; [reflexivity | left; reflexivity].
Defined.

(** ** The thresholds of a partial rebalance (strategies/brokkr_strategy_partial_rebalance.py) *)

Lemma next_surpassed_up_spec (price_now : Q) (points : list Partial.PriceThreshold) :
  (exists first, head points = Some first /\ Partial.price first <= price_now) ->
  exists t before after,
    Partial.next_surpassed_up price_now points = Ok t
    /\ points = before ++ t :: after
    /\ Forall (fun u => Partial.price u <= price_now) before
    /\ Partial.price t <= price_now
    /\ (forall next, head after = Some next -> price_now < Partial.price next).
Proof.
  induction points as [|x rest IH]; intros (first & Hhead & Hfirst); [discriminate|].
  injection Hhead as <-. simpl.
  assert (Ex : Qge_bool price_now (Partial.price x) = true)
    by (apply Qge_bool_true; exact Hfirst).
  rewrite Ex. cbn [andb].
  destruct rest as [|next rest'].
  - exists x, [], []. split; [reflexivity|]. split; [reflexivity|].
    split; [constructor|]. split; [exact Hfirst|]. intros next Hn. discriminate.
  - destruct (Qlt_bool price_now (Partial.price next)) eqn:En.
    + apply Qlt_bool_true in En. exists x, [], (next :: rest').
      split; [reflexivity|]. split; [reflexivity|]. split; [constructor|].
      split; [exact Hfirst|]. intros n Hn. injection Hn as <-. exact En.
    + apply Qlt_bool_false in En.
      destruct IH as (t & before & after & Hr & Hsplit & Hbefore & Ht & Hafter).
      { exists next. split; [reflexivity | exact En]. }
      exists t, (x :: before), after. split; [exact Hr|].
      split; [rewrite Hsplit; reflexivity|].
      split; [constructor; assumption|]. split; assumption.
Qed.

Lemma next_surpassed_down_spec (price_now : Q) (points : list Partial.PriceThreshold) :
  (exists first, head points = Some first /\ price_now <= Partial.price first) ->
  exists t before after,
    Partial.next_surpassed_down price_now points = Ok t
    /\ points = before ++ t :: after
    /\ Forall (fun u => price_now <= Partial.price u) before
    /\ price_now <= Partial.price t
    /\ (forall next, head after = Some next -> Partial.price next < price_now).
Proof.
  induction points as [|x rest IH]; intros (first & Hhead & Hfirst); [discriminate|].
  injection Hhead as <-. simpl.
  assert (Ex : Qle_bool price_now (Partial.price x) = true)
    by (apply Qle_bool_iff; exact Hfirst).
  rewrite Ex. cbn [andb].
  destruct rest as [|next rest'].
  - exists x, [], []. split; [reflexivity|]. split; [reflexivity|].
    split; [constructor|]. split; [exact Hfirst|]. intros next Hn. discriminate.
  - destruct (Qgt_bool price_now (Partial.price next)) eqn:En.
    + apply Qgt_bool_true in En. exists x, [], (next :: rest').
      split; [reflexivity|]. split; [reflexivity|]. split; [constructor|].
      split; [exact Hfirst|]. intros n Hn. injection Hn as <-. exact En.
    + apply Qgt_bool_false in En.
      destruct IH as (t & before & after & Hr & Hsplit & Hbefore & Ht & Hafter).
      { exists next. split; [reflexivity | exact En]. }
      exists t, (x :: before), after. split; [exact Hr|].
      split; [rewrite Hsplit; reflexivity|].
      split; [constructor; assumption|]. split; assumption.
Qed.

(** X13: [get_surpassed_threshold] raises IndexError on an empty list of
    upward thresholds.  On non-empty lists it always returns, whatever their
    order: its generator always finds an index, so [next] never raises
    StopIteration.  It returns None exactly when the price is strictly
    between the first downward and the first upward threshold.  Otherwise it
    returns a threshold of the side the price moved to (upward first), which
    the price has reached together with all thresholds before it in the list,
    while the next threshold of the list, if any, is not reached. *)
Theorem get_surpassed_threshold_total (price_now : Q)
    (first_up : Partial.PriceThreshold) (ups : list Partial.PriceThreshold)
    (first_down : Partial.PriceThreshold) (downs : list Partial.PriceThreshold) :
  (forall points, Partial.get_surpassed_threshold price_now [] points = Raise IndexError)
  /\ exists surpassed,
      Partial.get_surpassed_threshold price_now (first_up :: ups) (first_down :: downs)
      = Ok surpassed
      /\ (surpassed = None
          <-> Partial.price first_down < price_now /\ price_now < Partial.price first_up)
      /\ (forall t, surpassed = Some t ->
            (Partial.price first_up <= price_now
             /\ exists before after,
                 first_up :: ups = before ++ t :: after
                 /\ Forall (fun u => Partial.price u <= price_now) before
                 /\ Partial.price t <= price_now
                 /\ (forall next, head after = Some next -> price_now < Partial.price next))
            \/ (price_now < Partial.price first_up
                /\ exists before after,
                    first_down :: downs = before ++ t :: after
                    /\ Forall (fun u => price_now <= Partial.price u) before
                    /\ price_now <= Partial.price t
                    /\ (forall next, head after = Some next ->
                                     Partial.price next < price_now))).
Proof.
  split; [reflexivity|]. unfold Partial.get_surpassed_threshold.
  destruct (Qge_bool price_now (Partial.price first_up)) eqn:Eup.
  - apply Qge_bool_true in Eup.
    destruct (next_surpassed_up_spec price_now (first_up :: ups))
      as (t & before & after & -> & Hsplit & Hbefore & Ht & Hafter).
    { exists first_up. split; [reflexivity | exact Eup]. }
    exists (Some t). split; [reflexivity|]. split.
    + split; [discriminate|]. intros [_ Hlt]. lra.
    + intros t' Et. injection Et as <-. left. split; [exact Eup|].
      exists before, after. auto.
  - apply Qge_bool_false in Eup.
    destruct (Qle_bool price_now (Partial.price first_down)) eqn:Edown.
    + apply Qle_bool_iff in Edown.
      destruct (next_surpassed_down_spec price_now (first_down :: downs))
        as (t & before & after & -> & Hsplit & Hbefore & Ht & Hafter).
      { exists first_down. split; [reflexivity | exact Edown]. }
      exists (Some t). split; [reflexivity|]. split.
      * split; [discriminate|]. intros [Hlt _]. lra.
      * intros t' Et. injection Et as <-. right. split; [exact Eup|].
        exists before, after. auto.
    + exists None. split; [reflexivity|]. split.
      * split; [|reflexivity]. intros _. split; [|exact Eup].
        apply Qnot_le_lt. intros Hle. apply Qle_bool_iff in Hle. congruence.
      * intros t' Et. discriminate.
Qed.

(** ** Strategy A: the daily cap (strategies/brokkr_strategy_A.py) *)

Section StrategyADay.
Context {M : Type} `{Market M}.
Variable c : StrategyA.Config.
Implicit Types (st : Base.Strategy M StrategyA.Fields).

#[local] Open Scope Z_scope.

Lemma strategy_a_rebalance_frame range st st' :
  StrategyA.rebalance_and_add_symmetric_liquidity range st = Ok st' ->
  Base.custom st' = Base.custom st
  /\ rebalances_count (Base.stats st') = rebalances_count (Base.stats st) + 1.
Proof.
  unfold StrategyA.rebalance_and_add_symmetric_liquidity. intros Hr. bind_inv Hr.
  destruct a as [st1 o]. injection Hr as <-.
  apply rebalance_and_add_symmetric_liquidity_frame in Ha
    as ((ts & lo & hi & d & E1) & _ & E3).
  split; [exact E1 | exact E3].
Qed.

(** A bar either leaves the counters as they read, or performs one rebalance,
    on a day whose counter was below the cap, and counts it for that day. *)
Lemma strategy_a_on_bar_effect bar st st' :
  StrategyA.on_bar c bar st = Ok st' ->
  let count s k := default 0 (StrategyA.day_to_rebalance_count (Base.custom s) !! k) in
  (rebalances_count (Base.stats st') = rebalances_count (Base.stats st)
   /\ forall k, count st' k = count st k)
  \/ (exists key,
        Utils.timestamp_to_key <$> bar_timestamp bar = Some key
        /\ count st key < StrategyA.max_rebalances_per_day c
        /\ rebalances_count (Base.stats st') = rebalances_count (Base.stats st) + 1
        /\ count st' key = count st key + 1
        /\ forall k, k <> key -> count st' k = count st k).
Proof.
  intros Hr count. unfold StrategyA.on_bar, StrategyA.on_bar_custom in Hr.
  unfold bar_timestamp.
  destruct (bar_account_status bar) as [|a l] eqn:El.
  { injection Hr as <-. left. auto. }
  rewrite <- El in *. clear El a l.
  bind_inv Hr. destruct a; [|injection Hr as <-; left; auto].
  destruct (last (bar_account_status bar)) as [current|]; [|discriminate].
  destruct (Ladder.setdefault _ _) as [d rebalanced_count] eqn:Es.
  apply setdefault_spec in Es as [Ev Ed]. simpl in Ev, Ed.
  destruct (_ <=? _) eqn:Ecap.
  - injection Hr as <-. left. split; [reflexivity|]. intros k. apply Ed.
  - apply Z.leb_gt in Ecap. bind_inv Hr. injection Hr as <-.
    apply strategy_a_rebalance_frame in Ha0 as [Ecustom Estats].
    simpl in Ecustom, Estats. right.
    exists (Utils.timestamp_to_key (as_timestamp current)).
    split; [reflexivity|]. subst count. cbn beta.
    split; [rewrite <- Ev; exact Ecap|]. split; [exact Estats|].
    simpl. rewrite Ecustom. simpl. split.
    + rewrite lookup_insert_eq. simpl. rewrite Ev. reflexivity.
    + intros k Hk. rewrite lookup_insert_ne by congruence. apply Ed.
Qed.

(** X15: over any run of strategy A's bar loop, from any state and with
    the bars in any order, the rebalances performed on the bars of one
    calendar day are exactly what the day's counter gains, and the counter is
    never raised beyond [max_rebalances_per_day]: the day sees at most
    [max_rebalances_per_day] rebalances less those already counted for it, and
    none when the cap is zero or negative. *)
Theorem strategy_a_daily_cap (day : Z * Z) (bars : list (Bar M)) st (n : Z) final :
  StrategyA.rebalances_on_day c day bars st = Ok (n, final) ->
  let counted s := default 0 (StrategyA.day_to_rebalance_count (Base.custom s) !! day) in
  0 <= n <= Z.max 0 (StrategyA.max_rebalances_per_day c - counted st)
  /\ counted final = counted st + n.
Proof.
  intros Hr counted. subst counted. cbv beta.
  revert st n final Hr. induction bars as [|bar bars IH]; intros st n final Hr.
  - simpl in Hr. injection Hr as <- <-. lia.
  - simpl in Hr. bind_inv Hr. bind_inv Hr. destruct a0 as [m final'].
    specialize (IH a m final' Ha0).
    apply strategy_a_on_bar_effect in Ha. cbv zeta beta in Ha.
    destruct (bool_decide _) eqn:Eday; injection Hr as <- <-.
    + apply bool_decide_eq_true in Eday.
      destruct Ha as [[Estats Ecount]|(key & Hkey & Hcap & Estats & Ekey & Eother)].
      * specialize (Ecount day). lia.
      * assert (key = day) by congruence. subst key. lia.
    + apply bool_decide_eq_false in Eday.
      destruct Ha as [[Estats Ecount]|(key & Hkey & Hcap & Estats & Ekey & Eother)].
      * specialize (Ecount day). lia.
      * assert (Hne : day <> key) by congruence.
        specialize (Eother day Hne). lia.
Qed.

End StrategyADay.

Lemma strategy_a_daily_cap_witness :
  (0 <= 2 <= Z.max 0 (StrategyA.max_rebalances_per_day Scenario.strategy_a
                      - default 0 (StrategyA.day_to_rebalance_count
                                     (Base.custom Scenario.strategy_a_start)
                                   !! (1970, 1)%Z)))%Z.
Proof.
  assert (Hrun : exists final,
             StrategyA.rebalances_on_day Scenario.strategy_a (1970, 1)%Z
               Scenario.strategy_a_bars Scenario.strategy_a_start = Ok (2%Z, final)).
  { eexists. vm_compute. reflexivity. }
  destruct Hrun as [final Hrun].
  exact (proj1 (strategy_a_daily_cap Scenario.strategy_a (1970, 1)%Z
                  Scenario.strategy_a_bars Scenario.strategy_a_start 2%Z final Hrun)).
Defined.

(** ** Strategies B and C: the choice of the tier (strategies/brokkr_strategy_B.py) *)

Section LadderTier.
Variable c : Ladder.Config.
#[local] Open Scope Z_scope.

(** The sum of the caps of the first [i] tiers. *)
Let budget (i : nat) : Z := foldr Z.add 0 (take i (Ladder.max_rebalances c)).

Lemma budget_S (i : nat) (m : Z) :
  Ladder.max_rebalances c !! i = Some m -> budget (S i) = budget i + m.
Proof.
  intros Em. unfold budget. rewrite (take_S_r _ _ _ Em), foldr_add_app. simpl. lia.
Qed.

Lemma range_for_rebalance_walk (count : Z) (rs : list Q) :
  forall i : nat,
    (forall (k : nat) range,
        rs !! k = Some range ->
        (i + k < length (Ladder.max_rebalances c))%nat ->
        (forall j : nat, (j < k)%nat -> budget (S (i + j)) <= count) ->
        count < budget (S (i + k)) ->
        Ladder.range_for_rebalance c rs i (budget i) count = Ok range)
    /\ ((i + length rs <= length (Ladder.max_rebalances c))%nat ->
        (forall j : nat, (j < length rs)%nat -> budget (S (i + j)) <= count) ->
        Ladder.range_for_rebalance c rs i (budget i) count = Ok (-1)%Q)
    /\ ((length (Ladder.max_rebalances c) < i + length rs)%nat ->
        (i <= length (Ladder.max_rebalances c))%nat ->
        (forall j : nat, (i + j < length (Ladder.max_rebalances c))%nat ->
                         budget (S (i + j)) <= count) ->
        Ladder.range_for_rebalance c rs i (budget i) count = Raise IndexError).
Proof.
  induction rs as [|r rs IH]; intros i.
  - split; [intros k range Hk; discriminate|]. split; [reflexivity|].
    simpl. intros Hlen Hi. lia.
  - destruct (IH (S i)) as (IHa & IHb & IHc). split; [|split].
    + intros k range Hk Hlen Hbefore Hcount. simpl.
      destruct (lookup_lt_is_Some_2 (Ladder.max_rebalances c) i ltac:(lia)) as [m Em].
      rewrite Em, <- (budget_S i m Em).
      destruct k as [|k].
      * injection Hk as <-. rewrite Nat.add_0_r in Hcount.
        apply Z.ltb_lt in Hcount. rewrite Hcount. reflexivity.
      * pose proof (Hbefore 0%nat ltac:(lia)) as H0. rewrite Nat.add_0_r in H0.
        apply Z.ltb_ge in H0. rewrite H0.
        apply (IHa k range Hk); [lia| |].
        -- intros j Hj. specialize (Hbefore (S j) ltac:(lia)).
           replace (S i + j)%nat with (i + S j)%nat by lia. exact Hbefore.
        -- replace (S i + k)%nat with (i + S k)%nat by lia. exact Hcount.
    + intros Hlen Hall. simpl in Hlen. simpl.
      destruct (lookup_lt_is_Some_2 (Ladder.max_rebalances c) i ltac:(lia)) as [m Em].
      rewrite Em, <- (budget_S i m Em).
      pose proof (Hall 0%nat ltac:(simpl; lia)) as H0. rewrite Nat.add_0_r in H0.
      apply Z.ltb_ge in H0. rewrite H0.
      apply IHb; [lia|]. intros j Hj. specialize (Hall (S j) ltac:(simpl; lia)).
      replace (S i + j)%nat with (i + S j)%nat by lia. exact Hall.
    + intros Hlen Hi Hall. simpl in Hlen. simpl.
      destruct (Ladder.max_rebalances c !! i) as [m|] eqn:Em; [|reflexivity].
      rewrite <- (budget_S i m Em).
      assert (Hi' : (i < length (Ladder.max_rebalances c))%nat)
        by (apply lookup_lt_is_Some_1; eauto).
      pose proof (Hall 0%nat ltac:(lia)) as H0. rewrite Nat.add_0_r in H0.
      apply Z.ltb_ge in H0. rewrite H0.
      apply IHc; [lia | lia |]. intros j Hj. specialize (Hall (S j) ltac:(lia)).
      replace (S i + j)%nat with (i + S j)%nat by lia. exact Hall.
Qed.

(** X16: the tier walk of [on_rebalance_needed] hands out the range of
    the first tier whose cumulated cap (the sum of the caps up to and
    including it) exceeds the day's counter.  When no tier's does, it yields
    -1 (no rebalance) if every range has a cap, and raises IndexError if
    [max_rebalances] is shorter than [ranges]. *)
Theorem range_for_rebalance_first_tier_with_budget (count : Z) :
  let walk := Ladder.range_for_rebalance c (Ladder.ranges c) 0 0 count in
  let cumulated (i : nat) := foldr Z.add 0 (take (S i) (Ladder.max_rebalances c)) in
  (forall (k : nat) range,
      Ladder.ranges c !! k = Some range ->
      (k < length (Ladder.max_rebalances c))%nat ->
      (forall j : nat, (j < k)%nat -> cumulated j <= count) ->
      count < cumulated k ->
      walk = Ok range)
  /\ ((length (Ladder.ranges c) <= length (Ladder.max_rebalances c))%nat ->
      (forall j : nat, (j < length (Ladder.ranges c))%nat -> cumulated j <= count) ->
      walk = Ok (-1)%Q)
  /\ ((length (Ladder.max_rebalances c) < length (Ladder.ranges c))%nat ->
      (forall j : nat, (j < length (Ladder.max_rebalances c))%nat ->
                       cumulated j <= count) ->
      walk = Raise IndexError).
Proof.
  intros walk cumulated. subst walk.
  destruct (range_for_rebalance_walk count (Ladder.ranges c) 0) as (Ha & Hb & Hc).
  change (budget 0) with 0 in Ha, Hb, Hc. simpl in Ha, Hb, Hc.
  split; [|split].
  - intros k range Hk Hlen Hbefore Hcount. apply (Ha k range Hk Hlen Hbefore Hcount).
  - intros Hlen Hall. apply (Hb Hlen Hall).
  - intros Hlen Hall. apply (Hc Hlen ltac:(lia) Hall).
Qed.

End LadderTier.

Lemma range_for_rebalance_first_tier_with_budget_witness :
  Ladder.range_for_rebalance Scenario.ladder_c (Ladder.ranges Scenario.ladder_c) 0 0 3
  = Ok 5%Q.
Proof.
  apply (proj1 (range_for_rebalance_first_tier_with_budget Scenario.ladder_c 3%Z) 1%nat).
  - reflexivity.
  - simpl. lia.
  - intros [|j] Hj; [vm_compute; discriminate | lia].
  - reflexivity.
Defined.

(** ** The cost statistics under a fee configuration (strategies/brokkr_strategy.py) *)

Lemma fmap_ok {A B : Type} (f : A -> B) (m : result A) (y : B) :
  f <$> m = Ok y -> exists x, m = Ok x /\ y = f x.
Proof. destruct m as [x|e]; [|discriminate]. intros [= <-]. eauto. Qed.

Section FeeBooking.
Context {M : Type} `{Market M} {S : Type}.
Variable opened_hook : Z -> Q -> Q -> option RebalanceDirection -> S -> S.
Implicit Types (st : Base.Strategy M S).

Lemma get_fee_rate_for_year_in_table year st cfg configuration :
  Base.fees_configuration st = Some cfg ->
  Base.get_fee_rate_for_year year st = Ok configuration ->
  exists y, fee_rates cfg !! y = Some configuration.
Proof.
  intros Hcfg. unfold Base.get_fee_rate_for_year. rewrite Hcfg.
  destruct (fee_rates cfg !! year) as [f|] eqn:Ey.
  - intros [= <-]. eauto.
  - intros Hr. bind_inv Hr.
    destruct (fee_rates cfg !! a) as [f|] eqn:Ea; [|discriminate].
    injection Hr as <-. eauto.
Qed.

(** A charge takes the rate from the table and touches the balances only. *)
Lemma charge_fee_rate st st' cfg (rate : Fee -> Q) fee spent :
  Base.fees_configuration st = Some cfg ->
  Base.charge_fee rate st = Ok (st', fee, spent) ->
  (exists y configuration,
      fee_rates cfg !! y = Some configuration /\ fee = rate configuration)
  /\ exists b, st' = Base.set_broker st b.
Proof.
  intros Hcfg Hc. split; [|eapply charge_fee_frame; eauto].
  unfold Base.charge_fee in Hc. bind_inv Hc. bind_inv Hc.
  destruct a0 as [st1 sp]. injection Hc as _ <- _.
  destruct (get_fee_rate_for_year_in_table _ _ _ _ Hcfg Ha) as [y Hy]. eauto.
Qed.

(** One operation books its own rate, once, and counts itself. *)
Lemma perform_books_fee op st st' cfg (fee : Fee) :
  Base.fees_configuration st = Some cfg ->
  (forall y configuration, fee_rates cfg !! y = Some configuration -> configuration = fee) ->
  Base.perform opened_hook op st = Ok st' ->
  Base.fees_configuration st' = Some cfg
  /\ rebalances_cost (Base.stats st')
     == rebalances_cost (Base.stats st) + (if Base.is_rebalance op then swap_in fee else 0)
  /\ providing_lp_cost (Base.stats st')
     == providing_lp_cost (Base.stats st)
        + (if Base.is_providing op then liquidity_providing fee else 0)
  /\ withdrawing_lp_cost (Base.stats st')
     == withdrawing_lp_cost (Base.stats st)
        + (if Base.is_withdrawing op then removing_liquidity fee else 0)
  /\ rebalances_count (Base.stats st')
     = (rebalances_count (Base.stats st) + if Base.is_rebalance op then 1 else 0)%Z
  /\ providing_lp_count (Base.stats st')
     = (providing_lp_count (Base.stats st) + if Base.is_providing op then 1 else 0)%Z
  /\ withdrawing_lp_count (Base.stats st')
     = (withdrawing_lp_count (Base.stats st) + if Base.is_withdrawing op then 1 else 0)%Z.
Proof.
  intros Hcfg Hflat. destruct op as [p|lo hi bm qm d|pos liq|m]; simpl.
  - unfold Base.symmetrical_rebalance. rewrite Hcfg. intros Hr.
    bind_inv Hr. injection Hr as <-. bind_inv Ha. destruct a0 as [[st1 f] sp].
    injection Ha as <-.
    destruct (charge_fee_rate _ _ _ _ _ _ Hcfg Ha0) as [(y & conf & Hy & ->) [b ->]].
    rewrite (Hflat _ _ Hy). simpl.
    repeat split; auto; try lra; lia.
  - unfold Base.add_liquidity_custom_range. rewrite Hcfg. intros Hr.
    apply fmap_ok in Hr as ([st1 o] & Hr & ->).
    bind_inv Hr. destruct a as [st2 [bs qs]]. bind_inv Ha.
    destruct a as [[st3 f] sp]. injection Ha as <- ->.
    destruct (charge_fee_rate _ _ _ _ _ _ Hcfg Ha0) as [(y & conf & Hy & ->) [b ->]].
    destruct (market_add_liquidity _ _ _ _ _) as [o' [m b']]. simpl in Hr.
    injection Hr as <- _. simpl. rewrite (Hflat _ _ Hy).
    repeat split; auto; try lra; lia.
  - unfold Base.remove_liquidity.
    destruct (market_remove_liquidity _ _ _) as [r [m b']]. simpl.
    rewrite Hcfg. intros Hr. bind_inv Hr. destruct a as [[st1 f] sp].
    injection Hr as <-.
    eapply charge_fee_rate in Ha; [|exact Hcfg].
    destruct Ha as [(y & conf & Hy & ->) [b ->]].
    rewrite (Hflat _ _ Hy). simpl.
    repeat split; auto; try lra; lia.
  - intros [= <-]. simpl. repeat split; auto; try lra; lia.
Qed.

(** X17: under a fee configuration whose table holds one fee (as the
    Arbitrum tables do), every sequence of operations that completes leaves
    each cost field raised by the number of operations of its kind times the
    rate of that kind, and each counter raised by that number: every
    operation books its fee exactly once, to its own field, also when the fee
    was paid partly from the other token.  The configuration is left as it
    was. *)
Theorem flat_fee_costs (ops : list (Base.Operation (M := M))) st st'
    (cfg : FeesConfiguration) (fee : Fee) :
  Base.fees_configuration st = Some cfg ->
  (forall y configuration, fee_rates cfg !! y = Some configuration -> configuration = fee) ->
  Base.perform_all opened_hook ops st = Ok st' ->
  Base.fees_configuration st' = Some cfg
  /\ rebalances_cost (Base.stats st')
     == rebalances_cost (Base.stats st)
        + inject_Z (Base.count_ops Base.is_rebalance ops) * swap_in fee
  /\ providing_lp_cost (Base.stats st')
     == providing_lp_cost (Base.stats st)
        + inject_Z (Base.count_ops Base.is_providing ops) * liquidity_providing fee
  /\ withdrawing_lp_cost (Base.stats st')
     == withdrawing_lp_cost (Base.stats st)
        + inject_Z (Base.count_ops Base.is_withdrawing ops) * removing_liquidity fee
  /\ rebalances_count (Base.stats st')
     = (rebalances_count (Base.stats st) + Base.count_ops Base.is_rebalance ops)%Z
  /\ providing_lp_count (Base.stats st')
     = (providing_lp_count (Base.stats st) + Base.count_ops Base.is_providing ops)%Z
  /\ withdrawing_lp_count (Base.stats st')
     = (withdrawing_lp_count (Base.stats st)
        + Base.count_ops Base.is_withdrawing ops)%Z.
Proof.
  intros Hcfg Hflat. revert st Hcfg.
  induction ops as [|op ops IH]; intros st Hcfg Hr.
  - simpl in Hr. injection Hr as <-. unfold Base.count_ops. simpl.
    change (inject_Z (Z.of_nat 0)) with 0.
    repeat split; auto; try lra; lia.
  - simpl in Hr. bind_inv Hr.
    destruct (perform_books_fee op st a cfg fee Hcfg Hflat Ha)
      as (Hcfg1 & C1 & C2 & C3 & N1 & N2 & N3).
    destruct (IH a Hcfg1 Hr) as (Hcfg' & C1' & C2' & C3' & N1' & N2' & N3').
    rewrite !count_ops_cons, !inject_Z_plus.
    split; [exact Hcfg'|].
    destruct (Base.is_rebalance op), (Base.is_providing op), (Base.is_withdrawing op);
      change (inject_Z 1) with 1; change (inject_Z 0) with 0;
      repeat split; try lra; lia.
Qed.

End FeeBooking.

Lemma flat_fee_costs_witness :
  exists st',
    Base.perform_all (fun _ _ _ _ s => s)
      [Base.SymmetricalRebalance 2;
       Base.AddLiquidityCustomRange 1 3 (Some 10) (Some 1) None;
       Base.NextBar (Sim.mkPool 4 60 [((1, 3)%Z, 1000%Z)]);
       Base.RemoveLiquidity (1, 3)%Z None]
      (Sim.strategy 2 0 100 0
         (Some (mkFeesConfiguration BaseToken Fees.arbitrum_fees_usdc)) tt)
    = Ok st'
    /\ rebalances_cost (Base.stats st') == 0 + inject_Z 1 * (15 # 100)
    /\ providing_lp_cost (Base.stats st') == 0 + inject_Z 1 * (25 # 100)
    /\ withdrawing_lp_cost (Base.stats st') == 0 + inject_Z 1 * (21 # 100).
Proof.
  assert (Hrun : exists st',
             Base.perform_all (fun _ _ _ _ s => s)
               [Base.SymmetricalRebalance 2;
                Base.AddLiquidityCustomRange 1 3 (Some 10) (Some 1) None;
                Base.NextBar (Sim.mkPool 4 60 [((1, 3)%Z, 1000%Z)]);
                Base.RemoveLiquidity (1, 3)%Z None]
               (Sim.strategy 2 0 100 0
                  (Some (mkFeesConfiguration BaseToken Fees.arbitrum_fees_usdc)) tt)
             = Ok st').
  { eexists. vm_compute. reflexivity. }
  destruct Hrun as [st' Hrun]. exists st'. split; [exact Hrun|].
  assert (Hflat : forall (y : Z) configuration,
             fee_rates (mkFeesConfiguration BaseToken Fees.arbitrum_fees_usdc) !! y
             = Some configuration ->
             configuration = mkFee (15 # 100) (25 # 100) (21 # 100)).
  { intros y conf Hy. simpl in Hy. unfold Fees.arbitrum_fees_usdc in Hy. simpl in Hy.
    apply lookup_insert_Some in Hy as [[_ <-]|[_ Hy]]; [reflexivity|].
    rewrite lookup_empty in Hy. discriminate. }
  destruct (flat_fee_costs (fun _ _ _ _ s => s) _
              (Sim.strategy 2 0 100 0
                 (Some (mkFeesConfiguration BaseToken Fees.arbitrum_fees_usdc)) tt)
              st' (mkFeesConfiguration BaseToken Fees.arbitrum_fees_usdc)
              (mkFee (15 # 100) (25 # 100) (21 # 100)) eq_refl Hflat Hrun)
    as (_ & C1 & C2 & C3 & _).
  split; [exact C1|]. split; [exact C2 | exact C3].
Defined.

(** ** One rebalance, counted (strategies/brokkr_strategy.py) *)

Section RebalanceCounts.
Context {M : Type} `{Market M} {S : Type}.
Variable opened_hook : Z -> Q -> Q -> option RebalanceDirection -> S -> S.
Implicit Types (st : Base.Strategy M S).

(** X18: a call of [rebalance_and_add_symmetric_liquidity] that returns
    has counted one rebalance, one provision of liquidity, and one withdrawal
    for each position the market held at the call. *)
Theorem rebalance_and_add_symmetric_liquidity_counts st st' (range : Q)
    (init_price : option Q) opened :
  Base.rebalance_and_add_symmetric_liquidity opened_hook range init_price st
  = Ok (st', opened) ->
  rebalances_count (Base.stats st') = (rebalances_count (Base.stats st) + 1)%Z
  /\ providing_lp_count (Base.stats st') = (providing_lp_count (Base.stats st) + 1)%Z
  /\ withdrawing_lp_count (Base.stats st')
     = (withdrawing_lp_count (Base.stats st)
        + Z.of_nat (length (market_positions (Base.market st))))%Z.
Proof.
  intros Hr.
  destruct (rebalance_and_add_symmetric_liquidity_frame opened_hook _ _ _ _ _ Hr)
    as (_ & _ & Hreb).
  split; [exact Hreb|].
  unfold Base.rebalance_and_add_symmetric_liquidity in Hr. bind_inv Hr.
  destruct a as [direction st1]. bind_inv Hr.
  apply symmetrical_rebalance_counts in Ha0 as [P2 W2].
  assert (E1 : providing_lp_count (Base.stats st1) = providing_lp_count (Base.stats st)
               /\ withdrawing_lp_count (Base.stats st1)
                  = (withdrawing_lp_count (Base.stats st)
                     + Z.of_nat (length (market_positions (Base.market st))))%Z).
  { destruct (last (market_positions (Base.market st))) as [position|] eqn:El.
    - bind_inv Ha. injection Ha as _ <-. now apply remove_all_liquidity_counts.
    - injection Ha as _ <-. apply last_None in El. rewrite El. simpl.
      split; [reflexivity | lia]. }
  destruct E1 as [P1 W1].
  apply add_liquidity_counts in Hr as (P3 & W3).
  split; congruence.
Qed.

End RebalanceCounts.

Lemma rebalance_and_add_symmetric_liquidity_counts_witness :
  exists st' opened,
    Base.rebalance_and_add_symmetric_liquidity (fun _ _ _ _ s => s) 5 None
      (Base.set_market (Sim.strategy 100 0 1000 0 None tt)
         (Sim.mkPool 100 60 [((90, 110)%Z, 1000%Z); ((95, 105)%Z, 500%Z)]))
    = Ok (st', opened)
    /\ rebalances_count (Base.stats st') = 1%Z
    /\ providing_lp_count (Base.stats st') = 1%Z
    /\ withdrawing_lp_count (Base.stats st') = 2%Z.
Proof.
  assert (Hrun : exists st' opened,
             Base.rebalance_and_add_symmetric_liquidity (fun _ _ _ _ s => s) 5 None
               (Base.set_market (Sim.strategy 100 0 1000 0 None tt)
                  (Sim.mkPool 100 60 [((90, 110)%Z, 1000%Z); ((95, 105)%Z, 500%Z)]))
             = Ok (st', opened)).
  { eexists _, _. vm_compute. reflexivity. }
  destruct Hrun as (st' & opened & Hrun). exists st', opened.
  split; [exact Hrun|].
  destruct (rebalance_and_add_symmetric_liquidity_counts _ _ _ _ _ _ Hrun)
    as (R & P & W).
  split; [exact R|]. split; [exact P | exact W].
Defined.

(** ** Strategies B and C: the counters over a run (strategies/brokkr_strategy_B.py) *)

Section LadderRun.
Context {M : Type} `{Market M}.
Variable c : Ladder.Config.
Implicit Types (st : Base.Strategy M Ladder.Fields).
#[local] Open Scope Z_scope.

Hypothesis caps_nonneg : Forall (fun m => 0 <= m) (Ladder.max_rebalances c).

Lemma on_bar_without_status (bar : Bar M) st st' :
  bar_timestamp bar = None ->
  Ladder.on_bar c bar st = Ok st' ->
  st' = Base.set_market st (bar_market bar).
Proof.
  unfold Ladder.on_bar, Ladder.on_bar_custom, bar_timestamp.
  destruct (bar_account_status bar) as [|s0 rest]; [congruence|].
  destruct (last (s0 :: rest)) eqn:El; [discriminate|].
  apply last_None in El. discriminate.
Qed.

Lemma bar_timestamps_cons (bar : Bar M) (bars : list (Bar M)) :
  Ladder.bar_timestamps (bar :: bars)
  = match bar_timestamp bar with
    | Some ts => ts :: Ladder.bar_timestamps bars
    | None => Ladder.bar_timestamps bars
    end.
Proof. reflexivity. Qed.

(** X20: over any run of the bar loop of strategies B and C with
    non-negative caps, from any state and with the bars in any order, a bar
    performs at most one rebalance, and none when no account status has been
    recorded yet; and no day's counter is ever raised beyond the sum of the
    caps: at the end each counter is at most the larger of its initial value
    and that sum. *)
Theorem ladder_run_counters (bars : list (Bar M)) st final :
  Ladder.run c bars st = Ok final ->
  0 <= Ladder.rebalances_done st final <= Z.of_nat (length (Ladder.bar_timestamps bars))
  /\ forall key,
      Ladder.rebalanced_count final key
      <= Z.max (Ladder.rebalanced_count st key) (Ladder.max_rebalances_total c).
Proof.
  pose proof (total_nonneg c caps_nonneg) as Htot.
  revert st. induction bars as [|bar bars IH]; intros st Hr.
  - simpl in Hr. injection Hr as <-. unfold Ladder.rebalances_done. simpl.
    split; [lia|]. intros key. lia.
  - simpl in Hr. bind_inv Hr. destruct (IH a Hr) as [Hdone Hcount].
    unfold Ladder.rebalances_done in *.
    rewrite (bar_timestamps_cons bar bars).
    destruct (bar_timestamp bar) as [ts|] eqn:Ets.
    + pose proof (on_bar_effect c caps_nonneg bar ts st a Ets Ha) as Heff.
      cbn [length]. rewrite Nat2Z.inj_succ.
      destruct Heff as [En Em Ek | Hpos Hday En Em Ek0 Ek | En Em Hbud Ek1 Ek].
      * split; [lia|]. intros key. specialize (Hcount key). rewrite Ek in Hcount. lia.
      * split; [lia|]. intros key. specialize (Hcount key).
        destruct (decide (key = Utils.timestamp_to_key ts)) as [->|Hne].
        -- rewrite Ek0 in Hcount. lia.
        -- rewrite (Ek key Hne) in Hcount. lia.
      * split; [lia|]. intros key. specialize (Hcount key).
        destruct (decide (key = Utils.timestamp_to_key ts)) as [->|Hne].
        -- rewrite Ek1 in Hcount. lia.
        -- rewrite (Ek key Hne) in Hcount. lia.
    + apply (on_bar_without_status bar st a Ets) in Ha. subst a.
      simpl in Hdone. split; [exact Hdone|]. intros key. apply Hcount.
Qed.

End LadderRun.

Lemma ladder_run_counters_witness :
  exists final,
    Ladder.run Scenario.ladder_b Scenario.ladder_b_bars Scenario.ladder_b_start = Ok final
    /\ (0 <= Ladder.rebalances_done Scenario.ladder_b_start final
        <= Z.of_nat (length (Ladder.bar_timestamps Scenario.ladder_b_bars)))%Z.
Proof.
  assert (Hrun : exists final,
             Ladder.run Scenario.ladder_b Scenario.ladder_b_bars Scenario.ladder_b_start
             = Ok final).
  { eexists. vm_compute. reflexivity. }
  destruct Hrun as [final Hrun]. exists final. split; [exact Hrun|].
  apply (ladder_run_counters Scenario.ladder_b
           ltac:(repeat constructor; vm_compute; congruence)
           Scenario.ladder_b_bars Scenario.ladder_b_start final Hrun).
Defined.

(** ** Days and day keys (utils/strategy_utils.py) *)

(** X22: [is_one_day_or_older] holds exactly from 86400 seconds on, and
    is the cooldown test [is_older_than] of strategy C at 1440 minutes.  Two
    timestamps get the same key from [timestamp_to_key] exactly when they lie
    on the same day; hence a timestamp that is one day or older than another
    never shares its key, so the counter that strategy B resets a day after
    entering the widest tier is never the counter of the day of entering. *)
Theorem one_day_or_older_changes_the_key (historical_timestamp current_timestamp : Z) :
  (Utils.is_one_day_or_older historical_timestamp current_timestamp = true
   <-> (historical_timestamp + 86400 <= current_timestamp)%Z)
  /\ Utils.is_one_day_or_older historical_timestamp current_timestamp
     = Ladder.is_older_than historical_timestamp current_timestamp 1440
  /\ (Utils.timestamp_to_key historical_timestamp = Utils.timestamp_to_key current_timestamp
      <-> Utils.days_since_epoch historical_timestamp
          = Utils.days_since_epoch current_timestamp)
  /\ (Utils.is_one_day_or_older historical_timestamp current_timestamp = true ->
      Utils.timestamp_to_key historical_timestamp
      <> Utils.timestamp_to_key current_timestamp).
Proof.
  assert (Hiff : Utils.is_one_day_or_older historical_timestamp current_timestamp = true
                 <-> (historical_timestamp + 86400 <= current_timestamp)%Z).
  { unfold Utils.is_one_day_or_older. rewrite Z.leb_le. lia. }
  split; [exact Hiff|]. split; [reflexivity|]. split.
  - split; [apply timestamp_to_key_inj_day|].
    intros Hday. unfold Utils.timestamp_to_key, Utils.dayofyear, Utils.year.
    rewrite Hday. reflexivity.
  - intros Hold. apply one_day_later_other_key. apply Hiff. exact Hold.
Qed.

(** ** A quiet position ends the bar (strategies/brokkr_strategy_partial_rebalance.py) *)

Section PartialQuiet.
Context {M : Type} `{Market M}.
Implicit Types (st : Base.Strategy M Partial.Fields).

(** X23: [process_active_positions] returns at the first tracked position
    that has no new threshold to act on.  When the price of the bar lies
    strictly inside the first pair of thresholds of the position tracked
    first, the bar changes nothing but the market status the runner sets,
    whatever thresholds the price has crossed on the positions tracked after
    it: those are not looked at on this bar. *)
Theorem quiet_first_position_ends_the_bar (bar : Bar M) st
    (position_info : PositionInfo) (position : Partial.PartialRebalancePosition)
    (rest : Partial.PositionsDict)
    (first_up first_down : Partial.PriceThreshold)
    (ups downs : list Partial.PriceThreshold) :
  bar_account_status bar <> [] ->
  Partial.dict_of st = (position_info, position) :: rest ->
  Partial.division_price_points_up position = first_up :: ups ->
  Partial.division_price_points_down position = first_down :: downs ->
  Partial.price first_down < market_price (bar_market bar) ->
  market_price (bar_market bar) < Partial.price first_up ->
  Partial.on_bar bar st = Ok (Base.set_market st (bar_market bar)).
Proof.
  intros Hstatus Hdict Hup Hdown Hlow Hhigh.
  unfold Partial.on_bar, Partial.on_bar_custom.
  destruct (bar_account_status bar) as [|s0 statuses]; [congruence|].
  unfold Partial.process_active_positions.
  change (Partial.dict_of (Base.set_market st (bar_market bar)))
    with (Partial.dict_of st).
  rewrite Hdict. cbn [fmap list_fmap fst Partial.process_each].
  change (Partial.dict_of (Base.set_market st (bar_market bar)))
    with (Partial.dict_of st).
  rewrite Hdict. unfold Partial.dict_get. cbn [List.find fst].
  rewrite bool_decide_eq_true_2 by reflexivity. cbn [fmap option_fmap option_map snd].
  rewrite Hup, Hdown. unfold Partial.get_surpassed_threshold.
  unfold Base.get_current_default_quote_token_market_price.
  change (Base.market (Base.set_market st (bar_market bar))) with (bar_market bar).
  assert (Eup : Qge_bool (market_price (bar_market bar)) (Partial.price first_up) = false)
    by (apply Qge_bool_false; exact Hhigh).
  assert (Edown : Qle_bool (market_price (bar_market bar)) (Partial.price first_down)
                  = false).
  { destruct (Qle_bool _ _) eqn:E; [|reflexivity]. apply Qle_bool_iff in E. lra. }
  rewrite Eup, Edown. reflexivity.
Qed.

End PartialQuiet.

Lemma quiet_first_position_ends_the_bar_witness :
  Partial.on_bar (mkBar (Sim.mkPool 102 120 [((90, 110), 1000)]%Z) [Scenario.in_range 60])
    Scenario.partial_start
  = Ok (Base.set_market Scenario.partial_start
          (bar_market
             (mkBar (Sim.mkPool 102 120 [((90, 110), 1000)]%Z) [Scenario.in_range 60]))).
Proof.
  eapply (quiet_first_position_ends_the_bar
            (mkBar (Sim.mkPool 102 120 [((90, 110), 1000)]%Z) [Scenario.in_range 60])
            Scenario.partial_start).
  - discriminate.
  - vm_compute. reflexivity.
  - vm_compute. reflexivity.
  - vm_compute. reflexivity.
  - vm_compute. reflexivity.
  - vm_compute. reflexivity.
Defined.
